(** * The TLS hello-extension registry and dispatch engine of GnuTLS

    A shallow embedding of [lib/extensions.c]: the catalog of extension
    descriptors (the process-wide [extfunc] table and the per-session
    [rexts] overlay), the parsing and sending callbacks, the per-session
    private-data table, and the packing of that table for resumption.

    C [int] results are integers of [Z]; a negative value is an error.
    Buffers are lists of bytes.  Function pointers of a descriptor are
    optional functions; the part of the session they may change is
    [session_state].  The operations the engine invokes on descriptors are
    recorded in a trace of [event]s, so that "is invoked" and "is not
    invoked" can be stated. *)

From Stdlib Require Import ZArith List Bool Lia String.
From Stdlib.Strings Require Import Byte.
From stdpp Require Import base list.
Import ListNotations.

Local Open Scope Z_scope.

(** ** Integer conversions of C *)

(** Conversion to a 32-bit [unsigned]. *)
Definition to_uint32 (z : Z) : Z := z mod 2 ^ 32.

(** Conversion to a 32-bit [int] (two's complement). *)
Definition to_int32 (z : Z) : Z := (z + 2 ^ 31) mod 2 ^ 32 - 2 ^ 31.

(** Conversion to [uint16_t]. *)
Definition to_uint16 (z : Z) : Z := z mod 2 ^ 16.

(** ** Bytes and buffers *)

Definition byte_of_Z (z : Z) : byte :=
  match Byte.of_N (Z.to_N (z mod 256)) with
  | Some b => b
  | None => x00
  end.

Definition Z_of_byte (b : byte) : Z := Z.of_N (Byte.to_N b).

(** [gnutls_buffer_st]: the live bytes of the buffer ([data], [length]).
    Appending never fails here: running out of memory is not modelled.
    Lengths and offsets of buffers are exact numbers: the [int] variables
    of the source that hold them are wide enough for every buffer a
    handshake or a session blob is made of.  The 32-bit numbers read from a
    blob are converted as the source converts them. *)
Definition gnutls_buffer_st : Type := list byte.

(** Modelled from the spec: the big-endian 32-bit and 16-bit fields of the
    resumption format and of the extension block (section 6);
    [_gnutls_write_uint32], [_gnutls_write_uint16] and the buffer helpers
    behind [BUFFER_APPEND_NUM] and [BUFFER_POP_NUM] are not among the
    sources. *)
Definition uint32_bytes (v : Z) : list byte :=
  [byte_of_Z (v / 2 ^ 24); byte_of_Z (v / 2 ^ 16); byte_of_Z (v / 2 ^ 8);
   byte_of_Z v].

Definition uint16_bytes (v : Z) : list byte :=
  [byte_of_Z (v / 2 ^ 8); byte_of_Z v].

Definition read_uint32 (b3 b2 b1 b0 : byte) : Z :=
  Z_of_byte b3 * 2 ^ 24 + Z_of_byte b2 * 2 ^ 16 + Z_of_byte b1 * 2 ^ 8
  + Z_of_byte b0.

Definition read_uint16 (b1 b0 : byte) : Z :=
  Z_of_byte b1 * 2 ^ 8 + Z_of_byte b0.

(** Overwrites the bytes of [buf] from offset [off] on with [bs]; the
    buffer keeps its length. *)
Definition write_bytes (bs : list byte) (off : nat) (buf : gnutls_buffer_st)
  : gnutls_buffer_st :=
  list_inserts off bs buf.

Definition _gnutls_write_uint32 (v : Z) (off : nat) (buf : gnutls_buffer_st)
  : gnutls_buffer_st :=
  write_bytes (uint32_bytes v) off buf.

Definition _gnutls_write_uint16 (v : Z) (off : nat) (buf : gnutls_buffer_st)
  : gnutls_buffer_st :=
  write_bytes (uint16_bytes v) off buf.

(** [BUFFER_APPEND_NUM(b, s)]: appends [s] as a 32-bit big-endian number. *)
Definition BUFFER_APPEND_NUM (b : gnutls_buffer_st) (s : Z) : gnutls_buffer_st :=
  b ++ uint32_bytes s.

(** [BUFFER_POP_NUM(b, o)]: removes a 32-bit big-endian number from the
    front of the buffer; [None] when fewer than four bytes are left, where
    the macro jumps to the error exit. *)
Definition BUFFER_POP_NUM (b : gnutls_buffer_st) : option (Z * gnutls_buffer_st) :=
  match b with
  | b3 :: b2 :: b1 :: b0 :: rest => Some (read_uint32 b3 b2 b1 b0, rest)
  | _ => None
  end.

(** ** Error codes and flags *)

(** Modelled from the spec: the error kinds of section 7 under the names the
    source uses for them.  The public header that gives them their numbers
    is not among the sources; the numbers below are those of that header,
    and the development only relies on their being negative and distinct
    from [GNUTLS_E_INT_RET_0]. *)
Definition GNUTLS_E_SUCCESS : Z := 0.
Definition GNUTLS_E_MEMORY_ERROR : Z := -25.
Definition GNUTLS_E_INVALID_REQUEST : Z := -50.
Definition GNUTLS_E_RECEIVED_ILLEGAL_EXTENSION : Z := -55.
Definition GNUTLS_E_REQUESTED_DATA_NOT_AVAILABLE : Z := -56.
Definition GNUTLS_E_INTERNAL_ERROR : Z := -59.
Definition GNUTLS_E_ALREADY_REGISTERED : Z := -209.
Definition GNUTLS_E_PARSING_ERROR : Z := -302.

(** The sentinel a send operation returns for "present, with an empty
    body" ([EMIT_ZERO_LENGTH] in the spec). *)
Definition GNUTLS_E_INT_RET_0 : Z := -1251.

(** Modelled from the spec: the handshake-message tags of a validity mask
    (section 3) and the override flag of a session registration, as bits of
    [gnutls_ext_flags_t]; the header declaring them is not among the
    sources. *)
Definition GNUTLS_EXT_FLAG_OVERRIDE_INTERNAL : Z := 1.
Definition GNUTLS_EXT_FLAG_CLIENT_HELLO : Z := 2.
Definition GNUTLS_EXT_FLAG_TLS12_SERVER_HELLO : Z := 4.
Definition GNUTLS_EXT_FLAG_TLS13_SERVER_HELLO : Z := 8.
Definition GNUTLS_EXT_FLAG_EE : Z := 16.
Definition GNUTLS_EXT_FLAG_CT : Z := 32.
Definition GNUTLS_EXT_FLAG_CR : Z := 64.
Definition GNUTLS_EXT_FLAG_NST : Z := 128.
Definition GNUTLS_EXT_FLAG_HRR : Z := 256.

Definition VALIDITY_MASK : Z :=
  Z.lor GNUTLS_EXT_FLAG_CLIENT_HELLO
 (Z.lor GNUTLS_EXT_FLAG_TLS12_SERVER_HELLO
 (Z.lor GNUTLS_EXT_FLAG_TLS13_SERVER_HELLO
 (Z.lor GNUTLS_EXT_FLAG_EE
 (Z.lor GNUTLS_EXT_FLAG_CT
 (Z.lor GNUTLS_EXT_FLAG_CR
 (Z.lor GNUTLS_EXT_FLAG_NST GNUTLS_EXT_FLAG_HRR)))))).

(** Modelled from the spec: the parse classes of section 3
    ([gnutls_ext_parse_type_t]; the source only names [GNUTLS_EXT_ANY]). *)
Inductive gnutls_ext_parse_type_t : Type :=
| GNUTLS_EXT_ANY
| GNUTLS_EXT_APPLICATION
| GNUTLS_EXT_TLS_EARLY
| GNUTLS_EXT_TLS_LATE.

Definition parse_type_eqb (a b : gnutls_ext_parse_type_t) : bool :=
  match a, b with
  | GNUTLS_EXT_ANY, GNUTLS_EXT_ANY
  | GNUTLS_EXT_APPLICATION, GNUTLS_EXT_APPLICATION
  | GNUTLS_EXT_TLS_EARLY, GNUTLS_EXT_TLS_EARLY
  | GNUTLS_EXT_TLS_LATE, GNUTLS_EXT_TLS_LATE => true
  | _, _ => false
  end.

(** The role of the session, [security_parameters.entity]. *)
Inductive gnutls_entity : Type := GNUTLS_SERVER | GNUTLS_CLIENT.

(** ** The session state the extensions work on *)

(** [gnutls_ext_priv_data_t] is an opaque pointer; [0] is [NULL]. *)
Definition gnutls_ext_priv_data_t : Type := Z.

(** One slot of [internals.ext_data]: the fields [id], [set], [priv],
    [resumed_set] and [resumed_priv]. *)
Record ext_data_st : Type := mk_ext_data {
  ed_id : Z;
  ed_set : bool;
  ed_priv : gnutls_ext_priv_data_t;
  ed_resumed_set : bool;
  ed_resumed_priv : gnutls_ext_priv_data_t
}.

(** The zero-initialised slot of a new session. *)
Definition ext_data_zero : ext_data_st := mk_ext_data 0 false 0 false 0.

(** The part of a session the operations of a descriptor may read and
    change: the role, the advertisement bitset [internals.used_exts] and the
    slot table [internals.ext_data]. *)
Record session_state : Type := mk_state {
  entity : gnutls_entity;
  used_exts : Z;
  ext_data : list ext_data_st
}.

(** ** Extension descriptors *)

(** [hello_ext_entry_st].  An absent function pointer is [None], and so is
    a [NULL] name; the deinitialisation function only acts on the memory
    behind the private pointer, so its presence is a flag and its calls are
    events. *)
Record hello_ext_entry_st : Type := mk_ext {
  name : option string;
  free_struct : bool;
  tls_id : Z;
  gid : Z;
  parse_type : gnutls_ext_parse_type_t;
  validity : Z;
  recv_func : option (session_state -> list byte -> Z * session_state);
  send_func : option (session_state -> gnutls_buffer_st
                      -> Z * session_state * gnutls_buffer_st);
  deinit_func : bool;
  pack_func : option (gnutls_ext_priv_data_t -> gnutls_buffer_st
                      -> Z * gnutls_buffer_st);
  unpack_func : option (gnutls_buffer_st
                        -> Z * gnutls_ext_priv_data_t * gnutls_buffer_st);
  cannot_be_overriden : bool
}.

(** [gnutls_session_t]: the state above and the session overlay
    [internals.rexts] ([rexts_size] is the length of the list). *)
Record gnutls_session_t : Type := mk_session {
  state : session_state;
  rexts : list hello_ext_entry_st
}.

(** What the engine does to descriptors and what it writes to the handshake
    log. *)
Inductive event : Type :=
| call_recv (e : hello_ext_entry_st) (data : list byte)
| call_send (e : hello_ext_entry_st)
| call_deinit (e : hello_ext_entry_st) (p : gnutls_ext_priv_data_t)
| log_sending (e : hello_ext_entry_st) (bytes : Z).

Definition set_state (session : gnutls_session_t) (st : session_state)
  : gnutls_session_t :=
  mk_session st (rexts session).

Definition set_used_exts (st : session_state) (u : Z) : session_state :=
  mk_state (entity st) u (ext_data st).

Definition set_ext_data (st : session_state) (t : list ext_data_st)
  : session_state :=
  mk_state (entity st) (used_exts st) t.

(** The context the framing layer hands to the two callbacks
    ([hello_ext_ctx_st]; the session and the descriptor being sent are
    passed next to it). *)
Record hello_ext_ctx_st : Type := mk_ctx {
  ctx_msg : Z;
  ctx_parse_type : gnutls_ext_parse_type_t
}.

Definition is_client (st : session_state) : bool :=
  match entity st with GNUTLS_CLIENT => true | GNUTLS_SERVER => false end.

Definition is_server (st : session_state) : bool :=
  match entity st with GNUTLS_SERVER => true | GNUTLS_CLIENT => false end.

Section Engine.

(** The constants of the build.  [MAX_EXT_TYPES] is the number of slots of
    the private-data table and bounds the [extfunc] table;
    [GNUTLS_EXTENSION_MAX] is the last internal id of a compiled-in
    extension and [GNUTLS_EXTENSION_MAX_VALUE] the last internal id there
    is.  Their header is not among the sources, so they are parameters;
    the advertisement bitset is taken to be wide enough for every internal
    id up to [GNUTLS_EXTENSION_MAX_VALUE]. *)
Variable MAX_EXT_TYPES : nat.
Variable GNUTLS_EXTENSION_MAX : Z.
Variable GNUTLS_EXTENSION_MAX_VALUE : Z.

(** The negative results of the two helpers that are modelled from the spec
    below: the error kinds [UNSOLICITED_EXTENSION] and
    [MALFORMED_EXTENSION_BLOCK] of section 7. *)
Variable UNSOLICITED_EXTENSION : Z.
Variable MALFORMED_EXTENSION_BLOCK : Z.

(** The process-wide table [extfunc], up to its terminating [NULL]. *)
Variable extfunc : list hello_ext_entry_st.

(** ** Catalog lookup *)

Definition _gnutls_ext_ptr (session : gnutls_session_t) (id : Z)
    (parse_type' : gnutls_ext_parse_type_t) : option hello_ext_entry_st :=
  let done (e : hello_ext_entry_st) :=
    if parse_type_eqb parse_type' GNUTLS_EXT_ANY
       || parse_type_eqb (parse_type e) parse_type'
    then Some e else None in
  match List.find (fun e => gid e =? id) (rexts session) with
  | Some e => done e
  | None =>
      match List.find (fun e => gid e =? id) extfunc with
      | Some e => done e
      | None => None
      end
  end.

Definition gnutls_ext_get_name (ext : Z) : option string :=
  match List.find (fun e => tls_id e =? ext) extfunc with
  | Some e => name e
  | None => None
  end.

Definition tls_id_to_gid (session : gnutls_session_t) (tls_id' : Z) : Z :=
  match List.find (fun e => tls_id e =? tls_id') (rexts session) with
  | Some e => gid e
  | None =>
      match List.find (fun e => tls_id e =? tls_id') extfunc with
      | Some e => gid e
      | None => 0
      end
  end.

(** ** The advertisement bitset *)

(** Modelled from the spec: [_gnutls_extension_list_check], declared in a
    header that is not among the sources.  The advertisement bitset has one
    bit per internal id (section 3); the check is [0] when the bit of [id]
    is set and the negative [UNSOLICITED_EXTENSION] when it is not
    (section 4.2, step 2; the callers in the source test [< 0] for "not
    advertised" and [== 0] for "already sent"). *)
Definition _gnutls_extension_list_check (st : session_state) (id : Z) : Z :=
  if Z.testbit (used_exts st) id then 0 else UNSOLICITED_EXTENSION.

(** Modelled from the spec: [_gnutls_extension_list_add], from the same
    header.  It marks the internal id of [e] in the bitset and returns
    non-zero; with [check_dup] it returns [0] and changes nothing when the
    bit was already set (section 4.2, step 5). *)
Definition _gnutls_extension_list_add (st : session_state)
    (e : hello_ext_entry_st) (check_dup : bool) : Z * session_state :=
  if check_dup && (_gnutls_extension_list_check st (gid e) =? 0)
  then (0, st)
  else (1, set_used_exts st (Z.lor (used_exts st) (Z.shiftl 1 (gid e)))).

(** ** Parsing *)

Definition hello_ext_parse (ctx : hello_ext_ctx_st) (tls_id' : Z)
    (data : list byte) (session : gnutls_session_t)
  : Z * gnutls_session_t * list event :=
  let id := tls_id_to_gid session tls_id' in
  if id =? 0 then (0, session, [])
  else
    let ret := if is_client (state session)
               then _gnutls_extension_list_check (state session) id
               else 0 in
    if ret <? 0 then (ret, session, [])
    else
      match _gnutls_ext_ptr session id (ctx_parse_type ctx) with
      | None => (0, session, [])
      | Some ext =>
          match recv_func ext with
          | None => (0, session, [])
          | Some recv =>
              if Z.land (validity ext) (ctx_msg ctx) =? 0
              then (GNUTLS_E_RECEIVED_ILLEGAL_EXTENSION, session, [])
              else
                let '(ret, st) :=
                  if is_server (state session)
                  then _gnutls_extension_list_add (state session) ext true
                  else (1, state session) in
                if ret =? 0
                then (GNUTLS_E_RECEIVED_ILLEGAL_EXTENSION, session, [])
                else
                  let '(ret, st) := recv st data in
                  if ret <? 0
                  then (ret, set_state session st, [call_recv ext data])
                  else (0, set_state session st, [call_recv ext data])
          end
      end.

(** Modelled from the spec: [_gnutls_extv_parse], whose file is not among
    the sources.  The block is a sequence of records
    [wire_id: u16 | length: u16 | body] (section 6); the callback runs on
    each record in turn and its first negative result ends the walk; a
    record that extends past the block is [MALFORMED_EXTENSION_BLOCK].
    [fuel] bounds the number of records; the length of the block is always
    enough. *)
Fixpoint extv_parse_records (fuel : nat)
    (cb : Z -> list byte -> gnutls_session_t
          -> Z * gnutls_session_t * list event)
    (data : list byte) (session : gnutls_session_t)
  : Z * gnutls_session_t * list event :=
  match data with
  | [] => (0, session, [])
  | t1 :: t0 :: l1 :: l0 :: rest =>
      let size := Z.to_nat (read_uint16 l1 l0) in
      if (length rest <? size)%nat
      then (MALFORMED_EXTENSION_BLOCK, session, [])
      else
        match fuel with
        | O => (MALFORMED_EXTENSION_BLOCK, session, [])
        | S fuel' =>
            let '(ret, session1, tr1) :=
              cb (read_uint16 t1 t0) (take size rest) session in
            if ret <? 0 then (ret, session1, tr1)
            else
              let '(ret, session2, tr2) :=
                extv_parse_records fuel' cb (drop size rest) session1 in
              (ret, session2, tr1 ++ tr2)
        end
  | _ => (MALFORMED_EXTENSION_BLOCK, session, [])
  end.

Definition _gnutls_extv_parse
    (cb : Z -> list byte -> gnutls_session_t
          -> Z * gnutls_session_t * list event)
    (data : list byte) (session : gnutls_session_t)
  : Z * gnutls_session_t * list event :=
  extv_parse_records (length data) cb data session.

Definition _gnutls_parse_extensions (session : gnutls_session_t) (msg : Z)
    (parse_type' : gnutls_ext_parse_type_t) (data : list byte)
  : Z * gnutls_session_t * list event :=
  let ctx := mk_ctx msg parse_type' in
  let '(ret, session', tr) :=
    _gnutls_extv_parse (hello_ext_parse ctx) data session in
  if ret <? 0 then (ret, session', tr) else (0, session', tr).

(** ** Sending *)

Definition hello_ext_send (ctx : hello_ext_ctx_st) (p : hello_ext_entry_st)
    (session : gnutls_session_t) (buf : gnutls_buffer_st)
  : Z * gnutls_session_t * gnutls_buffer_st * list event :=
  match send_func p with
  | None => (0, session, buf, [])
  | Some send =>
      if negb (parse_type_eqb (ctx_parse_type ctx) GNUTLS_EXT_ANY)
         && negb (parse_type_eqb (parse_type p) (ctx_parse_type ctx))
      then (0, session, buf, [])
      else if Z.land (ctx_msg ctx) (validity p) =? 0
      then (0, session, buf, [])
      else
        let ret := _gnutls_extension_list_check (state session) (gid p) in
        if (if is_server (state session) then ret <? 0 else ret =? 0)
        then (0, session, buf, [])
        else
          let size_prev := Z.of_nat (length buf) in
          let '(ret, st, buf') := send (state session) buf in
          if (ret <? 0) && negb (ret =? GNUTLS_E_INT_RET_0)
          then (ret, set_state session st, buf', [call_send p])
          else
            let appended := Z.of_nat (length buf') - size_prev in
            let st' :=
              if ((0 <? appended) || (ret =? GNUTLS_E_INT_RET_0))
                 && is_client st
              then snd (_gnutls_extension_list_add st p false)
              else st in
            (ret, set_state session st', buf', [call_send p])
  end.

(** Modelled from the spec: [_gnutls_extv_append] (section 4.3, steps 5 and
    6; its file is not among the sources).  It writes the wire id and a
    16-bit placeholder, runs the callback, and back-patches the placeholder
    with the number of bytes appended, or with zero on the sentinel
    [GNUTLS_E_INT_RET_0]; the result is then the size of the record.  When
    the callback skipped (nothing appended, no sentinel) the four bytes are
    taken back and the result is [0]; a negative result of the callback
    other than the sentinel is returned as it is. *)
Definition _gnutls_extv_append (buf : gnutls_buffer_st) (tls_id' : Z)
    (cb : gnutls_session_t -> gnutls_buffer_st
          -> Z * gnutls_session_t * gnutls_buffer_st * list event)
    (session : gnutls_session_t)
  : Z * gnutls_session_t * gnutls_buffer_st * list event :=
  let buf1 := buf ++ uint16_bytes tls_id' in
  let size_pos := length buf1 in
  let buf2 := buf1 ++ uint16_bytes 0 in
  let size_prev := Z.of_nat (length buf2) in
  let '(ret, session', buf3, tr) := cb session buf2 in
  if (ret <? 0) && negb (ret =? GNUTLS_E_INT_RET_0)
  then (ret, session', buf3, tr)
  else
    let appended := Z.of_nat (length buf3) - size_prev in
    if (0 <? appended) || (ret =? GNUTLS_E_INT_RET_0)
    then
      let appended := if ret =? GNUTLS_E_INT_RET_0 then 0 else appended in
      (appended + 4, session', _gnutls_write_uint16 appended size_pos buf3, tr)
    else
      (0, session', take (length buf3 - 4)%nat buf3, tr).

(** Modelled from the spec: [_gnutls_extv_append_init] reserves the 16-bit
    length of the block and returns its position, and
    [_gnutls_extv_append_final] back-patches it after the walk
    (section 4.3). *)
Definition _gnutls_extv_append_init (buf : gnutls_buffer_st)
  : nat * gnutls_buffer_st :=
  (length buf, buf ++ uint16_bytes 0).

Definition _gnutls_extv_append_final (buf : gnutls_buffer_st) (pos : nat)
  : gnutls_buffer_st :=
  _gnutls_write_uint16 (Z.of_nat (length buf) - Z.of_nat pos - 2) pos buf.

(** One loop of [_gnutls_gen_extensions] over a list of descriptors. *)
Fixpoint gen_extensions_loop (ctx : hello_ext_ctx_st)
    (exts : list hello_ext_entry_st)
    (session : gnutls_session_t) (buf : gnutls_buffer_st)
  : Z * gnutls_session_t * gnutls_buffer_st * list event :=
  match exts with
  | [] => (0, session, buf, [])
  | e :: exts' =>
      let '(ret, session1, buf1, tr1) :=
        _gnutls_extv_append buf (tls_id e) (hello_ext_send ctx e) session in
      if ret <? 0 then (ret, session1, buf1, tr1)
      else
        let tr1 := if 0 <? ret then tr1 ++ [log_sending e (ret - 4)]
                   else tr1 in
        let '(ret, session2, buf2, tr2) :=
          gen_extensions_loop ctx exts' session1 buf1 in
        (ret, session2, buf2, tr1 ++ tr2)
  end.

Definition _gnutls_gen_extensions (session : gnutls_session_t)
    (buf : gnutls_buffer_st) (msg : Z)
    (parse_type' : gnutls_ext_parse_type_t)
  : Z * gnutls_session_t * gnutls_buffer_st * list event :=
  let ctx := mk_ctx msg parse_type' in
  let '(pos, buf) := _gnutls_extv_append_init buf in
  let '(ret, session1, buf1, tr1) :=
    gen_extensions_loop ctx (rexts session) session buf in
  if ret <? 0 then (ret, session1, buf1, tr1)
  else
    let '(ret, session2, buf2, tr2) :=
      gen_extensions_loop ctx extfunc session1 buf1 in
    if ret <? 0 then (ret, session2, buf2, tr1 ++ tr2)
    else (0, session2, _gnutls_extv_append_final buf2 pos, tr1 ++ tr2).

(** ** Global initialisation and deinitialisation *)

Definition _gnutls_ext_init : Z := GNUTLS_E_SUCCESS.

(** [_gnutls_ext_deinit]: the cells of the array [extfunc] after the loop,
    up to the place of the old terminating [NULL].  The loop goes on after
    a cell it cleared, so it visits every entry of the table; the entries
    registered at run time ([free_struct] not zero) are freed and their
    cells become [NULL].  The memory the entries and their names occupy is
    not modelled. *)
Definition _gnutls_ext_deinit : list (option hello_ext_entry_st) :=
  map (fun e => if free_struct e then None else Some e) extfunc.

(** ** The private-data table of a session *)

(** The index of the first element that satisfies [f]: the loops of the
    source that act on the first matching slot and return. *)
Fixpoint first_index {A : Type} (f : A -> bool) (l : list A) : option nat :=
  match l with
  | [] => None
  | x :: l' => if f x then Some O else option_map S (first_index f l')
  end.

(** The slots the loops [for (i = 0; i < MAX_EXT_TYPES; i++)] visit. *)
Definition slots (session : gnutls_session_t) : list ext_data_st :=
  take MAX_EXT_TYPES (ext_data (state session)).

Definition update_slot (session : gnutls_session_t) (idx : nat)
    (d : ext_data_st) : gnutls_session_t :=
  set_state session
    (set_ext_data (state session) (<[idx := d]> (ext_data (state session)))).

Definition unset_ext_data (session : gnutls_session_t)
    (ext : option hello_ext_entry_st) (idx : nat)
  : gnutls_session_t * list event :=
  match ext_data (state session) !! idx with
  | None => (session, [])
  | Some d =>
      if negb (ed_set d) then (session, [])
      else
        let tr :=
          match ext with
          | Some e =>
              if deinit_func e && negb (ed_priv d =? 0)
              then [call_deinit e (ed_priv d)] else []
          | None => []
          end in
        (update_slot session idx
           (mk_ext_data (ed_id d) false (ed_priv d)
              (ed_resumed_set d) (ed_resumed_priv d)), tr)
  end.

Definition unset_resumed_ext_data (session : gnutls_session_t)
    (ext : option hello_ext_entry_st) (idx : nat)
  : gnutls_session_t * list event :=
  match ext_data (state session) !! idx with
  | None => (session, [])
  | Some d =>
      if negb (ed_resumed_set d) then (session, [])
      else
        let tr :=
          match ext with
          | Some e =>
              if deinit_func e && negb (ed_resumed_priv d =? 0)
              then [call_deinit e (ed_resumed_priv d)] else []
          | None => []
          end in
        (update_slot session idx
           (mk_ext_data (ed_id d) (ed_set d) (ed_priv d)
              false (ed_resumed_priv d)), tr)
  end.

(** The slot both setters look for: the first one that holds [id] or has
    neither flag set. *)
Definition slot_for (id : Z) (d : ext_data_st) : bool :=
  (ed_id d =? id) || (negb (ed_set d) && negb (ed_resumed_set d)).

Definition _gnutls_ext_set_session_data (session : gnutls_session_t)
    (id : Z) (data : gnutls_ext_priv_data_t)
  : gnutls_session_t * list event :=
  let ext := _gnutls_ext_ptr session id GNUTLS_EXT_ANY in
  match first_index (slot_for id) (slots session) with
  | None => (session, [])
  | Some i =>
      let '(session1, tr) :=
        match ext_data (state session) !! i with
        | Some d => if ed_set d then unset_ext_data session ext i
                    else (session, [])
        | None => (session, [])
        end in
      match ext_data (state session1) !! i with
      | Some d =>
          (update_slot session1 i
             (mk_ext_data id true data
                (ed_resumed_set d) (ed_resumed_priv d)), tr)
      | None => (session1, tr)
      end
  end.

Definition _gnutls_ext_set_resumed_session_data (session : gnutls_session_t)
    (id : Z) (data : gnutls_ext_priv_data_t)
  : gnutls_session_t * list event :=
  let ext := _gnutls_ext_ptr session id GNUTLS_EXT_ANY in
  match first_index (slot_for id) (slots session) with
  | None => (session, [])
  | Some i =>
      let '(session1, tr) :=
        match ext_data (state session) !! i with
        | Some d => if ed_resumed_set d
                    then unset_resumed_ext_data session ext i
                    else (session, [])
        | None => (session, [])
        end in
      match ext_data (state session1) !! i with
      | Some d =>
          (update_slot session1 i
             (mk_ext_data id (ed_set d) (ed_priv d) true data), tr)
      | None => (session1, tr)
      end
  end.

Definition _gnutls_ext_unset_session_data (session : gnutls_session_t)
    (id : Z) : gnutls_session_t * list event :=
  let ext := _gnutls_ext_ptr session id GNUTLS_EXT_ANY in
  match first_index (fun d => ed_id d =? id) (slots session) with
  | None => (session, [])
  | Some i => unset_ext_data session ext i
  end.

(** The result of a getter: the [int] result and the private data written
    through the out parameter, which is only written on success. *)
Definition _gnutls_ext_get_session_data (session : gnutls_session_t)
    (id : Z) : Z * option gnutls_ext_priv_data_t :=
  match List.find (fun d => ed_set d && (ed_id d =? id)) (slots session) with
  | Some d => (0, Some (ed_priv d))
  | None => (GNUTLS_E_REQUESTED_DATA_NOT_AVAILABLE, None)
  end.

Definition _gnutls_ext_get_resumed_session_data (session : gnutls_session_t)
    (id : Z) : Z * option gnutls_ext_priv_data_t :=
  match List.find (fun d => ed_resumed_set d && (ed_id d =? id))
          (slots session) with
  | Some d => (0, Some (ed_resumed_priv d))
  | None => (GNUTLS_E_INVALID_REQUEST, None)
  end.

(** The body of the loop of [_gnutls_ext_free_session_data] at index [i]. *)
Definition free_session_data_at (session : gnutls_session_t) (i : nat)
  : gnutls_session_t * list event :=
  match ext_data (state session) !! i with
  | None => (session, [])
  | Some d =>
      if negb (ed_set d) && negb (ed_resumed_set d) then (session, [])
      else
        let ext := _gnutls_ext_ptr session (ed_id d) GNUTLS_EXT_ANY in
        let '(session1, tr1) := unset_ext_data session ext i in
        let '(session2, tr2) := unset_resumed_ext_data session1 ext i in
        (session2, tr1 ++ tr2)
  end.

Definition _gnutls_ext_free_session_data (session : gnutls_session_t)
  : gnutls_session_t * list event :=
  fold_left
    (fun '(s, tr) i =>
       let '(s', tr') := free_session_data_at s i in (s', tr ++ tr'))
    (seq 0 MAX_EXT_TYPES) (session, []).

(** ** Packing for resumption *)

Definition pack_extension (session : gnutls_session_t)
    (extp : hello_ext_entry_st) (packed : gnutls_buffer_st)
  : Z * gnutls_buffer_st :=
  match _gnutls_ext_get_session_data session (gid extp), pack_func extp with
  | (ret, Some data), Some pack =>
      if 0 <=? ret then
        let packed := BUFFER_APPEND_NUM packed (gid extp) in
        let size_offset := length packed in
        let packed := BUFFER_APPEND_NUM packed 0 in
        let cur_size := Z.of_nat (length packed) in
        let '(ret, packed) := pack data packed in
        if ret <? 0 then (ret, packed)
        else
          (1, _gnutls_write_uint32 (Z.of_nat (length packed) - cur_size)
                size_offset packed)
      else (0, packed)
  | _, _ => (0, packed)
  end.

(** The loop of [_gnutls_ext_pack] over the internal ids [ids]; the result
    carries the counter [n_exts]. *)
Fixpoint ext_pack_loop (session : gnutls_session_t) (ids : list Z)
    (n_exts : Z) (packed : gnutls_buffer_st) : Z * Z * gnutls_buffer_st :=
  match ids with
  | [] => (0, n_exts, packed)
  | i :: ids' =>
      if Z.testbit (used_exts (state session)) i then
        match _gnutls_ext_ptr session i GNUTLS_EXT_ANY with
        | None => ext_pack_loop session ids' n_exts packed
        | Some ext =>
            let '(ret, packed1) := pack_extension session ext packed in
            if ret <? 0 then (ret, n_exts, packed1)
            else
              ext_pack_loop session ids'
                (if 0 <? ret then n_exts + 1 else n_exts) packed1
        end
      else ext_pack_loop session ids' n_exts packed
  end.

(** The internal ids [0 .. GNUTLS_EXTENSION_MAX_VALUE]. *)
Definition internal_ids : list Z := seqZ 0 (GNUTLS_EXTENSION_MAX_VALUE + 1).

Definition _gnutls_ext_pack (session : gnutls_session_t)
    (packed : gnutls_buffer_st) : Z * gnutls_buffer_st :=
  let total_exts_pos := length packed in
  let packed := BUFFER_APPEND_NUM packed 0 in
  let '(ret, n_exts, packed) := ext_pack_loop session internal_ids 0 packed in
  if ret <? 0 then (ret, packed)
  else (0, _gnutls_write_uint32 n_exts total_exts_pos packed).

(** The loop of [_gnutls_ext_unpack], [n] records to go.  [size_for_id] is
    an [int]; the number of bytes read is the difference of two buffer
    lengths.  Where a number cannot be read, the error exit returns the
    result of the failed read, a parsing error (section 7). *)
Fixpoint ext_unpack_loop (n : nat) (session : gnutls_session_t)
    (packed : gnutls_buffer_st)
  : Z * gnutls_session_t * gnutls_buffer_st * list event :=
  match n with
  | O => (0, session, packed, [])
  | S n' =>
      match BUFFER_POP_NUM packed with
      | None => (GNUTLS_E_PARSING_ERROR, session, packed, [])
      | Some (id, packed1) =>
          match BUFFER_POP_NUM packed1 with
          | None => (GNUTLS_E_PARSING_ERROR, session, packed1, [])
          | Some (size, packed2) =>
              let size_for_id := to_int32 size in
              let cur_pos := Z.of_nat (length packed2) in
              match _gnutls_ext_ptr session id GNUTLS_EXT_ANY with
              | None => (GNUTLS_E_PARSING_ERROR, session, packed2, [])
              | Some ext =>
                  match unpack_func ext with
                  | None => (GNUTLS_E_PARSING_ERROR, session, packed2, [])
                  | Some unpack =>
                      let '(ret, data, packed3) := unpack packed2 in
                      if ret <? 0 then (ret, session, packed3, [])
                      else
                        let cur_pos := cur_pos - Z.of_nat (length packed3) in
                        if negb (cur_pos =? size_for_id)
                        then (GNUTLS_E_PARSING_ERROR, session, packed3, [])
                        else
                          let '(session1, tr1) :=
                            _gnutls_ext_set_resumed_session_data
                              session id data in
                          let '(ret, session2, packed4, tr2) :=
                            ext_unpack_loop n' session1 packed3 in
                          (ret, session2, packed4, tr1 ++ tr2)
                  end
              end
          end
      end
  end.

Definition _gnutls_ext_unpack (session : gnutls_session_t)
    (packed : gnutls_buffer_st)
  : Z * gnutls_session_t * gnutls_buffer_st * list event :=
  match BUFFER_POP_NUM packed with
  | None => (GNUTLS_E_PARSING_ERROR, session, packed, [])
  | Some (n, packed1) =>
      let max_exts := to_int32 n in
      ext_unpack_loop (Z.to_nat max_exts) session packed1
  end.

(** ** Registration *)

Definition ext_register (mod' : hello_ext_entry_st)
  : Z * list hello_ext_entry_st :=
  let i := Z.of_nat (length extfunc) in
  if i >=? to_uint32 (Z.of_nat MAX_EXT_TYPES - 1)
  then (GNUTLS_E_INTERNAL_ERROR, extfunc)
  else (GNUTLS_E_SUCCESS, extfunc ++ [mod']).

(** The loop both registrations run over a table: [None] when an entry
    already has the wire id [id], else the candidate internal id, raised
    above the internal id of every entry.  [gid] is an [unsigned]. *)
Fixpoint register_scan (id : Z) (exts : list hello_ext_entry_st) (gid' : Z)
  : option Z :=
  match exts with
  | [] => Some gid'
  | e :: exts' =>
      if tls_id e =? id then None
      else register_scan id exts'
             (if gid e >=? gid' then to_uint32 (gid e + 1) else gid')
  end.

Definition gnutls_ext_register (name' : string) (id : Z)
    (parse_type' : gnutls_ext_parse_type_t)
    (recv_func' : option (session_state -> list byte -> Z * session_state))
    (send_func' : option (session_state -> gnutls_buffer_st
                          -> Z * session_state * gnutls_buffer_st))
    (deinit_func' : bool)
    (pack_func' : option (gnutls_ext_priv_data_t -> gnutls_buffer_st
                          -> Z * gnutls_buffer_st))
    (unpack_func' : option (gnutls_buffer_st
                            -> Z * gnutls_ext_priv_data_t * gnutls_buffer_st))
  : Z * list hello_ext_entry_st :=
  match register_scan id extfunc (GNUTLS_EXTENSION_MAX + 1) with
  | None => (GNUTLS_E_ALREADY_REGISTERED, extfunc)
  | Some gid' =>
      if gid' >? GNUTLS_EXTENSION_MAX_VALUE
      then (GNUTLS_E_MEMORY_ERROR, extfunc)
      else
        ext_register
          (mk_ext (Some name') true (to_uint16 id) gid' parse_type'
             (Z.lor GNUTLS_EXT_FLAG_CLIENT_HELLO
                (Z.lor GNUTLS_EXT_FLAG_TLS12_SERVER_HELLO GNUTLS_EXT_FLAG_EE))
             recv_func' send_func' deinit_func' pack_func' unpack_func'
             false)
  end.

(** The first loop of [gnutls_session_ext_register], over [extfunc]: it
    stops at the entry that has the wire id [id], with [None] when that
    entry may not be overridden and with the candidate reached so far when
    it may. *)
Fixpoint session_register_scan (id flags : Z)
    (exts : list hello_ext_entry_st) (gid' : Z) : option Z :=
  match exts with
  | [] => Some gid'
  | e :: exts' =>
      if tls_id e =? id then
        if Z.land flags GNUTLS_EXT_FLAG_OVERRIDE_INTERNAL =? 0 then None
        else if cannot_be_overriden e then None
        else Some gid'
      else session_register_scan id flags exts'
             (if gid e >=? gid' then to_uint32 (gid e + 1) else gid')
  end.

Definition gnutls_session_ext_register (session : gnutls_session_t)
    (name' : string) (id : Z) (parse_type' : gnutls_ext_parse_type_t)
    (recv_func' : option (session_state -> list byte -> Z * session_state))
    (send_func' : option (session_state -> gnutls_buffer_st
                          -> Z * session_state * gnutls_buffer_st))
    (deinit_func' : bool)
    (pack_func' : option (gnutls_ext_priv_data_t -> gnutls_buffer_st
                          -> Z * gnutls_buffer_st))
    (unpack_func' : option (gnutls_buffer_st
                            -> Z * gnutls_ext_priv_data_t * gnutls_buffer_st))
    (flags : Z)
  : Z * gnutls_session_t :=
  match session_register_scan id flags extfunc (GNUTLS_EXTENSION_MAX + 1) with
  | None => (GNUTLS_E_ALREADY_REGISTERED, session)
  | Some gid1 =>
      match register_scan id (rexts session) gid1 with
      | None => (GNUTLS_E_ALREADY_REGISTERED, session)
      | Some gid' =>
          if gid' >? GNUTLS_EXTENSION_MAX_VALUE
          then (GNUTLS_E_MEMORY_ERROR, session)
          else
            let validity' :=
              if Z.land flags VALIDITY_MASK =? 0
              then Z.lor GNUTLS_EXT_FLAG_CLIENT_HELLO
                     (Z.lor GNUTLS_EXT_FLAG_TLS12_SERVER_HELLO
                        GNUTLS_EXT_FLAG_EE)
              else flags in
            let tmp_mod :=
              mk_ext None true (to_uint16 id) gid' parse_type' validity'
                recv_func' send_func' deinit_func' pack_func' unpack_func'
                false in
            (0, mk_session (state session) (rexts session ++ [tmp_mod]))
      end
  end.

(** [gnutls_ext_set_data] and [gnutls_ext_get_data], the public entries
    keyed by wire id. *)
Definition gnutls_ext_set_data (session : gnutls_session_t) (tls_id' : Z)
    (data : gnutls_ext_priv_data_t) : gnutls_session_t * list event :=
  let id := tls_id_to_gid session tls_id' in
  if id =? 0 then (session, [])
  else _gnutls_ext_set_session_data session id data.

Definition gnutls_ext_get_data (session : gnutls_session_t) (tls_id' : Z)
  : Z * option gnutls_ext_priv_data_t :=
  let id := tls_id_to_gid session tls_id' in
  if id =? 0 then (GNUTLS_E_REQUESTED_DATA_NOT_AVAILABLE, None)
  else _gnutls_ext_get_session_data session id.

End Engine.

(** * Wire formats, for the statements below *)

(** One record of an extension block: wire id, length, body. *)
Definition encode_record (r : Z * list byte) : list byte :=
  uint16_bytes (fst r) ++ uint16_bytes (Z.of_nat (length (snd r))) ++ snd r.

Definition encode_block (recs : list (Z * list byte)) : list byte :=
  concat (map encode_record recs).

(** A record whose wire id and length fit their 16-bit fields. *)
Definition record_fits (r : Z * list byte) : Prop :=
  0 <= fst r < 2 ^ 16 /\ Z.of_nat (length (snd r)) < 2 ^ 16.

(** The descriptors whose receive operation a trace shows invoked. *)
Definition recv_calls (tr : list event) : list hello_ext_entry_st :=
  flat_map (fun ev => match ev with call_recv e _ => [e] | _ => [] end) tr.

(** The descriptors whose send operation a trace shows invoked. *)
Definition send_calls (tr : list event) : list hello_ext_entry_st :=
  flat_map (fun ev => match ev with call_send e => [e] | _ => [] end) tr.

(** The descriptors the handshake log of a trace reports as sent. *)
Definition sent_exts (tr : list event) : list hello_ext_entry_st :=
  flat_map (fun ev => match ev with log_sending e _ => [e] | _ => [] end) tr.

(** * The private-data table, for the statements below *)

(** A session as [gnutls_init] leaves it: every slot zeroed, nothing
    advertised. *)
Definition new_session (MAX_EXT_TYPES : nat) (e : gnutls_entity)
    (overlay : list hello_ext_entry_st) : gnutls_session_t :=
  mk_session (mk_state e 0 (replicate MAX_EXT_TYPES ext_data_zero)) overlay.

(** A slot with neither flag set. *)
Definition slot_free (d : ext_data_st) : bool :=
  negb (ed_set d) && negb (ed_resumed_set d).

(** The slots that hold [id] with the live or the resumed flag set. *)
Definition holders (id : Z) (t : list ext_data_st) : list ext_data_st :=
  List.filter (fun d => (ed_id d =? id) && (ed_set d || ed_resumed_set d)) t.

(** The events of deinitialising the value [p] a slot held under the flag
    [was_set], with the descriptor [ext] the setter looked up. *)
Definition deinit_events (ext : option hello_ext_entry_st) (was_set : bool)
    (p : gnutls_ext_priv_data_t) : list event :=
  if was_set then
    match ext with
    | Some e => if deinit_func e && negb (p =? 0)
                then [call_deinit e p] else []
    | None => []
    end
  else [].

(** The operations on the table that are keyed by internal id. *)
Inductive table_op : Type :=
| op_set_live (id : Z) (p : gnutls_ext_priv_data_t)
| op_set_resumed (id : Z) (p : gnutls_ext_priv_data_t)
| op_unset_live (id : Z).

Definition run_op (MAX_EXT_TYPES : nat) (extfunc : list hello_ext_entry_st)
    (session : gnutls_session_t) (op : table_op) : gnutls_session_t :=
  match op with
  | op_set_live id p =>
      fst (_gnutls_ext_set_session_data MAX_EXT_TYPES extfunc session id p)
  | op_set_resumed id p =>
      fst (_gnutls_ext_set_resumed_session_data MAX_EXT_TYPES extfunc
             session id p)
  | op_unset_live id =>
      fst (_gnutls_ext_unset_session_data MAX_EXT_TYPES extfunc session id)
  end.

Definition run_ops (MAX_EXT_TYPES : nat) (extfunc : list hello_ext_entry_st)
    (session : gnutls_session_t) (ops : list table_op) : gnutls_session_t :=
  fold_left (run_op MAX_EXT_TYPES extfunc) ops session.

(** An operation that stores: one of the two setters. *)
Definition is_setter (op : table_op) : bool :=
  match op with
  | op_unset_live _ => false
  | _ => true
  end.

(** A table without holes: slots in use, with pairwise distinct internal
    ids, followed by zeroed slots. *)
Definition table_packed (t : list ext_data_st) : Prop :=
  exists occ m,
    t = occ ++ replicate m ext_data_zero
    /\ (forall d, In d occ -> slot_free d = false)
    /\ NoDup (map ed_id occ).

(** * Registration, for the statements below *)

(** Internal ids are [unsigned] numbers below the largest one, so that
    the next internal id does not wrap around. *)
Definition gids_in_range (exts : list hello_ext_entry_st) : Prop :=
  forall e, In e exts -> gid e < 2 ^ 32 - 1.

(** The entries of the process-wide table that the first loop of the
    session-level registration reads for the wire id [id]: those that stand
    before the first entry with that wire id, and all of them when no entry
    has it. *)
Fixpoint scanned (id : Z) (exts : list hello_ext_entry_st)
  : list hello_ext_entry_st :=
  match exts with
  | [] => []
  | e :: exts' => if tls_id e =? id then [] else e :: scanned id exts'
  end.

(** * Sending, for the statements below *)

(** The filters of the send callback that only read the descriptor and the
    context: send operation present, parse class, validity mask. *)
Definition send_eligible (ctx : hello_ext_ctx_st) (d : hello_ext_entry_st)
  : bool :=
  match send_func d with Some _ => true | None => false end
  && (parse_type_eqb (ctx_parse_type ctx) GNUTLS_EXT_ANY
      || parse_type_eqb (parse_type d) (ctx_parse_type ctx))
  && negb (Z.land (ctx_msg ctx) (validity d) =? 0).

(** The advertisement rule on the bitset [u]: a server sends what was
    advertised to it, a client what it has not sent yet. *)
Definition advertisement_allows (e : gnutls_entity) (u : Z)
    (d : hello_ext_entry_st) : bool :=
  match e with
  | GNUTLS_SERVER => Z.testbit u (gid d)
  | GNUTLS_CLIENT => negb (Z.testbit u (gid d))
  end.

(** A send operation that returned [ret] and turned the buffer [before]
    into [after] produced output: it appended payload or returned the
    sentinel. *)
Definition produced (ret : Z) (before after : gnutls_buffer_st) : bool :=
  (0 <? Z.of_nat (length after) - Z.of_nat (length before))
  || (ret =? GNUTLS_E_INT_RET_0).









(** * Resumption, for the statements below *)

(** What the pack operation of [d] writes for the private data [p]. *)
Definition pack_output (d : hello_ext_entry_st) (p : gnutls_ext_priv_data_t)
  : list byte :=
  match pack_func d with
  | Some pack => snd (pack p [])
  | None => []
  end.

(** The pack operation of [d] succeeds and appends its output to the
    buffer it is given. *)
Definition pack_appends (d : hello_ext_entry_st) : Prop :=
  forall pack p buf, pack_func d = Some pack ->
    0 <= fst (pack p buf) /\ snd (pack p buf) = buf ++ pack_output d p.

(** The private data the unpack operation of [d] makes of [bytes]. *)
Definition unpack_value (d : hello_ext_entry_st) (bytes : list byte)
  : gnutls_ext_priv_data_t :=
  match unpack_func d with
  | Some unpack => snd (fst (unpack bytes))
  | None => 0
  end.

(** The unpack operation of [d] succeeds on what the pack operation of [d]
    wrote, consumes exactly that, and is not influenced by what follows
    in the buffer. *)
Definition unpack_consumes (d : hello_ext_entry_st) : Prop :=
  forall unpack p rest, unpack_func d = Some unpack ->
    0 <= fst (fst (unpack (pack_output d p ++ rest)))
    /\ snd (fst (unpack (pack_output d p ++ rest)))
       = unpack_value d (pack_output d p)
    /\ snd (unpack (pack_output d p ++ rest)) = rest.

(** The live private data of [id], if set. *)
Definition live_data (MAX_EXT_TYPES : nat) (session : gnutls_session_t)
    (id : Z) : option gnutls_ext_priv_data_t :=
  snd (_gnutls_ext_get_session_data MAX_EXT_TYPES session id).

(** The descriptor the pack walk finds for the internal id [i], when [i] is
    advertised and the descriptor has a pack operation. *)
Definition pack_candidate (extfunc : list hello_ext_entry_st)
    (session : gnutls_session_t) (i : Z) : option hello_ext_entry_st :=
  if Z.testbit (used_exts (state session)) i then
    match _gnutls_ext_ptr extfunc session i GNUTLS_EXT_ANY with
    | Some e => match pack_func e with Some _ => Some e | None => None end
    | None => None
    end
  else None.

(** The internal ids for which the pack walk writes a record: advertised,
    descriptor found, pack operation present, live private data set. *)
Definition packs (MAX_EXT_TYPES : nat) (extfunc : list hello_ext_entry_st)
    (session : gnutls_session_t) (i : Z) : bool :=
  match pack_candidate extfunc session i with
  | Some e =>
      match live_data MAX_EXT_TYPES session (gid e) with
      | Some _ => true
      | None => false
      end
  | None => false
  end.

(** The record of the resumption format for the internal id [i]. *)
Definition packed_record (MAX_EXT_TYPES : nat)
    (extfunc : list hello_ext_entry_st) (session : gnutls_session_t) (i : Z)
  : list byte :=
  match pack_candidate extfunc session i with
  | Some e =>
      match live_data MAX_EXT_TYPES session (gid e) with
      | Some p =>
          uint32_bytes (gid e)
          ++ uint32_bytes (Z.of_nat (length (pack_output e p)))
          ++ pack_output e p
      | None => []
      end
  | None => []
  end.

(** The internal ids the round trip is about: advertised, descriptor found,
    both pack and unpack operation present. *)
Definition resumable (extfunc : list hello_ext_entry_st)
    (session : gnutls_session_t) (i : Z) : bool :=
  match pack_candidate extfunc session i with
  | Some e => match unpack_func e with Some _ => true | None => false end
  | None => false
  end.

(** The private data the round trip leaves for the internal id [i]: the
    unpack operation applied to what the pack operation wrote for the live
    private data of [i]. *)
Definition resumed_value (MAX_EXT_TYPES : nat)
    (extfunc : list hello_ext_entry_st) (session : gnutls_session_t) (i : Z)
  : gnutls_ext_priv_data_t :=
  match pack_candidate extfunc session i with
  | Some e =>
      match live_data MAX_EXT_TYPES session (gid e) with
      | Some p => unpack_value e (pack_output e p)
      | None => 0
      end
  | None => 0
  end.

(** The slot the unpack walk fills for the internal id [i] in a new
    session. *)
Definition resumed_slot (MAX_EXT_TYPES : nat)
    (extfunc : list hello_ext_entry_st) (session : gnutls_session_t) (i : Z)
  : ext_data_st :=
  mk_ext_data i false 0 true (resumed_value MAX_EXT_TYPES extfunc session i).

(** The internal ids of the slots that hold resumed private data. *)
Definition resumed_ids (session : gnutls_session_t) : list Z :=
  map ed_id (List.filter ed_resumed_set (ext_data (state session))).

(** What the round trip needs of the internal id [i]: it fits 32 bits, its
    descriptor packs and unpacks, live private data is set, and the pack
    output is shorter than [2 ^ 31] bytes, the largest size the [int] of
    the unpack walk holds. *)
Definition round_trips (MAX_EXT_TYPES : nat)
    (extfunc : list hello_ext_entry_st) (session : gnutls_session_t) (i : Z)
  : Prop :=
  0 <= i < 2 ^ 32
  /\ exists e unpack p,
      pack_candidate extfunc session i = Some e
      /\ unpack_func e = Some unpack
      /\ live_data MAX_EXT_TYPES session (gid e) = Some p
      /\ unpack_consumes e
      /\ Z.of_nat (length (pack_output e p)) < 2 ^ 31.

(** * The table after deinitialisation, for the statements below *)

(** The table the loops [for (i = 0; extfunc[i] != NULL; i++)] read in an
    array of cells: the entries before the first [NULL]. *)
Fixpoint table_until_null (cells : list (option hello_ext_entry_st))
  : list hello_ext_entry_st :=
  match cells with
  | Some e :: cells' => e :: table_until_null cells'
  | _ => []
  end.

(** The arguments of a call of [gnutls_ext_register]. *)
Record ext_registration : Type := mk_registration {
  reg_name : string;
  reg_id : Z;
  reg_parse_type : gnutls_ext_parse_type_t;
  reg_recv : option (session_state -> list byte -> Z * session_state);
  reg_send : option (session_state -> gnutls_buffer_st
                     -> Z * session_state * gnutls_buffer_st);
  reg_deinit : bool;
  reg_pack : option (gnutls_ext_priv_data_t -> gnutls_buffer_st
                     -> Z * gnutls_buffer_st);
  reg_unpack : option (gnutls_buffer_st
                       -> Z * gnutls_ext_priv_data_t * gnutls_buffer_st)
}.

(** The process-wide table after the calls [regs] of [gnutls_ext_register],
    in order; a call that fails leaves the table as it was. *)
Definition register_all (MAX_EXT_TYPES : nat)
    (GNUTLS_EXTENSION_MAX GNUTLS_EXTENSION_MAX_VALUE : Z)
    (regs : list ext_registration) (extfunc : list hello_ext_entry_st)
  : list hello_ext_entry_st :=
  fold_left
    (fun t r =>
       snd (gnutls_ext_register MAX_EXT_TYPES GNUTLS_EXTENSION_MAX
              GNUTLS_EXTENSION_MAX_VALUE t (reg_name r) (reg_id r)
              (reg_parse_type r) (reg_recv r) (reg_send r) (reg_deinit r)
              (reg_pack r) (reg_unpack r)))
    regs extfunc.

(** A slot of the table is available to the setters for [id]: it holds
    [id] or has neither flag set. *)
Definition slot_available (id : Z) (t : list ext_data_st) : Prop :=
  exists d, In d t /\ (ed_id d = id \/ slot_free d = true).

(** What [_gnutls_ext_free_session_data] hands to the deinitialisation
    function for the slot [d]: the live value, then the resumed value, with
    the descriptor of the internal id of the slot. *)
Definition slot_deinit_events (extfunc : list hello_ext_entry_st)
    (session : gnutls_session_t) (d : ext_data_st) : list event :=
  let ext := _gnutls_ext_ptr extfunc session (ed_id d) GNUTLS_EXT_ANY in
  deinit_events ext (ed_set d) (ed_priv d)
  ++ deinit_events ext (ed_resumed_set d) (ed_resumed_priv d).

(** * Receiving, for the statements below *)

(** The receive operation of [d] accepts what it is given and leaves the
    role and the advertisement bitset of the session alone. *)
Definition recv_accepts (d : hello_ext_entry_st) : Prop :=
  forall recv st data, recv_func d = Some recv ->
    0 <= fst (recv st data)
    /\ entity (snd (recv st data)) = entity st
    /\ used_exts (snd (recv st data)) = used_exts st.

(** The descriptor a record is dispatched to in a pass for the parse class
    [pt]: the one of the internal id its wire id resolves to. *)
Definition dispatched (extfunc : list hello_ext_entry_st)
    (session : gnutls_session_t) (pt : gnutls_ext_parse_type_t)
    (r : Z * list byte) : option hello_ext_entry_st :=
  _gnutls_ext_ptr extfunc session (tls_id_to_gid extfunc session (fst r)) pt.

(** The calls of receive operations for the records [recs], in order, each
    with the descriptor the record is dispatched to and the body of the
    record. *)
Definition recv_events (extfunc : list hello_ext_entry_st)
    (session : gnutls_session_t) (pt : gnutls_ext_parse_type_t)
    (recs : list (Z * list byte)) : list event :=
  flat_map
    (fun r => match dispatched extfunc session pt r with
              | Some d => [call_recv d (snd r)]
              | None => []
              end)
    recs.

(** The bitset [u] with the bits of the internal ids [gids] set. *)
Definition received (u : Z) (gids : list Z) : Z :=
  fold_left (fun u g => Z.lor u (Z.shiftl 1 g)) gids u.

(** * Filling the private-data table, for the statements below *)

(** The number of slots with a flag set. *)
Definition used_slots (t : list ext_data_st) : nat :=
  length (List.filter (fun d => negb (slot_free d)) t).

(** The session after live values were stored for the pairs
    (internal id, value) of [vals], in order. *)
Definition store_all (MAX_EXT_TYPES : nat) (extfunc : list hello_ext_entry_st)
    (vals : list (Z * gnutls_ext_priv_data_t)) (session : gnutls_session_t)
  : gnutls_session_t :=
  fold_left
    (fun s v =>
       fst (_gnutls_ext_set_session_data MAX_EXT_TYPES extfunc s (fst v)
              (snd v)))
    vals session.

(** * A build and sample descriptors *)

(** The constants of a build with 32 slots and internal ids up to 31, of
    which those up to 18 belong to compiled-in extensions. *)
Definition sample_MAX_EXT_TYPES : nat := 32.
Definition sample_EXTENSION_MAX : Z := 18.
Definition sample_EXTENSION_MAX_VALUE : Z := 31.
Definition sample_UNSOLICITED : Z := GNUTLS_E_RECEIVED_ILLEGAL_EXTENSION.
Definition sample_MALFORMED : Z := -9.

(** Operations for sample descriptors: a receive operation that accepts, a
    send operation that appends a payload and one that has nothing to
    send, and a pack and an unpack operation for private data that is a
    32-bit number. *)
Definition recv_accept (st : session_state) (data : list byte)
  : Z * session_state := (0, st).

Definition send_payload (payload : list byte) (st : session_state)
    (buf : gnutls_buffer_st) : Z * session_state * gnutls_buffer_st :=
  (Z.of_nat (length payload), st, buf ++ payload).

Definition send_declines (st : session_state) (buf : gnutls_buffer_st)
  : Z * session_state * gnutls_buffer_st := (0, st, buf).

Definition pack_number (p : gnutls_ext_priv_data_t) (buf : gnutls_buffer_st)
  : Z * gnutls_buffer_st := (0, buf ++ uint32_bytes p).

Definition unpack_number (buf : gnutls_buffer_st)
  : Z * gnutls_ext_priv_data_t * gnutls_buffer_st :=
  match BUFFER_POP_NUM buf with
  | Some (v, rest) => (0, v, rest)
  | None => (GNUTLS_E_PARSING_ERROR, 0, buf)
  end.

Definition hello_flags : Z :=
  Z.lor GNUTLS_EXT_FLAG_CLIENT_HELLO
    (Z.lor GNUTLS_EXT_FLAG_TLS12_SERVER_HELLO GNUTLS_EXT_FLAG_TLS13_SERVER_HELLO).

(** A compiled-in descriptor for the wire id 43 (supported versions), valid
    in the hello messages of both sides. *)
Definition sample_supported_versions : hello_ext_entry_st :=
  mk_ext (Some "Supported Versions"%string) false 43 3 GNUTLS_EXT_TLS_EARLY
    hello_flags (Some recv_accept) (Some (send_payload [x03; x04]))
    false None None true.

(** A compiled-in descriptor for the wire id 1 that is valid in the client
    hello only and keeps a 32-bit number for resumption. *)
Definition sample_max_record : hello_ext_entry_st :=
  mk_ext (Some "Maximum Record Size"%string) false 1 5 GNUTLS_EXT_TLS_EARLY
    GNUTLS_EXT_FLAG_CLIENT_HELLO (Some recv_accept)
    (Some (send_payload [x02])) true (Some pack_number) (Some unpack_number)
    false.

(** A compiled-in descriptor for the wire id 16 (ALPN) that may be
    overridden. *)
Definition sample_alpn : hello_ext_entry_st :=
  mk_ext (Some "ALPN"%string) false 16 17 GNUTLS_EXT_APPLICATION
    hello_flags (Some recv_accept)
    (Some (send_payload [x00; x03; x02; x68; x32])) true
    (Some pack_number) (Some unpack_number) false.

(** A compiled-in descriptor for the wire id 35 whose send operation has
    nothing to send, and one for the wire id 13 that packs private data but
    has no unpack operation. *)
Definition sample_session_ticket : hello_ext_entry_st :=
  mk_ext (Some "Session Ticket"%string) false 35 11 GNUTLS_EXT_TLS_EARLY
    hello_flags (Some recv_accept) (Some send_declines) false None None
    false.

Definition sample_pack_only : hello_ext_entry_st :=
  mk_ext (Some "Signature Algorithms"%string) false 13 14
    GNUTLS_EXT_TLS_EARLY hello_flags (Some recv_accept) None false
    (Some pack_number) None false.

Definition sample_extfunc : list hello_ext_entry_st :=
  [sample_max_record; sample_supported_versions; sample_session_ticket;
   sample_alpn].

(** A new client and a new server session of the build, without overlay. *)
Definition sample_client : gnutls_session_t :=
  new_session sample_MAX_EXT_TYPES GNUTLS_CLIENT [].

Definition sample_server : gnutls_session_t :=
  new_session sample_MAX_EXT_TYPES GNUTLS_SERVER [].

(** The client after a session-level registration for the wire id 16 with
    the override flag: the overlay then holds a descriptor for the wire id
    of the compiled-in [sample_alpn]. *)
Definition sample_client_override : gnutls_session_t :=
  snd (gnutls_session_ext_register sample_EXTENSION_MAX
         sample_EXTENSION_MAX_VALUE sample_extfunc sample_client
         "alpn override"%string 16 GNUTLS_EXT_APPLICATION
         (Some recv_accept) (Some (send_payload [x00; x03; x02; x68; x33]))
         false None None
         (Z.lor GNUTLS_EXT_FLAG_OVERRIDE_INTERNAL GNUTLS_EXT_FLAG_CLIENT_HELLO)).

(** The client after a session-level registration for the wire id 100,
    which no compiled-in descriptor carries. *)
Definition sample_client_custom : gnutls_session_t :=
  snd (gnutls_session_ext_register sample_EXTENSION_MAX
         sample_EXTENSION_MAX_VALUE sample_extfunc sample_client
         "custom"%string 100 GNUTLS_EXT_ANY
         (Some recv_accept) (Some (send_payload [x2a])) false None None 0).

(** The overlay descriptor that registration makes. *)
Definition sample_custom : hello_ext_entry_st :=
  mk_ext None true 100 19 GNUTLS_EXT_ANY
    (Z.lor GNUTLS_EXT_FLAG_CLIENT_HELLO
       (Z.lor GNUTLS_EXT_FLAG_TLS12_SERVER_HELLO GNUTLS_EXT_FLAG_EE))
    (Some recv_accept) (Some (send_payload [x2a])) false None None false.

(** The process-wide table after a process-wide registration for the wire
    id 200. *)
Definition sample_extfunc_registered : list hello_ext_entry_st :=
  snd (gnutls_ext_register sample_MAX_EXT_TYPES sample_EXTENSION_MAX
         sample_EXTENSION_MAX_VALUE sample_extfunc "global"%string 200
         GNUTLS_EXT_ANY (Some recv_accept) None false None None).

(** The client after it emitted its client hello extensions. *)
Definition sample_client_sent : gnutls_session_t :=
  snd (fst (fst (_gnutls_gen_extensions sample_UNSOLICITED sample_extfunc
                   sample_client [] GNUTLS_EXT_FLAG_CLIENT_HELLO
                   GNUTLS_EXT_ANY))).

Definition sample_client_custom_sent : gnutls_session_t :=
  snd (fst (fst (_gnutls_gen_extensions sample_UNSOLICITED sample_extfunc
                   sample_client_custom [] GNUTLS_EXT_FLAG_CLIENT_HELLO
                   GNUTLS_EXT_ANY))).

(** The client after it stored live private data for the two descriptors
    with a pack operation that it sent (wire ids 1 and 16). *)
Definition sample_client_live : gnutls_session_t :=
  fst (gnutls_ext_set_data sample_MAX_EXT_TYPES sample_extfunc
         (fst (gnutls_ext_set_data sample_MAX_EXT_TYPES sample_extfunc
                 sample_client_sent 1 4096))
         16 7).

(** The server after it parsed a client hello with the wire id 1. *)
Definition sample_server_parsed : gnutls_session_t :=
  snd (fst (_gnutls_parse_extensions sample_UNSOLICITED sample_MALFORMED
              sample_extfunc sample_server GNUTLS_EXT_FLAG_CLIENT_HELLO
              GNUTLS_EXT_ANY (encode_block [(1, [x02])]))).

(** A process-wide table with a descriptor that packs but does not unpack,
    and a server that parsed its wire id 13 and stored live private data
    for it. *)
Definition sample_extfunc_pack_only : list hello_ext_entry_st :=
  [sample_max_record; sample_pack_only].

Definition sample_server_pack_only : gnutls_session_t :=
  fst (gnutls_ext_set_data sample_MAX_EXT_TYPES sample_extfunc_pack_only
         (snd (fst (_gnutls_parse_extensions sample_UNSOLICITED
                      sample_MALFORMED sample_extfunc_pack_only sample_server
                      GNUTLS_EXT_FLAG_CLIENT_HELLO GNUTLS_EXT_ANY
                      (encode_block [(13, [x04; x01])]))))
         13 77).

(** A server of the same build that parsed the wire ids 1 and 13 and
    stored live private data for both: the descriptor of the first packs
    and unpacks, that of the second packs only. *)
Definition sample_server_mixed : gnutls_session_t :=
  fst (gnutls_ext_set_data sample_MAX_EXT_TYPES sample_extfunc_pack_only
         (fst (gnutls_ext_set_data sample_MAX_EXT_TYPES
                 sample_extfunc_pack_only
                 (snd (fst (_gnutls_parse_extensions sample_UNSOLICITED
                              sample_MALFORMED sample_extfunc_pack_only
                              sample_server GNUTLS_EXT_FLAG_CLIENT_HELLO
                              GNUTLS_EXT_ANY
                              (encode_block [(1, [x02]); (13, [x04; x01])]))))
                 1 4096))
         13 77).

(** Operations on the table of a new session after which two slots hold
    the internal id 5. *)
Definition sample_ops_duplicate : list table_op :=
  [op_set_live 7 100; op_set_live 5 200; op_unset_live 7; op_set_live 5 300].

(** Operations after which every slot of the table is in use and none
    holds the internal id 29. *)
Definition sample_ops_full : list table_op :=
  map (fun i => op_set_live i (100 + i)) (seqZ 1 31)
  ++ [op_unset_live 30; op_set_live 31 1; op_set_live 30 2;
      op_unset_live 29; op_set_live 31 3].

Definition sample_session_duplicate : gnutls_session_t :=
  run_ops sample_MAX_EXT_TYPES sample_extfunc sample_client
    sample_ops_duplicate.

Definition sample_session_full : gnutls_session_t :=
  run_ops sample_MAX_EXT_TYPES sample_extfunc sample_client sample_ops_full.

(** A pack operation that fails, a descriptor for the wire id 21 that has
    it, and a client that sent the wire ids 1 and 21 and stored live
    private data for both. *)
Definition pack_fails (p : gnutls_ext_priv_data_t) (buf : gnutls_buffer_st)
  : Z * gnutls_buffer_st := (GNUTLS_E_MEMORY_ERROR, buf).

Definition sample_failing : hello_ext_entry_st :=
  mk_ext (Some "Failing"%string) false 21 7 GNUTLS_EXT_TLS_EARLY
    hello_flags (Some recv_accept) (Some (send_payload [x00])) false
    (Some pack_fails) (Some unpack_number) false.

Definition sample_extfunc_failing : list hello_ext_entry_st :=
  [sample_max_record; sample_failing].

Definition sample_client_failing : gnutls_session_t :=
  fst (gnutls_ext_set_data sample_MAX_EXT_TYPES sample_extfunc_failing
         (fst (gnutls_ext_set_data sample_MAX_EXT_TYPES sample_extfunc_failing
                 (snd (fst (fst (_gnutls_gen_extensions sample_UNSOLICITED
                                   sample_extfunc_failing sample_client []
                                   GNUTLS_EXT_FLAG_CLIENT_HELLO
                                   GNUTLS_EXT_ANY))))
                 1 4096))
         21 9).




(** A send operation that fails, and a process-wide table in which the
    descriptor that has it stands between two descriptors that send. *)
Definition send_fails (st : session_state) (buf : gnutls_buffer_st)
  : Z * session_state * gnutls_buffer_st := (GNUTLS_E_MEMORY_ERROR, st, buf).

Definition sample_send_fails : hello_ext_entry_st :=
  mk_ext (Some "Send Fails"%string) false 22 8 GNUTLS_EXT_TLS_EARLY
    hello_flags (Some recv_accept) (Some send_fails) false None None false.

Definition sample_extfunc_send_fails : list hello_ext_entry_st :=
  [sample_max_record; sample_send_fails; sample_alpn].

(** * Properties *)

(** ** Bytes and big-endian fields *)

Lemma Z_of_byte_of_Z (z : Z) : Z_of_byte (byte_of_Z z) = z mod 256.
Proof.
  unfold Z_of_byte, byte_of_Z.
  assert (Hr : 0 <= z mod 256 < 256) by (apply Z.mod_pos_bound; lia).
  destruct (Byte.of_N (Z.to_N (z mod 256))) as [b|] eqn:E.
  - apply Byte.to_of_N in E. rewrite E. lia.
  - apply Byte.of_N_None_iff in E. lia.
Qed.

Lemma Z_of_byte_range (b : byte) : 0 <= Z_of_byte b < 256.
Proof.
  unfold Z_of_byte. pose proof (Byte.to_N_bounded b). lia.
Qed.

Lemma length_uint32_bytes (v : Z) : length (uint32_bytes v) = 4%nat.
Proof. reflexivity. Qed.

Lemma length_uint16_bytes (v : Z) : length (uint16_bytes v) = 2%nat.
Proof. reflexivity. Qed.

Lemma read_uint32_bytes (v : Z) :
  read_uint32 (byte_of_Z (v / 2 ^ 24)) (byte_of_Z (v / 2 ^ 16))
    (byte_of_Z (v / 2 ^ 8)) (byte_of_Z v) = v mod 2 ^ 32.
Proof.
  unfold read_uint32. rewrite !Z_of_byte_of_Z.
  change (2 ^ 24) with 16777216. change (2 ^ 16) with 65536.
  change (2 ^ 8) with 256. change (2 ^ 32) with 4294967296.
  pose proof (Z.div_mod v 4294967296 ltac:(lia)) as H0.
  pose proof (Z.mod_pos_bound v 4294967296 ltac:(lia)) as B0.
  set (r := v mod 4294967296) in *.
  set (q := v / 4294967296) in *.
  assert (E24 : v / 16777216 = q * 256 + r / 16777216).
  { rewrite H0. replace (4294967296 * q + r) with (r + q * 256 * 16777216) by lia.
    rewrite Z.div_add by lia. lia. }
  assert (E16 : v / 65536 = q * 65536 + r / 65536).
  { rewrite H0. replace (4294967296 * q + r) with (r + q * 65536 * 65536) by lia.
    rewrite Z.div_add by lia. lia. }
  assert (E8 : v / 256 = q * 16777216 + r / 256).
  { rewrite H0. replace (4294967296 * q + r) with (r + q * 16777216 * 256) by lia.
    rewrite Z.div_add by lia. lia. }
  assert (E0 : v mod 256 = r mod 256).
  { rewrite H0. replace (4294967296 * q + r) with (r + q * 16777216 * 256) by lia.
    apply Z.mod_add. lia. }
  rewrite E24, E16, E8, E0.
  rewrite (Z.add_comm (q * 256)), Z.mod_add by lia.
  replace (q * 65536 + r / 65536) with (r / 65536 + q * 256 * 256) by lia.
  rewrite Z.mod_add by lia.
  replace (q * 16777216 + r / 256) with (r / 256 + q * 65536 * 256) by lia.
  rewrite Z.mod_add by lia.
  assert (r / 16777216 < 256) by (apply Z.div_lt_upper_bound; lia).
  assert (0 <= r / 16777216) by (apply Z.div_pos; lia).
  rewrite (Z.mod_small (r / 16777216)) by lia.
  pose proof (Z.div_mod r 16777216 ltac:(lia)).
  pose proof (Z.mod_pos_bound r 16777216 ltac:(lia)).
  pose proof (Z.div_mod (r / 65536) 256 ltac:(lia)).
  pose proof (Z.mod_pos_bound (r / 65536) 256 ltac:(lia)).
  pose proof (Z.div_mod (r / 256) 256 ltac:(lia)).
  pose proof (Z.mod_pos_bound (r / 256) 256 ltac:(lia)).
  pose proof (Z.div_mod r 256 ltac:(lia)).
  pose proof (Z.mod_pos_bound r 256 ltac:(lia)).
  pose proof (Z.div_mod r 65536 ltac:(lia)).
  pose proof (Z.mod_pos_bound r 65536 ltac:(lia)).
  assert (r / 65536 / 256 = r / 16777216)
    by (rewrite Z.div_div by lia; reflexivity).
  assert (r / 256 / 256 = r / 65536)
    by (rewrite Z.div_div by lia; reflexivity).
  lia.
Qed.

Lemma BUFFER_POP_NUM_append (b : gnutls_buffer_st) (v : Z) :
  BUFFER_POP_NUM (uint32_bytes v ++ b) = Some (v mod 2 ^ 32, b).
Proof.
  unfold uint32_bytes. simpl. rewrite read_uint32_bytes. reflexivity.
Qed.

Lemma write_bytes_app (a old new b : list byte) :
  length old = length new ->
  write_bytes new (length a) (a ++ old ++ b) = a ++ new ++ b.
Proof.
  intros Hlen. unfold write_bytes.
  replace (length a) with (length a + 0)%nat by lia.
  rewrite list_inserts_app_r. f_equal.
  apply list_inserts_0_r. symmetry. exact Hlen.
Qed.

Lemma write_uint32_app (a b : list byte) (v w : Z) :
  _gnutls_write_uint32 v (length a) (a ++ uint32_bytes w ++ b)
  = a ++ uint32_bytes v ++ b.
Proof. apply write_bytes_app. reflexivity. Qed.


Lemma to_int32_small (z : Z) : - 2 ^ 31 <= z < 2 ^ 31 -> to_int32 z = z.
Proof.
  intros H. unfold to_int32. rewrite Z.mod_small; lia.
Qed.

Lemma to_int32_eq_mod (a b : Z) :
  0 <= a < 2 ^ 31 -> (to_int32 (b mod 2 ^ 32) = a <-> b mod 2 ^ 32 = a).
Proof.
  intros Ha. unfold to_int32.
  pose proof (Z.mod_pos_bound b (2 ^ 32) ltac:(lia)) as Hb.
  set (m := b mod 2 ^ 32) in *.
  destruct (Z_lt_dec m (2 ^ 31)).
  - rewrite Z.mod_small by lia. lia.
  - replace (m + 2 ^ 31) with ((m - 2 ^ 31) + 1 * 2 ^ 32) by lia.
    rewrite Z.mod_add by lia. rewrite Z.mod_small by lia. lia.
Qed.

Lemma read_uint16_bytes (v : Z) :
  0 <= v < 2 ^ 16 ->
  read_uint16 (byte_of_Z (v / 2 ^ 8)) (byte_of_Z v) = v.
Proof.
  intros Hv. unfold read_uint16. rewrite !Z_of_byte_of_Z.
  change (2 ^ 8) with 256 in *. change (2 ^ 16) with 65536 in *.
  assert (0 <= v / 256 < 256).
  { split; [apply Z.div_pos; lia | apply Z.div_lt_upper_bound; lia]. }
  rewrite (Z.mod_small (v / 256)) by lia.
  pose proof (Z.div_mod v 256 ltac:(lia)). lia.
Qed.

(** ** Catalog lookup and parsing *)

Section Dispatch.

Variable UNSOLICITED_EXTENSION : Z.
Variable MALFORMED_EXTENSION_BLOCK : Z.
Variable extfunc : list hello_ext_entry_st.

Hypothesis UNSOLICITED_EXTENSION_negative : UNSOLICITED_EXTENSION < 0.

Local Abbreviation parse := (hello_ext_parse UNSOLICITED_EXTENSION extfunc).
Local Abbreviation to_gid := (tls_id_to_gid extfunc).
Local Abbreviation ext_ptr := (_gnutls_ext_ptr extfunc).
Local Abbreviation list_check := (_gnutls_extension_list_check UNSOLICITED_EXTENSION).

Lemma list_check_set (st : session_state) (id : Z) :
  Z.testbit (used_exts st) id = true -> list_check st id = 0.
Proof. intros H. unfold _gnutls_extension_list_check. now rewrite H. Qed.

Lemma list_check_unset (st : session_state) (id : Z) :
  Z.testbit (used_exts st) id = false ->
  list_check st id = UNSOLICITED_EXTENSION.
Proof. intros H. unfold _gnutls_extension_list_check. now rewrite H. Qed.

(** A wire id no descriptor of either tier carries is skipped: the
    "idempotent skip" of the spec, for one record. *)
Lemma hello_ext_parse_unknown ctx w data session :
  to_gid session w = 0 -> parse ctx w data session = (0, session, []).
Proof.
  intros H. unfold hello_ext_parse. rewrite H. reflexivity.
Qed.

Lemma hello_ext_parse_client_unsolicited ctx w data session :
  entity (state session) = GNUTLS_CLIENT ->
  to_gid session w <> 0 ->
  Z.testbit (used_exts (state session)) (to_gid session w) = false ->
  parse ctx w data session = (UNSOLICITED_EXTENSION, session, []).
Proof.
  intros Hc Hid Hbit. unfold hello_ext_parse.
  destruct (Z.eqb_spec (to_gid session w) 0) as [E|_]; [contradiction|].
  unfold is_client. rewrite Hc.
  rewrite (list_check_unset _ _ Hbit).
  destruct (Z.ltb_spec UNSOLICITED_EXTENSION 0); [reflexivity | lia].
Qed.

(** The framing layer on a block that starts with a well-formed record. *)
Lemma extv_parse_records_step fuel cb r rest session :
  record_fits r ->
  extv_parse_records MALFORMED_EXTENSION_BLOCK (S fuel) cb
    (encode_record r ++ rest) session
  = let '(ret, session1, tr1) := cb (fst r) (snd r) session in
    if ret <? 0 then (ret, session1, tr1)
    else
      let '(ret, session2, tr2) :=
        extv_parse_records MALFORMED_EXTENSION_BLOCK fuel cb rest session1 in
      (ret, session2, tr1 ++ tr2).
Proof.
  intros [Hw Hl]. destruct r as [w body]. simpl in Hw, Hl.
  unfold encode_record. simpl fst. simpl snd.
  unfold uint16_bytes at 1 2. cbn [app extv_parse_records].
  rewrite !read_uint16_bytes by lia.
  rewrite Nat2Z.id.
  assert (E : (length (body ++ rest) <? length body)%nat = false).
  { apply Nat.ltb_ge. rewrite length_app. lia. }
  rewrite E.
  rewrite take_app_length, drop_app_length. reflexivity.
Qed.

(** The walk does not depend on the fuel once there is at least as much
    of it as there are bytes in the block: every record takes four bytes or
    more, so the fuel [_gnutls_extv_parse] starts with never runs out. *)
Lemma extv_parse_records_fuel cb :
  forall fuel1 fuel2 data session,
  (length data <= fuel1)%nat -> (length data <= fuel2)%nat ->
  extv_parse_records MALFORMED_EXTENSION_BLOCK fuel1 cb data session
  = extv_parse_records MALFORMED_EXTENSION_BLOCK fuel2 cb data session.
Proof.
  induction fuel1 as [|fuel1 IH]; intros fuel2 data session H1 H2.
  - destruct data; [|simpl in H1; lia]. now destruct fuel2.
  - destruct data as [|t1 [|t0 [|l1 [|l0 rest]]]];
      try (destruct fuel2; reflexivity).
    destruct fuel2 as [|fuel2]; [simpl in H2; lia|].
    cbn [extv_parse_records].
    destruct (length rest <? Z.to_nat (read_uint16 l1 l0))%nat;
      [reflexivity|].
    destruct (cb (read_uint16 t1 t0) _ session) as [[ret s1] tr1].
    destruct (ret <? 0); [reflexivity|].
    rewrite (IH fuel2); [reflexivity| |];
      rewrite length_drop; simpl in H1, H2; lia.
Qed.

Lemma extv_parse_records_nil fuel cb session :
  extv_parse_records MALFORMED_EXTENSION_BLOCK fuel cb [] session
  = (0, session, []).
Proof. destruct fuel; reflexivity. Qed.

(** On a client that advertised nothing, a block of well-formed records
    fails as soon as one of them carries a known wire id; no receive
    operation runs and the session is left as it was. *)
Lemma extv_parse_client_nothing_advertised ctx recs session :
  entity (state session) = GNUTLS_CLIENT ->
  used_exts (state session) = 0 ->
  Forall record_fits recs ->
  Exists (fun r => to_gid session (fst r) <> 0) recs ->
  forall fuel, (length recs <= fuel)%nat ->
  extv_parse_records MALFORMED_EXTENSION_BLOCK fuel (parse ctx)
    (encode_block recs) session
  = (UNSOLICITED_EXTENSION, session, []).
Proof.
  intros Hc Hu Hfit. induction Hfit as [|r recs Hr Hfit IH]; intros Hex fuel Hfuel.
  - inversion Hex.
  - destruct fuel as [|fuel]; [simpl in Hfuel; lia|].
    unfold encode_block. cbn [map concat]. fold (encode_block recs).
    rewrite (extv_parse_records_step _ _ _ _ _ Hr).
    destruct (Z.eq_dec (to_gid session (fst r)) 0) as [E|E].
    + rewrite (hello_ext_parse_unknown _ _ _ _ E).
      change (0 <? 0) with false. cbv iota.
      rewrite IH.
      * reflexivity.
      * inversion Hex; subst; [contradiction | assumption].
      * simpl in Hfuel. lia.
    + rewrite hello_ext_parse_client_unsolicited.
      * destruct (Z.ltb_spec UNSOLICITED_EXTENSION 0); [reflexivity | lia].
      * exact Hc.
      * exact E.
      * rewrite Hu. apply Z.testbit_0_l.
Qed.

Lemma length_encode_block recs :
  (length recs <= length (encode_block recs))%nat.
Proof.
  induction recs as [|r recs IH]; [simpl; lia|].
  change (encode_block (r :: recs)) with (encode_record r ++ encode_block recs).
  rewrite length_app. unfold encode_record.
  rewrite !length_app, !length_uint16_bytes. cbn [length]. lia.
Qed.

Lemma encode_block_app recs1 recs2 :
  encode_block (recs1 ++ recs2) = encode_block recs1 ++ encode_block recs2.
Proof. unfold encode_block. now rewrite map_app, concat_app. Qed.

(** The walk over a block that starts with well-formed records is the walk
    over those records followed by the walk over the rest. *)
Lemma extv_parse_records_app cb pre rest :
  Forall record_fits pre ->
  forall fuel session,
  extv_parse_records MALFORMED_EXTENSION_BLOCK (length pre + fuel) cb
    (encode_block pre ++ rest) session
  = let '(ret1, session1, tr1) :=
      extv_parse_records MALFORMED_EXTENSION_BLOCK (length pre) cb
        (encode_block pre) session in
    if ret1 <? 0 then (ret1, session1, tr1)
    else
      let '(ret2, session2, tr2) :=
        extv_parse_records MALFORMED_EXTENSION_BLOCK fuel cb rest session1 in
      (ret2, session2, tr1 ++ tr2).
Proof.
  intros Hfit. induction Hfit as [|r pre Hr Hfit IH]; intros fuel session.
  - cbn [length encode_block map concat app Nat.add extv_parse_records].
    change (0 <? 0) with false. cbv iota.
    now destruct (extv_parse_records _ fuel cb rest session) as [[? ?] ?].
  - change (encode_block (r :: pre)) with (encode_record r ++ encode_block pre).
    rewrite <- app_assoc. cbn [length Nat.add].
    rewrite (extv_parse_records_step (length pre + fuel) cb r
               (encode_block pre ++ rest) session Hr).
    rewrite (extv_parse_records_step (length pre) cb r
               (encode_block pre) session Hr).
    destruct (cb (fst r) (snd r) session) as [[ret s1] tr1].
    destruct (ret <? 0) eqn:Hret.
    + now rewrite Hret.
    + rewrite IH.
      destruct (extv_parse_records _ (length pre) cb (encode_block pre) s1)
        as [[ret1 s2] tr2].
      destruct (ret1 <? 0); [reflexivity|].
      destruct (extv_parse_records _ fuel cb rest s2) as [[ret3 s3] tr3].
      now rewrite app_assoc.
Qed.

(** The same at the level of a block: when the records before it were
    parsed without error, a record with a known wire id whose internal id
    the client did not advertise ends the parse as unsolicited, with the
    session and the trace as the records before it left them. *)
Lemma parse_extensions_unsolicited_record msg pc pre r post session
    ret1 session1 tr1 :
  Forall record_fits pre -> record_fits r ->
  extv_parse_records MALFORMED_EXTENSION_BLOCK (length pre)
    (parse (mk_ctx msg pc)) (encode_block pre) session
  = (ret1, session1, tr1) ->
  0 <= ret1 ->
  entity (state session1) = GNUTLS_CLIENT ->
  to_gid session1 (fst r) <> 0 ->
  Z.testbit (used_exts (state session1)) (to_gid session1 (fst r)) = false ->
  _gnutls_parse_extensions UNSOLICITED_EXTENSION MALFORMED_EXTENSION_BLOCK
    extfunc session msg pc (encode_block (pre ++ r :: post))
  = (UNSOLICITED_EXTENSION, session1, tr1).
Proof.
  intros Hpre Hr Hrun Hret Hc Hid Hbit.
  unfold _gnutls_parse_extensions, _gnutls_extv_parse.
  set (data := encode_block (pre ++ r :: post)).
  rewrite (extv_parse_records_fuel _ (length data)
             (length pre + S (length data))) by lia.
  subst data. rewrite encode_block_app.
  rewrite (extv_parse_records_app _ _ _ Hpre), Hrun.
  destruct (Z.ltb_spec ret1 0) as [|_]; [lia|].
  change (encode_block (r :: post)) with (encode_record r ++ encode_block post).
  rewrite (extv_parse_records_step _ _ _ _ _ Hr).
  rewrite (hello_ext_parse_client_unsolicited _ _ _ _ Hc Hid Hbit).
  assert (E : (UNSOLICITED_EXTENSION <? 0) = true) by (apply Z.ltb_lt; lia).
  rewrite !E. now rewrite app_nil_r.
Qed.

(** C2: on a client-side session, a record whose wire id resolves to a
    known internal id that is not set in the advertisement bitset makes the
    parse fail with the unsolicited-extension error; no receive operation is
    invoked and the session is unchanged.  In particular, a client whose
    advertisement bitset is empty fails on every well-formed block that
    contains a known extension. *)
Theorem hello_ext_parse_unsolicited ctx msg pc w data recs session :
  entity (state session) = GNUTLS_CLIENT ->
  (to_gid session w <> 0 ->
   Z.testbit (used_exts (state session)) (to_gid session w) = false ->
   parse ctx w data session = (UNSOLICITED_EXTENSION, session, []))
  /\ (used_exts (state session) = 0 ->
      Forall record_fits recs ->
      Exists (fun r => to_gid session (fst r) <> 0) recs ->
      _gnutls_parse_extensions UNSOLICITED_EXTENSION
        MALFORMED_EXTENSION_BLOCK extfunc session msg pc (encode_block recs)
      = (UNSOLICITED_EXTENSION, session, [])).
Proof.
  intros Hc. split.
  - intros Hid Hbit. now apply hello_ext_parse_client_unsolicited.
  - intros Hu Hfit Hex.
    unfold _gnutls_parse_extensions, _gnutls_extv_parse.
    rewrite (extv_parse_client_nothing_advertised _ recs session Hc Hu Hfit Hex)
      by apply length_encode_block.
    destruct (Z.ltb_spec UNSOLICITED_EXTENSION 0); [reflexivity | lia].
Qed.

(** C3: for a record whose descriptor is found (parse-class filter
    satisfied, receive operation present), when the message tag is not in
    the validity mask of the descriptor the parse fails, the receive
    operation is not invoked and the session is unchanged; the error is
    [GNUTLS_E_RECEIVED_ILLEGAL_EXTENSION] whenever the record got past the
    client-side advertisement check (on a server, or with the id
    advertised). *)
Theorem hello_ext_parse_illegal_for_message ctx w data session ext recv :
  to_gid session w <> 0 ->
  ext_ptr session (to_gid session w) (ctx_parse_type ctx) = Some ext ->
  recv_func ext = Some recv ->
  Z.land (validity ext) (ctx_msg ctx) = 0 ->
  exists ret,
    parse ctx w data session = (ret, session, [])
    /\ ret < 0
    /\ (entity (state session) = GNUTLS_SERVER
        \/ Z.testbit (used_exts (state session)) (to_gid session w) = true ->
        ret = GNUTLS_E_RECEIVED_ILLEGAL_EXTENSION).
Proof.
  intros Hid Hptr Hrecv Hval. unfold hello_ext_parse.
  destruct (Z.eqb_spec (to_gid session w) 0) as [E|_]; [contradiction|].
  unfold is_client.
  destruct (entity (state session)) eqn:Hent.
  - (* server *)
    change (0 <? 0) with false. cbv iota.
    rewrite Hptr, Hrecv, Hval. change (0 =? 0) with true. cbv iota.
    eexists. split; [reflexivity|]. split; [reflexivity|]. intros _. reflexivity.
  - (* client *)
    unfold _gnutls_extension_list_check.
    destruct (Z.testbit (used_exts (state session)) (to_gid session w)) eqn:Hbit.
    + change (0 <? 0) with false. cbv iota.
      rewrite Hptr, Hrecv, Hval. change (0 =? 0) with true. cbv iota.
      eexists. split; [reflexivity|]. split; [reflexivity|]. intros _. reflexivity.
    + destruct (Z.ltb_spec UNSOLICITED_EXTENSION 0) as [Hneg|]; [|lia].
      eexists. split; [reflexivity|]. split; [assumption|].
      intros [Hs|Hs]; discriminate.
Qed.

Lemma find_none_tls_id (exts : list hello_ext_entry_st) (w : Z) :
  (forall b, In b exts -> tls_id b <> w) ->
  List.find (fun e => tls_id e =? w) exts = None.
Proof.
  intros H. induction exts as [|e exts IH]; [reflexivity|].
  simpl. destruct (Z.eqb_spec (tls_id e) w) as [E|_].
  - exfalso. apply (H e); [now left | exact E].
  - apply IH. intros b Hb. apply H. now right.
Qed.

(** C10: the name lookup reads the process-wide table only (it has no
    session argument).  For a wire id that only an overlay descriptor [o]
    of the session carries it returns no name, while the session resolves
    the wire id to [o]: a parsed record with that wire id runs the receive
    operation of [o] (when [o] passes the checks of the parse callback: on
    a client its internal id was advertised, on a server it was not
    received before), and the send callback on [o] runs its send operation
    (when [o] passes the checks of the send callback: on a server its
    internal id was received, on a client it was not sent before). *)
Theorem ext_get_name_ignores_overlay ctx w data buf session o :
  (forall b, In b extfunc -> tls_id b <> w) ->
  List.find (fun e => tls_id e =? w) (rexts session) = Some o ->
  gnutls_ext_get_name extfunc w = None
  /\ to_gid session w = gid o
  /\ (gid o <> 0 ->
      ext_ptr session (gid o) (ctx_parse_type ctx) = Some o ->
      is_Some (recv_func o) ->
      Z.land (validity o) (ctx_msg ctx) <> 0 ->
      Z.testbit (used_exts (state session)) (gid o)
        = is_client (state session) ->
      recv_calls (snd (parse ctx w data session)) = [o])
  /\ (is_Some (send_func o) ->
      ctx_parse_type ctx = GNUTLS_EXT_ANY ->
      Z.land (ctx_msg ctx) (validity o) <> 0 ->
      Z.testbit (used_exts (state session)) (gid o)
        = is_server (state session) ->
      send_calls
        (snd (hello_ext_send UNSOLICITED_EXTENSION ctx o session buf)) = [o]).
Proof.
  intros Hbuiltin Hfind.
  assert (Hgid : to_gid session w = gid o).
  { unfold tls_id_to_gid. now rewrite Hfind. }
  split; [|split; [exact Hgid|split]].
  - unfold gnutls_ext_get_name. now rewrite find_none_tls_id.
  - intros Hnz Hptr [recv Hrecv] Hval Hbit.
    unfold hello_ext_parse. rewrite Hgid.
    destruct (Z.eqb_spec (gid o) 0) as [E|_]; [contradiction|].
    unfold _gnutls_extension_list_add, _gnutls_extension_list_check.
    unfold is_server, is_client in *.
    destruct (entity (state session)); rewrite ?Hbit;
      change (0 <? 0) with false; cbv iota;
      rewrite Hptr, Hrecv, ?Hbit;
      (destruct (Z.eqb_spec (Z.land (validity o) (ctx_msg ctx)) 0) as [E|_];
       [contradiction|]).
    + destruct (Z.eqb_spec UNSOLICITED_EXTENSION 0) as [E|_]; [lia|].
      cbn [andb]. change (1 =? 0) with false. cbv iota.
      match goal with |- context [recv ?st data] =>
        destruct (recv st data) as [ret st'] end.
      destruct (ret <? 0); reflexivity.
    + change (1 =? 0) with false. cbv iota.
      match goal with |- context [recv ?st data] =>
        destruct (recv st data) as [ret st'] end.
      destruct (ret <? 0); reflexivity.
  - intros [send Hsend] Hpc Hval Hbit.
    unfold hello_ext_send. rewrite Hsend, Hpc.
    cbn [parse_type_eqb negb andb].
    destruct (Z.eqb_spec (Z.land (ctx_msg ctx) (validity o)) 0) as [E|_];
      [contradiction|].
    unfold _gnutls_extension_list_check.
    unfold is_server in *.
    destruct (entity (state session)); rewrite Hbit.
    + change (0 <? 0) with false. cbv iota.
      destruct (send (state session) buf) as [[ret st] buf'].
      destruct ((ret <? 0) && negb (ret =? GNUTLS_E_INT_RET_0)); reflexivity.
    + destruct (Z.eqb_spec UNSOLICITED_EXTENSION 0) as [E|_]; [lia|].
      destruct (send (state session) buf) as [[ret st] buf'].
      destruct ((ret <? 0) && negb (ret =? GNUTLS_E_INT_RET_0)); reflexivity.
Qed.

End Dispatch.

(** ** Records the parser skips, and records a server has seen *)

Section ParseMore.

Variable UNSOLICITED_EXTENSION : Z.
Variable MALFORMED_EXTENSION_BLOCK : Z.
Variable extfunc : list hello_ext_entry_st.

Hypothesis UNSOLICITED_EXTENSION_negative : UNSOLICITED_EXTENSION < 0.

Local Abbreviation parse := (hello_ext_parse UNSOLICITED_EXTENSION extfunc).
Local Abbreviation to_gid := (tls_id_to_gid extfunc).
Local Abbreviation ext_ptr := (_gnutls_ext_ptr extfunc).

Lemma extv_parse_records_unknown ctx recs session :
  Forall record_fits recs ->
  (forall r, In r recs -> to_gid session (fst r) = 0) ->
  forall fuel, (length recs <= fuel)%nat ->
  extv_parse_records MALFORMED_EXTENSION_BLOCK fuel (parse ctx)
    (encode_block recs) session
  = (0, session, []).
Proof.
  intros Hfit. induction Hfit as [|r recs Hr Hfit IH]; intros Hun fuel Hfuel.
  - apply extv_parse_records_nil.
  - destruct fuel as [|fuel]; [simpl in Hfuel; lia|].
    change (encode_block (r :: recs)) with (encode_record r ++ encode_block recs).
    rewrite (extv_parse_records_step _ _ _ _ _ _ Hr).
    rewrite (hello_ext_parse_unknown _ _ _ _ _ _ (Hun r (or_introl eq_refl))).
    change (0 <? 0) with false. cbv iota.
    rewrite IH; [reflexivity| |simpl in Hfuel; lia].
    intros x Hx. apply Hun. now right.
Qed.

(** X18: unknown extensions are ignored.  A block of well-formed records
    whose wire ids all resolve to the internal id [0], as every wire id does
    that no descriptor of the overlay or of the process-wide table carries,
    is parsed with result [0], for a client and for a server: no receive
    operation is invoked and the session is left as it was. *)
Theorem parse_extensions_skips_unknown session msg pt recs :
  Forall record_fits recs ->
  (forall r, In r recs -> to_gid session (fst r) = 0) ->
  _gnutls_parse_extensions UNSOLICITED_EXTENSION MALFORMED_EXTENSION_BLOCK
    extfunc session msg pt (encode_block recs)
  = (0, session, []).
Proof.
  intros Hfit Hun. unfold _gnutls_parse_extensions, _gnutls_extv_parse.
  rewrite (extv_parse_records_unknown _ _ _ Hfit Hun)
    by apply length_encode_block.
  reflexivity.
Qed.

Lemma ext_ptr_found_gid session id pt e :
  ext_ptr session id pt = Some e -> gid e = id.
Proof.
  unfold _gnutls_ext_ptr. intros H.
  destruct (List.find (fun x => gid x =? id) (rexts session)) as [o|] eqn:Ho.
  - apply find_some in Ho as [_ Ho]. apply Z.eqb_eq in Ho.
    destruct (_ || _); [|discriminate]. now injection H as <-.
  - destruct (List.find (fun x => gid x =? id) extfunc) as [b|] eqn:Hb;
      [|discriminate].
    apply find_some in Hb as [_ Hb]. apply Z.eqb_eq in Hb.
    destruct (_ || _); [|discriminate]. now injection H as <-.
Qed.

(** X19: a server takes each extension once.  On a server-side session,
    for a record whose descriptor is found with a receive operation and is
    valid for the message: when the internal id is already set in the
    advertisement bitset the record is refused with
    [GNUTLS_E_RECEIVED_ILLEGAL_EXTENSION], the receive operation is not
    invoked and the session is left as it was; when it is not set, the bit
    is set before the receive operation runs, the receive operation runs
    once on the body of the record, and its result is returned if negative
    and [0] otherwise. *)
Theorem hello_ext_parse_server_once ctx w data session ext recv :
  entity (state session) = GNUTLS_SERVER ->
  to_gid session w <> 0 ->
  ext_ptr session (to_gid session w) (ctx_parse_type ctx) = Some ext ->
  recv_func ext = Some recv ->
  Z.land (validity ext) (ctx_msg ctx) <> 0 ->
  (Z.testbit (used_exts (state session)) (to_gid session w) = true ->
   parse ctx w data session
   = (GNUTLS_E_RECEIVED_ILLEGAL_EXTENSION, session, []))
  /\ (Z.testbit (used_exts (state session)) (to_gid session w) = false ->
      let st := set_used_exts (state session)
                  (Z.lor (used_exts (state session))
                     (Z.shiftl 1 (to_gid session w))) in
      parse ctx w data session
      = (if fst (recv st data) <? 0 then fst (recv st data) else 0,
         set_state session (snd (recv st data)), [call_recv ext data])).
Proof.
  intros Hs Hid Hptr Hrecv Hval.
  pose proof (ext_ptr_found_gid _ _ _ _ Hptr) as Hgid.
  unfold hello_ext_parse.
  destruct (Z.eqb_spec (to_gid session w) 0) as [|_]; [contradiction|].
  unfold is_client, is_server. rewrite Hs. change (0 <? 0) with false.
  cbv iota. rewrite Hptr, Hrecv.
  destruct (Z.eqb_spec (Z.land (validity ext) (ctx_msg ctx)) 0) as [|_];
    [contradiction|].
  unfold _gnutls_extension_list_add, _gnutls_extension_list_check.
  rewrite Hgid. split.
  - intros Hbit. rewrite Hbit. reflexivity.
  - intros Hbit. rewrite Hbit.
    destruct (Z.eqb_spec UNSOLICITED_EXTENSION 0) as [E|_]; [lia|].
    cbn [andb]. change (1 =? 0) with false. cbv iota.
    destruct (recv _ data) as [ret st']. cbn [fst snd].
    now destruct (ret <? 0).
Qed.

End ParseMore.

(** ** The private-data table *)

Lemma first_index_Some {A : Type} (f : A -> bool) (l : list A) (i : nat) :
  first_index f l = Some i <->
  exists x, l !! i = Some x /\ f x = true
            /\ forall j y, (j < i)%nat -> l !! j = Some y -> f y = false.
Proof.
  revert i. induction l as [|a l IH]; intros i; simpl.
  - split; [discriminate | intros (x & H & _); discriminate].
  - destruct (f a) eqn:Fa.
    + split.
      * intros [= <-]. exists a. repeat split; [assumption|]. intros j y Hj. lia.
      * intros (x & Hx & Fx & Hlt). destruct i as [|i]; [reflexivity|].
        exfalso. specialize (Hlt O a ltac:(lia) eq_refl). congruence.
    + destruct (first_index f l) as [k|] eqn:E; simpl.
      * split.
        -- intros [= <-]. destruct (proj1 (IH k) eq_refl) as (x & Hx & Fx & Hlt).
           exists x. repeat split; [assumption..|].
           intros [|j] y Hj Hy; simpl in Hy; [congruence|].
           apply (Hlt j); [lia | assumption].
        -- intros (x & Hx & Fx & Hlt). destruct i as [|i]; simpl in Hx.
           ++ congruence.
           ++ f_equal. assert (Hi : Some k = Some i); [|congruence].
              apply IH. exists x. repeat split; [assumption..|].
              intros j y Hj Hy. apply (Hlt (S j)); [lia | assumption].
      * split; [discriminate|].
        intros (x & Hx & Fx & Hlt). destruct i as [|i]; simpl in Hx.
        -- congruence.
        -- assert (Hi : None = Some i); [|discriminate].
           apply IH. exists x. repeat split; [assumption..|].
           intros j y Hj Hy. apply (Hlt (S j)); [lia | assumption].
Qed.

Lemma first_index_None {A : Type} (f : A -> bool) (l : list A) :
  first_index f l = None <-> forall y, In y l -> f y = false.
Proof.
  induction l as [|a l IH]; simpl.
  - split; [intros _ y [] | reflexivity].
  - destruct (f a) eqn:Fa.
    + split; [discriminate|]. intros H. specialize (H a (or_introl eq_refl)).
      congruence.
    + destruct (first_index f l) as [k|]; simpl.
      * split; [discriminate|]. intros H.
        assert (Some k = None); [|discriminate].
        apply IH. intros y Hy. apply H. now right.
      * split; [|reflexivity]. intros _ y [<-|Hy]; [assumption|].
        now apply (proj1 IH).
Qed.

Section Table.

Variable MAX_EXT_TYPES : nat.
Variable extfunc : list hello_ext_entry_st.

Local Abbreviation ext_ptr := (_gnutls_ext_ptr extfunc).
Local Abbreviation set_live := (_gnutls_ext_set_session_data MAX_EXT_TYPES extfunc).
Local Abbreviation set_resumed :=
  (_gnutls_ext_set_resumed_session_data MAX_EXT_TYPES extfunc).

Lemma slots_full (session : gnutls_session_t) :
  length (ext_data (state session)) = MAX_EXT_TYPES ->
  slots MAX_EXT_TYPES session = ext_data (state session).
Proof. intros H. unfold slots. apply take_ge. lia. Qed.

Lemma update_slot_twice session i a b :
  update_slot (update_slot session i a) i b = update_slot session i b.
Proof.
  unfold update_slot, set_state, set_ext_data. simpl.
  now rewrite list_insert_insert_eq.
Qed.

Lemma update_slot_lookup session i d a :
  ext_data (state session) !! i = Some d ->
  ext_data (state (update_slot session i a)) !! i = Some a.
Proof.
  intros H. unfold update_slot. simpl.
  apply list_lookup_insert_eq. now apply lookup_lt_Some in H.
Qed.

(** Both setters store into the first slot that holds [id] or is free, and
    deinitialise what that slot held under the flag they set. *)
Lemma set_session_data_first session id data i d :
  first_index (slot_for id) (slots MAX_EXT_TYPES session) = Some i ->
  ext_data (state session) !! i = Some d ->
  set_live session id data
  = (update_slot session i
       (mk_ext_data id true data (ed_resumed_set d) (ed_resumed_priv d)),
     deinit_events (ext_ptr session id GNUTLS_EXT_ANY) (ed_set d) (ed_priv d)).
Proof.
  intros Hfirst Hd. unfold _gnutls_ext_set_session_data.
  rewrite Hfirst, Hd. unfold deinit_events.
  destruct (ed_set d) eqn:Hset.
  - unfold unset_ext_data. rewrite Hd, Hset. cbn [negb].
    erewrite update_slot_lookup by eassumption.
    rewrite update_slot_twice. reflexivity.
  - rewrite Hd. reflexivity.
Qed.

Lemma set_resumed_session_data_first session id data i d :
  first_index (slot_for id) (slots MAX_EXT_TYPES session) = Some i ->
  ext_data (state session) !! i = Some d ->
  set_resumed session id data
  = (update_slot session i
       (mk_ext_data id (ed_set d) (ed_priv d) true data),
     deinit_events (ext_ptr session id GNUTLS_EXT_ANY)
       (ed_resumed_set d) (ed_resumed_priv d)).
Proof.
  intros Hfirst Hd. unfold _gnutls_ext_set_resumed_session_data.
  rewrite Hfirst, Hd. unfold deinit_events.
  destruct (ed_resumed_set d) eqn:Hset.
  - unfold unset_resumed_ext_data. rewrite Hd, Hset. cbn [negb].
    erewrite update_slot_lookup by eassumption.
    rewrite update_slot_twice. reflexivity.
  - rewrite Hd. reflexivity.
Qed.

Lemma set_session_data_none session id data :
  first_index (slot_for id) (slots MAX_EXT_TYPES session) = None ->
  set_live session id data = (session, [])
  /\ set_resumed session id data = (session, []).
Proof.
  intros H. unfold _gnutls_ext_set_session_data,
    _gnutls_ext_set_resumed_session_data. now rewrite H.
Qed.

Lemma slot_for_spec id d :
  slot_for id d = false <-> ed_id d <> id /\ slot_free d = false.
Proof.
  unfold slot_for, slot_free.
  destruct (Z.eqb_spec (ed_id d) id); destruct (negb (ed_set d) && negb (ed_resumed_set d));
    simpl; intuition congruence.
Qed.

(** C7, as the code has it: with the table at its full size, the setter for
    the live value (and, symmetrically, the one for the resumed value)
    stores into the slot whose id equals [id] when no free slot comes before
    it, deinitialising the value it held under the same flag first; when no
    slot holds [id] it stores into the first slot with neither flag set;
    and when no slot holds [id] and none is free it stores nothing, invokes
    nothing and returns normally: the setters return [void], no error is
    reported. *)
Theorem set_session_data_slot session id data :
  length (ext_data (state session)) = MAX_EXT_TYPES ->
  let t := ext_data (state session) in
  let ext := ext_ptr session id GNUTLS_EXT_ANY in
  (forall i d,
      t !! i = Some d -> ed_id d = id ->
      (forall j y, (j < i)%nat -> t !! j = Some y ->
                   ed_id y <> id /\ slot_free y = false) ->
      set_live session id data
      = (update_slot session i
           (mk_ext_data id true data (ed_resumed_set d) (ed_resumed_priv d)),
         deinit_events ext (ed_set d) (ed_priv d))
      /\ set_resumed session id data
         = (update_slot session i
              (mk_ext_data id (ed_set d) (ed_priv d) true data),
            deinit_events ext (ed_resumed_set d) (ed_resumed_priv d)))
  /\ (forall i d,
      (forall y, In y t -> ed_id y <> id) ->
      t !! i = Some d -> slot_free d = true ->
      (forall j y, (j < i)%nat -> t !! j = Some y -> slot_free y = false) ->
      set_live session id data
      = (update_slot session i
           (mk_ext_data id true data false (ed_resumed_priv d)), [])
      /\ set_resumed session id data
         = (update_slot session i
              (mk_ext_data id false (ed_priv d) true data), []))
  /\ ((forall y, In y t -> ed_id y <> id /\ slot_free y = false) ->
      set_live session id data = (session, [])
      /\ set_resumed session id data = (session, [])).
Proof.
  intros Hlen t ext. subst t ext.
  pose proof (slots_full session Hlen) as Hslots.
  split; [|split].
  - intros i d Hd Hid Hbefore.
    assert (Hfirst : first_index (slot_for id) (slots MAX_EXT_TYPES session) = Some i).
    { rewrite Hslots. apply first_index_Some. exists d.
      repeat split; [assumption| |].
      - unfold slot_for. rewrite Hid, Z.eqb_refl. reflexivity.
      - intros j y Hj Hy. apply slot_for_spec. now apply (Hbefore j). }
    split.
    + now apply set_session_data_first.
    + now apply set_resumed_session_data_first.
  - intros i d Hnone Hd Hfree Hbefore.
    assert (Hfirst : first_index (slot_for id) (slots MAX_EXT_TYPES session) = Some i).
    { rewrite Hslots. apply first_index_Some. exists d.
      repeat split; [assumption| |].
      - unfold slot_for. unfold slot_free in Hfree. rewrite Hfree.
        apply orb_true_r.
      - intros j y Hj Hy. apply slot_for_spec. split.
        + apply Hnone. apply list_elem_of_In, list_elem_of_lookup. eauto.
        + now apply (Hbefore j). }
    unfold slot_free in Hfree. apply andb_true_iff in Hfree as [Hs Hr].
    apply negb_true_iff in Hs, Hr.
    split.
    + rewrite (set_session_data_first _ _ _ _ _ Hfirst Hd).
      rewrite Hs, Hr. reflexivity.
    + rewrite (set_resumed_session_data_first _ _ _ _ _ Hfirst Hd).
      rewrite Hs, Hr. reflexivity.
  - intros Hnone. apply set_session_data_none.
    rewrite Hslots. apply first_index_None. intros y Hy.
    apply slot_for_spec. now apply Hnone.
Qed.

(** *** Without an operation that clears, a slot per internal id *)

Lemma holders_packed t id :
  table_packed t -> (length (holders id t) <= 1)%nat.
Proof.
  intros (occ & m & -> & _ & Hnd). unfold holders.
  rewrite List.filter_app, length_app.
  assert (Hz : List.filter
                 (fun d => (ed_id d =? id) && (ed_set d || ed_resumed_set d))
                 (replicate m ext_data_zero) = []).
  { induction m as [|m IHm]; [reflexivity|].
    simpl. rewrite andb_false_r. exact IHm. }
  rewrite Hz. simpl. rewrite Nat.add_0_r. clear Hz m.
  induction occ as [|a occ IH]; [simpl; lia|].
  simpl in Hnd. apply NoDup_cons in Hnd as [Ha Hnd].
  simpl. destruct (Z.eqb_spec (ed_id a) id) as [E|_]; simpl.
  - assert (Hnone : List.filter
                      (fun d => (ed_id d =? id)
                                && (ed_set d || ed_resumed_set d)) occ = []).
    { clear IH Hnd. induction occ as [|b occ IHb]; [reflexivity|].
      simpl. destruct (Z.eqb_spec (ed_id b) id) as [Eb|_].
      - exfalso. apply Ha. simpl. rewrite E, <- Eb. left.
      - simpl. apply IHb. intros Hin. apply Ha. simpl. now right. }
    rewrite Hnone. destruct (ed_set a || ed_resumed_set a); simpl; lia.
  - now apply IH.
Qed.

(** Storing into the slot the setters choose keeps the table without
    holes. *)
Lemma table_packed_store t id i d d' :
  table_packed t ->
  first_index (slot_for id) t = Some i ->
  t !! i = Some d ->
  ed_id d' = id -> slot_free d' = false ->
  table_packed (<[i := d']> t).
Proof.
  intros (occ & m & -> & Hocc & Hnd) Hfirst Hd Hid Hfree.
  apply first_index_Some in Hfirst as (x & Hx & Hsel & Hmin).
  rewrite Hd in Hx. injection Hx as <-.
  destruct (Nat.lt_ge_cases i (length occ)) as [Hi|Hi].
  - (* the slot is in use: it holds [id] *)
    rewrite lookup_app_l in Hd by assumption.
    assert (Hin : In d occ).
    { apply list_elem_of_In, list_elem_of_lookup. eauto. }
    assert (Hdid : ed_id d = id).
    { unfold slot_for in Hsel. specialize (Hocc d Hin).
      unfold slot_free in Hocc. rewrite Hocc, orb_false_r in Hsel.
      now apply Z.eqb_eq. }
    exists (<[i := d']> occ), m. split; [|split].
    + now rewrite insert_app_l.
    + intros y Hy. apply list_elem_of_In, list_elem_of_lookup in Hy as [j Hj].
      destruct (Nat.eq_dec i j) as [<-|Hne].
      * rewrite list_lookup_insert_eq in Hj by assumption.
        now injection Hj as <-.
      * rewrite list_lookup_insert_ne in Hj by assumption.
        apply Hocc. apply list_elem_of_In, list_elem_of_lookup. eauto.
    + rewrite list_fmap_insert. rewrite list_insert_id; [assumption|].
      rewrite list_lookup_fmap, Hd. simpl. congruence.
  - (* the slot is the first zeroed one *)
    assert (Hm : (i - length occ < m)%nat).
    { rewrite lookup_app_r in Hd by assumption.
      apply lookup_lt_Some in Hd. now rewrite length_replicate in Hd. }
    assert (Hi' : i = length occ).
    { destruct (Nat.eq_dec i (length occ)) as [|Hne]; [assumption|].
      exfalso.
      assert (Hz : (occ ++ replicate m ext_data_zero) !! length occ
                   = Some ext_data_zero).
      { rewrite lookup_app_r by lia. rewrite Nat.sub_diag.
        destruct m; [lia | reflexivity]. }
      specialize (Hmin (length occ) ext_data_zero ltac:(lia) Hz).
      unfold slot_for in Hmin. simpl in Hmin.
      rewrite orb_true_r in Hmin. discriminate. }
    subst i. destruct m as [|m]; [lia|].
    exists (occ ++ [d']), m. split; [|split].
    + cbn [replicate]. rewrite insert_app_r_alt by lia.
      rewrite Nat.sub_diag. simpl. now rewrite <- app_assoc.
    + intros y Hy. apply in_app_or in Hy as [Hy|[<-|[]]];
        [now apply Hocc | assumption].
    + rewrite map_app. simpl. apply NoDup_app. split; [assumption|].
      split; [|apply NoDup_singleton].
      intros g Hg Hg'. apply list_elem_of_singleton in Hg'. subst g.
      apply list_elem_of_In, in_map_iff in Hg as (y & Hy & Hin).
      apply list_elem_of_In, list_elem_of_lookup in Hin as [j Hj].
      assert (Hlt : (j < length occ)%nat) by (now apply lookup_lt_Some in Hj).
      specialize (Hmin j y Hlt).
      rewrite lookup_app_l in Hmin by assumption. specialize (Hmin Hj).
      apply slot_for_spec in Hmin as [Hne _]. congruence.
Qed.

Lemma run_op_setter_packed session op :
  is_setter op = true ->
  length (ext_data (state session)) = MAX_EXT_TYPES ->
  table_packed (ext_data (state session)) ->
  length (ext_data (state (run_op MAX_EXT_TYPES extfunc session op)))
  = MAX_EXT_TYPES
  /\ table_packed
       (ext_data (state (run_op MAX_EXT_TYPES extfunc session op))).
Proof.
  intros Hop Hlen Hpacked.
  pose proof (slots_full session Hlen) as Hslots.
  destruct op as [id p|id p|id]; [| |discriminate]; cbn [run_op].
  - destruct (first_index (slot_for id) (slots MAX_EXT_TYPES session))
      as [i|] eqn:Hfirst.
    + assert (Hi : is_Some (ext_data (state session) !! i)).
      { rewrite Hslots in Hfirst.
        apply first_index_Some in Hfirst as (x & Hx & _). eauto. }
      destruct Hi as [d Hd].
      rewrite (set_session_data_first _ _ _ _ _ Hfirst Hd). simpl. split.
      * now rewrite length_insert.
      * rewrite Hslots in Hfirst.
        eapply table_packed_store; eauto.
    + destruct (set_session_data_none _ id p Hfirst) as [-> _]. auto.
  - destruct (first_index (slot_for id) (slots MAX_EXT_TYPES session))
      as [i|] eqn:Hfirst.
    + assert (Hi : is_Some (ext_data (state session) !! i)).
      { rewrite Hslots in Hfirst.
        apply first_index_Some in Hfirst as (x & Hx & _). eauto. }
      destruct Hi as [d Hd].
      rewrite (set_resumed_session_data_first _ _ _ _ _ Hfirst Hd). simpl.
      split.
      * now rewrite length_insert.
      * rewrite Hslots in Hfirst.
        eapply table_packed_store; eauto.
        unfold slot_free. simpl. apply andb_false_r.
    + destruct (set_session_data_none _ id p Hfirst) as [_ ->]. auto.
Qed.

(** The invariant of the spec holds as long as nothing is cleared: after
    any sequence of the two setters on a new session, at most one slot
    holds a given internal id with a flag set. *)
Lemma setters_keep_one_slot_per_id e overlay ops id :
  forallb is_setter ops = true ->
  (length
     (holders id
        (ext_data
           (state (run_ops MAX_EXT_TYPES extfunc
                     (new_session MAX_EXT_TYPES e overlay) ops)))) <= 1)%nat.
Proof.
  intros Hops. apply holders_packed.
  assert (Hnew : length (ext_data (state (new_session MAX_EXT_TYPES e overlay)))
                 = MAX_EXT_TYPES
                 /\ table_packed
                      (ext_data (state (new_session MAX_EXT_TYPES e overlay)))).
  { split; [apply length_replicate|].
    exists [], MAX_EXT_TYPES. split; [reflexivity|].
    split; [intros d [] | constructor]. }
  revert Hnew. generalize (new_session MAX_EXT_TYPES e overlay).
  unfold run_ops.
  induction ops as [|op ops IH]; intros s [Hlen Hpacked]; [exact Hpacked|].
  simpl in Hops. apply andb_true_iff in Hops as [Hop Hops].
  simpl. apply IH; [assumption|].
  now apply run_op_setter_packed.
Qed.

End Table.

(** ** Reading the private-data table back *)

Lemma find_insert_first {A : Type} (f : A -> bool) (l : list A) (i : nat)
    (d d' : A) :
  l !! i = Some d -> f d' = true ->
  (forall j y, (j < i)%nat -> l !! j = Some y -> f y = false) ->
  List.find f (<[i := d']> l) = Some d'.
Proof.
  revert i. induction l as [|a l IH]; intros i Hi Hd Hlt; [discriminate|].
  destruct i as [|i]; cbn.
  - now rewrite Hd.
  - rewrite (Hlt O a ltac:(lia) eq_refl). apply IH; [exact Hi | assumption|].
    intros j y Hj Hy. apply (Hlt (S j)); [lia | exact Hy].
Qed.

Lemma first_index_insert_first {A : Type} (f : A -> bool) (l : list A)
    (i : nat) (d d' : A) :
  l !! i = Some d -> f d' = true ->
  (forall j y, (j < i)%nat -> l !! j = Some y -> f y = false) ->
  first_index f (<[i := d']> l) = Some i.
Proof.
  revert i. induction l as [|a l IH]; intros i Hi Hd Hlt; [discriminate|].
  destruct i as [|i]; cbn.
  - now rewrite Hd.
  - rewrite (Hlt O a ltac:(lia) eq_refl).
    assert (E : first_index f (<[i := d']> l) = Some i).
    { apply IH; [exact Hi | assumption|].
      intros j y Hj Hy. apply (Hlt (S j)); [lia | exact Hy]. }
    change (option_map S (first_index f (<[i := d']> l)) = Some (S i)).
    now rewrite E.
Qed.

(** Replacing an element by one the search treats alike does not change
    what the search reads. *)
Lemma find_insert_keep {A B : Type} (f : A -> bool) (g : A -> B)
    (l : list A) (i : nat) (d d' : A) :
  l !! i = Some d -> f d' = f d -> (f d = true -> g d' = g d) ->
  option_map g (List.find f (<[i := d']> l)) = option_map g (List.find f l).
Proof.
  revert i. induction l as [|a l IH]; intros i Hi Hf Hg; [discriminate|].
  destruct i as [|i]; cbn in *.
  - injection Hi as ->. rewrite Hf. destruct (f d); simpl; [|reflexivity].
    f_equal. now apply Hg.
  - destruct (f a); [reflexivity|]. now apply IH.
Qed.

Lemma find_all_none {A : Type} (f : A -> bool) (l : list A) :
  (forall y, In y l -> f y = false) -> List.find f l = None.
Proof.
  induction l as [|a l IH]; intros H; [reflexivity|].
  simpl. rewrite (H a (or_introl eq_refl)). apply IH.
  intros y Hy. apply H. now right.
Qed.

Lemma slot_free_clear (d : ext_data_st) :
  slot_free d = true ->
  mk_ext_data (ed_id d) false (ed_priv d) false (ed_resumed_priv d) = d.
Proof.
  destruct d as [i s p rs rp]. unfold slot_free. simpl.
  destruct s, rs; simpl; intros H; try discriminate. reflexivity.
Qed.

Lemma slot_available_existsb id t :
  slot_available id t
  <-> existsb (fun d => (ed_id d =? id) || slot_free d) t = true.
Proof.
  unfold slot_available. rewrite existsb_exists. split.
  - intros (d & Hin & [Hd|Hd]); exists d; split; try assumption.
    + apply orb_true_iff. left. now apply Z.eqb_eq.
    + apply orb_true_iff. now right.
  - intros (d & Hin & Hd). exists d. split; [assumption|].
    apply orb_true_iff in Hd as [Hd|Hd]; [left; now apply Z.eqb_eq | now right].
Qed.

Section TableAccess.

Variable MAX_EXT_TYPES : nat.
Variable extfunc : list hello_ext_entry_st.

Local Abbreviation ext_ptr := (_gnutls_ext_ptr extfunc).
Local Abbreviation set_live := (_gnutls_ext_set_session_data MAX_EXT_TYPES extfunc).
Local Abbreviation set_resumed :=
  (_gnutls_ext_set_resumed_session_data MAX_EXT_TYPES extfunc).
Local Abbreviation unset_live :=
  (_gnutls_ext_unset_session_data MAX_EXT_TYPES extfunc).
Local Abbreviation get_live := (_gnutls_ext_get_session_data MAX_EXT_TYPES).
Local Abbreviation get_resumed :=
  (_gnutls_ext_get_resumed_session_data MAX_EXT_TYPES).
Local Abbreviation free_all :=
  (_gnutls_ext_free_session_data MAX_EXT_TYPES extfunc).
Local Abbreviation live_at id := (fun d => ed_set d && (ed_id d =? id)).
Local Abbreviation resumed_at id :=
  (fun d => ed_resumed_set d && (ed_id d =? id)).

Lemma slots_update session i d :
  slots MAX_EXT_TYPES (update_slot session i d)
  = <[i := d]> (slots MAX_EXT_TYPES session).
Proof.
  unfold slots, update_slot. simpl. rewrite take_insert.
  destruct (decide (i < MAX_EXT_TYPES)%nat) as [|Hge]; [reflexivity|].
  symmetry. apply list_insert_ge. rewrite length_take. lia.
Qed.

Lemma ext_ptr_update session i d id pt :
  ext_ptr (update_slot session i d) id pt = ext_ptr session id pt.
Proof. reflexivity. Qed.

Lemma first_index_slots (f : ext_data_st -> bool) session i :
  first_index f (slots MAX_EXT_TYPES session) = Some i ->
  exists d,
    ext_data (state session) !! i = Some d
    /\ slots MAX_EXT_TYPES session !! i = Some d
    /\ f d = true
    /\ forall j y, (j < i)%nat -> slots MAX_EXT_TYPES session !! j = Some y ->
                   f y = false.
Proof.
  intros H. apply first_index_Some in H as (d & Hd & Hf & Hlt).
  exists d. repeat split; try assumption.
  unfold slots in Hd. now apply lookup_take_Some in Hd as [Hd _].
Qed.

Lemma slot_available_first id session :
  slot_available id (slots MAX_EXT_TYPES session)
  <-> exists i, first_index (slot_for id) (slots MAX_EXT_TYPES session) = Some i.
Proof.
  split.
  - intros (d & Hin & Hd).
    destruct (first_index (slot_for id) (slots MAX_EXT_TYPES session))
      as [i|] eqn:E; [eauto|].
    exfalso. pose proof (proj1 (first_index_None _ _) E d Hin) as Hno.
    apply slot_for_spec in Hno as [Hne Hfree].
    destruct Hd as [Hd|Hd]; congruence.
  - intros [i Hi]. apply first_index_Some in Hi as (d & Hd & Hf & _).
    exists d. split.
    + apply list_elem_of_In, list_elem_of_lookup. eauto.
    + unfold slot_for in Hf. apply orb_true_iff in Hf as [Hf|Hf].
      * left. now apply Z.eqb_eq.
      * right. exact Hf.
Qed.

Lemma slot_for_not_at id y :
  slot_for id y = false ->
  live_at id y = false /\ resumed_at id y = false /\ (ed_id y =? id) = false.
Proof.
  intros H. apply slot_for_spec in H as [Hne _].
  apply Z.eqb_neq in Hne. rewrite Hne, !andb_false_r. auto.
Qed.

(** What the two setters do, whatever the table. *)
Lemma set_session_data_cases session id data :
  (first_index (slot_for id) (slots MAX_EXT_TYPES session) = None
   /\ set_live session id data = (session, [])
   /\ set_resumed session id data = (session, []))
  \/ (exists i d,
        first_index (slot_for id) (slots MAX_EXT_TYPES session) = Some i
        /\ slots MAX_EXT_TYPES session !! i = Some d
        /\ slot_for id d = true
        /\ (forall j y, (j < i)%nat ->
                        slots MAX_EXT_TYPES session !! j = Some y ->
                        slot_for id y = false)
        /\ set_live session id data
           = (update_slot session i
                (mk_ext_data id true data (ed_resumed_set d)
                   (ed_resumed_priv d)),
              deinit_events (ext_ptr session id GNUTLS_EXT_ANY)
                (ed_set d) (ed_priv d))
        /\ set_resumed session id data
           = (update_slot session i
                (mk_ext_data id (ed_set d) (ed_priv d) true data),
              deinit_events (ext_ptr session id GNUTLS_EXT_ANY)
                (ed_resumed_set d) (ed_resumed_priv d))).
Proof.
  destruct (first_index (slot_for id) (slots MAX_EXT_TYPES session))
    as [i|] eqn:Hfirst.
  - right. destruct (first_index_slots _ _ _ Hfirst) as (d & Hd & Hs & Hf & Hlt).
    exists i, d. repeat split; try assumption.
    + now apply set_session_data_first.
    + now apply set_resumed_session_data_first.
  - left. split; [reflexivity|]. now apply set_session_data_none.
Qed.

Lemma get_session_data_find session id :
  get_live session id
  = match option_map ed_priv
            (List.find (live_at id) (slots MAX_EXT_TYPES session)) with
    | Some p => (0, Some p)
    | None => (GNUTLS_E_REQUESTED_DATA_NOT_AVAILABLE, None)
    end.
Proof.
  unfold _gnutls_ext_get_session_data. now destruct (List.find _ _).
Qed.

Lemma get_resumed_session_data_find session id :
  get_resumed session id
  = match option_map ed_resumed_priv
            (List.find (resumed_at id) (slots MAX_EXT_TYPES session)) with
    | Some p => (0, Some p)
    | None => (GNUTLS_E_INVALID_REQUEST, None)
    end.
Proof.
  unfold _gnutls_ext_get_resumed_session_data. now destruct (List.find _ _).
Qed.

Lemma get_session_data_absent session id :
  get_live session id = (GNUTLS_E_REQUESTED_DATA_NOT_AVAILABLE, None)
  <-> forall y, In y (slots MAX_EXT_TYPES session) -> live_at id y = false.
Proof.
  unfold _gnutls_ext_get_session_data. split.
  - destruct (List.find _ _) eqn:E; [discriminate|]. intros _ y Hy.
    exact (List.find_none _ _ E y Hy).
  - intros H. now rewrite find_all_none.
Qed.

(** The live value a setter stored is what the getter returns. *)
Lemma set_get_live session id data :
  slot_available id (slots MAX_EXT_TYPES session) ->
  get_live (fst (set_live session id data)) id = (0, Some data).
Proof.
  intros Hav. apply slot_available_first in Hav as [i Hi].
  destruct (set_session_data_cases session id data)
    as [(Hnone & _)|(i' & d & Hfirst & Hd & Hf & Hlt & -> & _)];
    [congruence|].
  simpl. unfold _gnutls_ext_get_session_data. rewrite slots_update.
  rewrite (find_insert_first _ _ _ d _ Hd); [reflexivity| |].
  - simpl. now rewrite Z.eqb_refl.
  - intros j y Hj Hy. now apply slot_for_not_at, (Hlt j).
Qed.

Lemma set_get_resumed session id data :
  slot_available id (slots MAX_EXT_TYPES session) ->
  get_resumed (fst (set_resumed session id data)) id = (0, Some data).
Proof.
  intros Hav. apply slot_available_first in Hav as [i Hi].
  destruct (set_session_data_cases session id data)
    as [(Hnone & _)|(i' & d & Hfirst & Hd & Hf & Hlt & _ & ->)];
    [congruence|].
  simpl. unfold _gnutls_ext_get_resumed_session_data. rewrite slots_update.
  rewrite (find_insert_first _ _ _ d _ Hd); [reflexivity| |].
  - simpl. now rewrite Z.eqb_refl.
  - intros j y Hj Hy. now apply slot_for_not_at, (Hlt j).
Qed.

Lemma set_unavailable session id data :
  ~ slot_available id (slots MAX_EXT_TYPES session) ->
  set_live session id data = (session, [])
  /\ set_resumed session id data = (session, [])
  /\ get_live session id = (GNUTLS_E_REQUESTED_DATA_NOT_AVAILABLE, None)
  /\ get_resumed session id = (GNUTLS_E_INVALID_REQUEST, None).
Proof.
  intros Hno.
  destruct (set_session_data_cases session id data)
    as [(Hnone & Hl & Hr)|(i & d & Hfirst & _)].
  - repeat split; try assumption.
    + unfold _gnutls_ext_get_session_data. rewrite find_all_none; [reflexivity|].
      intros y Hy. apply slot_for_not_at.
      now apply (proj1 (first_index_None _ _) Hnone).
    + unfold _gnutls_ext_get_resumed_session_data.
      rewrite find_all_none; [reflexivity|].
      intros y Hy. apply slot_for_not_at.
      now apply (proj1 (first_index_None _ _) Hnone).
  - exfalso. apply Hno. apply slot_available_first. eauto.
Qed.

(** X1: the live value stored for an internal id is read back: after
    [_gnutls_ext_set_session_data], [_gnutls_ext_get_session_data] for the
    same id succeeds with the value that was stored, exactly when one of the
    [MAX_EXT_TYPES] slots held that id or had neither flag set; when none
    did, the value is dropped and the getter reports that no data is
    available. *)
Theorem set_then_get_session_data session id data :
  (slot_available id (slots MAX_EXT_TYPES session) ->
   get_live (fst (set_live session id data)) id = (0, Some data))
  /\ (~ slot_available id (slots MAX_EXT_TYPES session) ->
      get_live (fst (set_live session id data)) id
      = (GNUTLS_E_REQUESTED_DATA_NOT_AVAILABLE, None)).
Proof.
  split.
  - apply set_get_live.
  - intros Hno. destruct (set_unavailable session id data Hno) as (-> & _ & H & _).
    exact H.
Qed.

(** X2: the same for the resumed value: after
    [_gnutls_ext_set_resumed_session_data],
    [_gnutls_ext_get_resumed_session_data] for the same id succeeds with
    the value that was stored when a slot held that id or was free, and
    fails with [GNUTLS_E_INVALID_REQUEST] when the table had no such slot. *)
Theorem set_then_get_resumed_session_data session id data :
  (slot_available id (slots MAX_EXT_TYPES session) ->
   get_resumed (fst (set_resumed session id data)) id = (0, Some data))
  /\ (~ slot_available id (slots MAX_EXT_TYPES session) ->
      get_resumed (fst (set_resumed session id data)) id
      = (GNUTLS_E_INVALID_REQUEST, None)).
Proof.
  split.
  - apply set_get_resumed.
  - intros Hno. destruct (set_unavailable session id data Hno) as (_ & -> & _ & H).
    exact H.
Qed.

(** The getters after a slot was rewritten. *)
Lemma get_live_update session i d d' id :
  slots MAX_EXT_TYPES session !! i = Some d ->
  live_at id d' = live_at id d ->
  (live_at id d = true -> ed_priv d' = ed_priv d) ->
  get_live (update_slot session i d') id = get_live session id.
Proof.
  intros Hd Hf Hg. rewrite !get_session_data_find, slots_update.
  now rewrite (find_insert_keep _ ed_priv _ _ d d' Hd Hf Hg).
Qed.

Lemma get_resumed_update session i d d' id :
  slots MAX_EXT_TYPES session !! i = Some d ->
  resumed_at id d' = resumed_at id d ->
  (resumed_at id d = true -> ed_resumed_priv d' = ed_resumed_priv d) ->
  get_resumed (update_slot session i d') id = get_resumed session id.
Proof.
  intros Hd Hf Hg. rewrite !get_resumed_session_data_find, slots_update.
  now rewrite (find_insert_keep _ ed_resumed_priv _ _ d d' Hd Hf Hg).
Qed.

(** X3: a setter changes what the getters return for its own internal id
    and its own kind of value only.  After
    [_gnutls_ext_set_session_data] for [id], the live value of every other
    internal id and the resumed value of every internal id read as before;
    after [_gnutls_ext_set_resumed_session_data] for [id], the resumed value
    of every other internal id and the live value of every internal id read
    as before. *)
Theorem set_session_data_frame session id data id' :
  (id' <> id ->
   _gnutls_ext_get_session_data MAX_EXT_TYPES
     (fst (_gnutls_ext_set_session_data MAX_EXT_TYPES extfunc session id data))
     id'
   = _gnutls_ext_get_session_data MAX_EXT_TYPES session id')
  /\ _gnutls_ext_get_resumed_session_data MAX_EXT_TYPES
       (fst (_gnutls_ext_set_session_data MAX_EXT_TYPES extfunc session id
               data)) id'
     = _gnutls_ext_get_resumed_session_data MAX_EXT_TYPES session id'
  /\ (id' <> id ->
      _gnutls_ext_get_resumed_session_data MAX_EXT_TYPES
        (fst (_gnutls_ext_set_resumed_session_data MAX_EXT_TYPES extfunc
                session id data)) id'
      = _gnutls_ext_get_resumed_session_data MAX_EXT_TYPES session id')
  /\ _gnutls_ext_get_session_data MAX_EXT_TYPES
       (fst (_gnutls_ext_set_resumed_session_data MAX_EXT_TYPES extfunc
               session id data)) id'
     = _gnutls_ext_get_session_data MAX_EXT_TYPES session id'.
Proof.
  destruct (set_session_data_cases session id data)
    as [(_ & -> & ->)|(i & d & _ & Hd & Hf & _ & -> & ->)];
    [repeat split; reflexivity|].
  cbn [fst].
  assert (Hcase : ed_id d = id
                  \/ (ed_set d = false /\ ed_resumed_set d = false)).
  { unfold slot_for in Hf. apply orb_true_iff in Hf as [Hf|Hf].
    - left. now apply Z.eqb_eq.
    - right. apply andb_true_iff in Hf as [H1 H2].
      now apply negb_true_iff in H1, H2. }
  repeat split.
  - intros Hne. apply (get_live_update _ _ d); [assumption| |].
    + cbn. assert (E : (id =? id') = false) by (apply Z.eqb_neq; congruence).
      rewrite E. destruct Hcase as [<-|[-> _]]; [|reflexivity].
      now rewrite E, andb_false_r.
    + destruct Hcase as [<-|[-> _]]; [|discriminate].
      assert (E : (ed_id d =? id') = false) by (apply Z.eqb_neq; congruence).
      rewrite E, andb_false_r. discriminate.
  - apply (get_resumed_update _ _ d); [assumption| |].
    + cbn. destruct Hcase as [<-|[_ ->]]; reflexivity.
    + reflexivity.
  - intros Hne. apply (get_resumed_update _ _ d); [assumption| |].
    + cbn. assert (E : (id =? id') = false) by (apply Z.eqb_neq; congruence).
      rewrite E. destruct Hcase as [<-|[_ ->]]; [|reflexivity].
      now rewrite E, andb_false_r.
    + destruct Hcase as [<-|[_ ->]]; [|discriminate].
      assert (E : (ed_id d =? id') = false) by (apply Z.eqb_neq; congruence).
      rewrite E, andb_false_r. discriminate.
  - apply (get_live_update _ _ d); [assumption| |].
    + cbn. destruct Hcase as [<-|[-> _]]; reflexivity.
    + reflexivity.
Qed.

Lemma set_resumed_keeps_live session id data id' :
  get_live (fst (set_resumed session id data)) id' = get_live session id'.
Proof.
  destruct (set_session_data_cases session id data)
    as [(_ & _ & ->)|(i & d & _ & Hd & Hf & _ & _ & ->)]; [reflexivity|].
  cbn [fst]. apply (get_live_update _ _ d); [assumption| |reflexivity].
  cbn. unfold slot_for in Hf. apply orb_true_iff in Hf as [Hf|Hf].
  - apply Z.eqb_eq in Hf. now rewrite Hf.
  - apply andb_true_iff in Hf as [H1 _]. apply negb_true_iff in H1.
    now rewrite H1.
Qed.

(** What [_gnutls_ext_unset_session_data] does, whatever the table. *)
Lemma unset_session_data_cases session id :
  ((forall y, In y (slots MAX_EXT_TYPES session) -> (ed_id y =? id) = false)
   /\ unset_live session id = (session, []))
  \/ (exists i d,
        first_index (fun d => ed_id d =? id) (slots MAX_EXT_TYPES session)
        = Some i
        /\ slots MAX_EXT_TYPES session !! i = Some d
        /\ ed_id d = id
        /\ unset_live session id
           = if ed_set d
             then (update_slot session i
                     (mk_ext_data id false (ed_priv d) (ed_resumed_set d)
                        (ed_resumed_priv d)),
                   deinit_events (ext_ptr session id GNUTLS_EXT_ANY) true
                     (ed_priv d))
             else (session, [])).
Proof.
  unfold _gnutls_ext_unset_session_data.
  destruct (first_index (fun d => ed_id d =? id) (slots MAX_EXT_TYPES session))
    as [i|] eqn:Hfirst.
  - right. destruct (first_index_slots _ _ _ Hfirst) as (d & Hd & Hs & Hf & _).
    apply Z.eqb_eq in Hf.
    exists i, d. repeat split; try assumption.
    unfold unset_ext_data. rewrite Hd.
    destruct (ed_set d); [|reflexivity]. cbn [negb]. now rewrite Hf.
  - left. split; [|reflexivity].
    now apply first_index_None.
Qed.

(** X4: [_gnutls_ext_unset_session_data] for [id] leaves the live value of
    every other internal id and the resumed value of every internal id as
    they read before, and does nothing at all, and invokes nothing, when no
    slot carries [id]. *)
Theorem unset_session_data_frame session id id' :
  (id' <> id ->
   get_live (fst (unset_live session id)) id' = get_live session id')
  /\ get_resumed (fst (unset_live session id)) id' = get_resumed session id'
  /\ ((forall y, In y (slots MAX_EXT_TYPES session) -> ed_id y <> id) ->
      unset_live session id = (session, [])).
Proof.
  destruct (unset_session_data_cases session id)
    as [(Hnone & ->)|(i & d & _ & Hd & Hid & ->)];
    [repeat split; reflexivity|].
  repeat split.
  - intros Hne. destruct (ed_set d) eqn:Hset; [|reflexivity]. cbn [fst].
    apply (get_live_update _ _ d); [assumption| |].
    + cbn. rewrite Hset, Hid.
      assert (E : (id =? id') = false) by (apply Z.eqb_neq; congruence).
      now rewrite E.
    + rewrite Hid.
      assert (E : (id =? id') = false) by (apply Z.eqb_neq; congruence).
      rewrite E, andb_false_r. discriminate.
  - destruct (ed_set d) eqn:Hset; [|reflexivity]. cbn [fst].
    apply (get_resumed_update _ _ d); [assumption| |].
    + cbn. now rewrite Hid.
    + reflexivity.
  - intros Hnone. exfalso. apply (Hnone d); [|assumption].
    apply list_elem_of_In, list_elem_of_lookup. eauto.
Qed.

(** X5: a value that is stored and then unset is gone, and was handed to
    the deinitialisation function once.  From a session in which [id] has
    no live value, [_gnutls_ext_set_session_data] followed by
    [_gnutls_ext_unset_session_data] leaves [id] without live value; when a
    slot was available for the store, the unset invokes the
    deinitialisation function of the descriptor of [id] on the stored
    pointer, once, if the descriptor is found, has that function and the
    pointer is not [NULL], and invokes nothing otherwise. *)
Theorem set_then_unset_session_data session id data :
  get_live session id = (GNUTLS_E_REQUESTED_DATA_NOT_AVAILABLE, None) ->
  let session1 := fst (set_live session id data) in
  get_live (fst (unset_live session1 id)) id
  = (GNUTLS_E_REQUESTED_DATA_NOT_AVAILABLE, None)
  /\ (slot_available id (slots MAX_EXT_TYPES session) ->
      snd (unset_live session1 id)
      = match ext_ptr session id GNUTLS_EXT_ANY with
        | Some e => if deinit_func e && negb (data =? 0)
                    then [call_deinit e data] else []
        | None => []
        end).
Proof.
  intros Habs session1. subst session1.
  pose proof (proj1 (get_session_data_absent _ _) Habs) as Hall.
  destruct (set_session_data_cases session id data)
    as [(Hnone & -> & _)|(i & d & Hfirst & Hd & Hf & Hlt & -> & _)].
  - cbn [fst]. split.
    + destruct (unset_session_data_cases session id)
        as [(_ & ->)|(j & y & _ & Hy & Hid & ->)]; [exact Habs|].
      exfalso.
      assert (Hin : In y (slots MAX_EXT_TYPES session)).
      { apply list_elem_of_In, list_elem_of_lookup. eauto. }
      pose proof (proj1 (first_index_None _ _) Hnone y Hin) as Hno.
      apply slot_for_spec in Hno as [Hne _]. congruence.
    + intros Hav. apply slot_available_first in Hav as [k Hk]. congruence.
  - cbn [fst].
    set (d1 := mk_ext_data id true data (ed_resumed_set d) (ed_resumed_priv d)).
    assert (Hfirst1 :
      first_index (fun x => ed_id x =? id)
        (slots MAX_EXT_TYPES (update_slot session i d1)) = Some i).
    { rewrite slots_update. apply (first_index_insert_first _ _ _ d); auto.
      - cbn. apply Z.eqb_refl.
      - intros j y Hj Hy. now apply slot_for_not_at, (Hlt j). }
    assert (Hd1 : ext_data (state (update_slot session i d1)) !! i = Some d1).
    { apply first_index_slots in Hfirst1 as (x & Hx & Hx' & _).
      rewrite slots_update in Hx'.
      rewrite list_lookup_insert_eq in Hx'
        by (now apply lookup_lt_Some in Hd).
      congruence. }
    unfold _gnutls_ext_unset_session_data. rewrite Hfirst1.
    unfold unset_ext_data. rewrite Hd1. cbn [d1 ed_set negb ed_priv ed_id
      ed_resumed_set ed_resumed_priv].
    rewrite update_slot_twice, ext_ptr_update. cbn [fst snd]. split.
    + assert (Hdin : In d (slots MAX_EXT_TYPES session)).
      { apply list_elem_of_In, list_elem_of_lookup. eauto. }
      rewrite (get_live_update _ _ d); [exact Habs|assumption| |].
      * cbn. symmetry. now apply Hall.
      * rewrite (Hall d Hdin). discriminate.
    + intros _. reflexivity.
Qed.

(** *** Freeing the table *)

(** The slot [d] with both flags cleared. *)
Local Abbreviation cleared d :=
  (mk_ext_data (ed_id d) false (ed_priv d) false (ed_resumed_priv d)).

Lemma free_session_data_at_slot session i d :
  ext_data (state session) !! i = Some d ->
  free_session_data_at extfunc session i
  = (update_slot session i (cleared d), slot_deinit_events extfunc session d).
Proof.
  intros Hd. unfold free_session_data_at, slot_deinit_events. rewrite Hd.
  destruct (ed_set d) eqn:Hs; destruct (ed_resumed_set d) eqn:Hr; cbn [negb andb].
  - unfold unset_ext_data. rewrite Hd, Hs. cbn [negb].
    unfold unset_resumed_ext_data.
    erewrite update_slot_lookup by eassumption. cbn [ed_resumed_set negb
      ed_resumed_priv ed_id ed_set ed_priv].
    rewrite Hr. cbn [negb]. rewrite update_slot_twice. reflexivity.
  - unfold unset_ext_data. rewrite Hd, Hs. cbn [negb].
    unfold unset_resumed_ext_data.
    erewrite update_slot_lookup by eassumption. cbn [ed_resumed_set negb].
    rewrite Hr. cbn [negb]. reflexivity.
  - unfold unset_ext_data. rewrite Hd, Hs. cbn [negb].
    unfold unset_resumed_ext_data. rewrite Hd, Hr. cbn [negb].
    unfold deinit_events at 1. rewrite Hs. reflexivity.
  - unfold deinit_events. cbn [app].
    rewrite slot_free_clear by (unfold slot_free; now rewrite Hs, Hr).
    unfold update_slot. rewrite list_insert_id by assumption.
    now destruct session as [[? ? ?] ?].
Qed.

(** The session with the table [t]. *)
Local Abbreviation with_table session t :=
  (set_state session (set_ext_data (state session) t)).

(** The loop of [_gnutls_ext_free_session_data] over the first [n] slots. *)
Lemma free_session_data_prefix session n :
  fold_left
    (fun '(s, tr) i =>
       let '(s', tr') := free_session_data_at extfunc s i in (s', tr ++ tr'))
    (seq 0 n) (session, [])
  = (with_table session
       (map (fun d => cleared d) (take n (ext_data (state session)))
        ++ drop n (ext_data (state session))),
     flat_map (slot_deinit_events extfunc session)
       (take n (ext_data (state session)))).
Proof.
  induction n as [|n IH].
  - cbn. rewrite drop_0. now destruct session as [[? ? ?] ?].
  - rewrite seq_S, fold_left_app, IH. cbn [fold_left Nat.add].
    set (t := ext_data (state session)).
    destruct (t !! n) as [d|] eqn:Hn.
    + assert (Hlen : (n < length t)%nat) by (now apply lookup_lt_Some in Hn).
      rewrite (free_session_data_at_slot _ n d).
      * f_equal.
        -- unfold update_slot, set_state, set_ext_data. cbn. f_equal. f_equal.
           rewrite insert_app_r_alt
             by (rewrite length_map, length_take; lia).
           rewrite length_map, length_take.
           replace (n - n `min` length t)%nat with 0%nat by lia.
           rewrite (take_S_r _ _ _ Hn), map_app, <- app_assoc. cbn.
           rewrite (drop_S _ _ _ Hn). reflexivity.
        -- rewrite (take_S_r _ _ _ Hn), flat_map_app. cbn.
           now rewrite app_nil_r.
      * cbn. rewrite lookup_app_r by (rewrite length_map, length_take; lia).
        rewrite length_map, length_take.
        replace (n - n `min` length t)%nat with 0%nat by lia.
        now rewrite (drop_S _ _ _ Hn).
    + assert (Hlen : (length t <= n)%nat) by (now apply lookup_ge_None in Hn).
      unfold free_session_data_at. cbn [state set_state set_ext_data ext_data].
      rewrite (proj2 (lookup_ge_None _ _)).
      * rewrite app_nil_r. rewrite !take_ge, !drop_ge by lia. reflexivity.
      * rewrite length_app, length_map, length_take, length_drop. lia.
Qed.

Lemma free_session_data_table session :
  free_all session
  = (with_table session
       (map (fun d => cleared d) (slots MAX_EXT_TYPES session)
        ++ drop MAX_EXT_TYPES (ext_data (state session))),
     flat_map (slot_deinit_events extfunc session)
       (slots MAX_EXT_TYPES session)).
Proof. apply free_session_data_prefix. Qed.

Lemma slots_free_all session :
  slots MAX_EXT_TYPES (fst (free_all session))
  = map (fun d => cleared d) (slots MAX_EXT_TYPES session).
Proof.
  rewrite free_session_data_table. unfold slots. cbn.
  set (t := ext_data (state session)).
  destruct (Nat.le_gt_cases MAX_EXT_TYPES (length t)) as [Hle|Hgt].
  - apply take_app_length'. rewrite length_map, length_take. lia.
  - rewrite drop_ge by lia. rewrite app_nil_r. apply take_ge.
    rewrite length_map, length_take. lia.
Qed.

(** X6: after [_gnutls_ext_free_session_data] no internal id has a live or
    a resumed value: both getters fail for every id; the overlay, the role
    and the advertisement bitset of the session are as before. *)
Theorem free_session_data_clears session id :
  let session' := fst (free_all session) in
  get_live session' id = (GNUTLS_E_REQUESTED_DATA_NOT_AVAILABLE, None)
  /\ get_resumed session' id = (GNUTLS_E_INVALID_REQUEST, None)
  /\ rexts session' = rexts session
  /\ entity (state session') = entity (state session)
  /\ used_exts (state session') = used_exts (state session).
Proof.
  intros session'. subst session'. split; [|split].
  - unfold _gnutls_ext_get_session_data. rewrite slots_free_all.
    rewrite find_all_none; [reflexivity|].
    intros y Hy. apply in_map_iff in Hy as (d & <- & _). reflexivity.
  - unfold _gnutls_ext_get_resumed_session_data. rewrite slots_free_all.
    rewrite find_all_none; [reflexivity|].
    intros y Hy. apply in_map_iff in Hy as (d & <- & _). reflexivity.
  - rewrite free_session_data_table. repeat split.
Qed.

Lemma map_cleared_free (l : list ext_data_st) :
  (forall d, In d l -> slot_free d = true) ->
  map (fun d => cleared d) l = l.
Proof.
  induction l as [|a l IH]; intros H; [reflexivity|].
  cbn. rewrite slot_free_clear by (apply H; now left).
  f_equal. apply IH. intros d Hd. apply H. now right.
Qed.

(** X7: [_gnutls_ext_free_session_data] hands to the deinitialisation
    function exactly the values the table held: for each of the
    [MAX_EXT_TYPES] slots in order, the live value and then the resumed
    value, each if its flag is set, the descriptor of the internal id of the
    slot is found and has that function, and the pointer is not [NULL].  A
    second call changes nothing and invokes nothing. *)
Theorem free_session_data_deinit session :
  snd (free_all session)
  = flat_map (slot_deinit_events extfunc session)
      (slots MAX_EXT_TYPES session)
  /\ free_all (fst (free_all session)) = (fst (free_all session), []).
Proof.
  split; [now rewrite free_session_data_table|].
  rewrite (free_session_data_table (fst (free_all session))).
  rewrite slots_free_all.
  assert (Hfree : forall d,
            In d (map (fun d => cleared d) (slots MAX_EXT_TYPES session)) ->
            slot_free d = true).
  { intros y Hy. apply in_map_iff in Hy as (d & <- & _). reflexivity. }
  rewrite (map_cleared_free _ Hfree). f_equal.
  - rewrite <- slots_free_all. unfold slots. rewrite take_drop.
    now destruct (fst (free_all session)) as [[? ? ?] ?].
  - induction (map _ _) as [|a l IH]; [reflexivity|].
    cbn. unfold slot_deinit_events at 1.
    pose proof (Hfree a (or_introl eq_refl)) as Ha.
    unfold slot_free in Ha. apply andb_true_iff in Ha as [H1 H2].
    apply negb_true_iff in H1, H2. rewrite H1, H2. cbn.
    apply IH. intros d Hd. apply Hfree. now right.
Qed.

(** *** The room of the table *)

Lemma filter_insert_length {A : Type} (f : A -> bool) (l : list A) (i : nat)
    (x : A) :
  (length (List.filter f (<[i := x]> l)) <= S (length (List.filter f l)))%nat.
Proof.
  revert i. induction l as [|a l IH]; intros i; [simpl; lia|].
  destruct i as [|i].
  - change (<[0%nat := x]> (a :: l)) with (x :: l). simpl.
    destruct (f x), (f a); simpl; lia.
  - change (<[S i := x]> (a :: l)) with (a :: <[i := x]> l). simpl.
    specialize (IH i). destruct (f a); simpl; lia.
Qed.

Lemma filter_room {A : Type} (f : A -> bool) (l : list A) :
  (length (List.filter f l) < length l)%nat ->
  exists x, In x l /\ f x = false.
Proof.
  induction l as [|a l IH]; simpl; [lia|].
  destruct (f a) eqn:Fa.
  - simpl. intros H. destruct IH as (x & Hx & Fx); [lia|].
    exists x. split; [now right | assumption].
  - intros _. exists a. split; [now left | assumption].
Qed.

Lemma slot_available_room id t :
  (used_slots t < length t)%nat -> slot_available id t.
Proof.
  intros H. apply filter_room in H as (d & Hd & Hfree).
  exists d. split; [assumption|]. right. now apply negb_false_iff.
Qed.

Lemma set_live_room session id data :
  (used_slots (slots MAX_EXT_TYPES (fst (set_live session id data)))
   <= S (used_slots (slots MAX_EXT_TYPES session)))%nat
  /\ length (slots MAX_EXT_TYPES (fst (set_live session id data)))
     = length (slots MAX_EXT_TYPES session).
Proof.
  destruct (set_session_data_cases session id data)
    as [(_ & -> & _)|(i & d & _ & _ & _ & _ & -> & _)]; cbn [fst].
  - split; [lia | reflexivity].
  - rewrite slots_update. split.
    + apply filter_insert_length.
    + apply length_insert.
Qed.

Lemma set_live_keeps_other_live session id data id' :
  id' <> id ->
  get_live (fst (set_live session id data)) id' = get_live session id'.
Proof.
  intros Hne.
  destruct (set_session_data_cases session id data)
    as [(_ & -> & _)|(i & d & _ & Hd & Hf & _ & -> & _)]; [reflexivity|].
  cbn [fst].
  assert (E : (id =? id') = false) by (apply Z.eqb_neq; congruence).
  assert (Hold : ed_set d && (ed_id d =? id') = false).
  { unfold slot_for in Hf. apply orb_true_iff in Hf as [Hf|Hf].
    - apply Z.eqb_eq in Hf. now rewrite Hf, E, andb_false_r.
    - apply andb_true_iff in Hf as [H1 _]. apply negb_true_iff in H1.
      now rewrite H1. }
  apply (get_live_update _ _ d); [assumption| |].
  - cbn. now rewrite E, Hold.
  - rewrite Hold. discriminate.
Qed.

Lemma store_all_keeps_live vals :
  forall session id,
  ~ In id (map fst vals) ->
  get_live (store_all MAX_EXT_TYPES extfunc vals session) id
  = get_live session id.
Proof.
  induction vals as [|v vals IH]; intros session id Hn; [reflexivity|].
  cbn [store_all fold_left].
  fold (store_all MAX_EXT_TYPES extfunc vals
          (fst (set_live session (fst v) (snd v)))).
  rewrite IH by (intros H; apply Hn; now right).
  apply set_live_keeps_other_live. intros ->. apply Hn. now left.
Qed.

Lemma store_all_live vals :
  forall session,
  NoDup (map fst vals) ->
  (used_slots (slots MAX_EXT_TYPES session) + length vals
   <= length (slots MAX_EXT_TYPES session))%nat ->
  forall v, In v vals ->
  get_live (store_all MAX_EXT_TYPES extfunc vals session) (fst v)
  = (0, Some (snd v)).
Proof.
  induction vals as [|a vals IH]; intros session Hnd Hroom v Hv; [destruct Hv|].
  cbn [map] in Hnd. apply NoDup_cons in Hnd as [Hnew Hnd].
  cbn [length] in Hroom.
  destruct (set_live_room session (fst a) (snd a)) as [Hused Hlen].
  cbn [store_all fold_left].
  fold (store_all MAX_EXT_TYPES extfunc vals
          (fst (set_live session (fst a) (snd a)))).
  destruct Hv as [<-|Hv].
  - rewrite store_all_keeps_live
      by (intros H; apply Hnew; now apply list_elem_of_In).
    apply set_get_live. apply slot_available_room. lia.
  - apply IH; [assumption | lia | assumption].
Qed.

Lemma used_slots_zero (n : nat) :
  used_slots (replicate n ext_data_zero) = O.
Proof. induction n as [|n IH]; [reflexivity | exact IH]. Qed.

(** X29: the table has room for [MAX_EXT_TYPES] internal ids.  Live values
    stored with [_gnutls_ext_set_session_data] in a new session for
    pairwise distinct internal ids, at most [MAX_EXT_TYPES] of them, are all
    read back by [_gnutls_ext_get_session_data], each with the value stored
    for it. *)
Theorem table_holds_distinct_ids e overlay vals v :
  NoDup (map fst vals) ->
  (length vals <= MAX_EXT_TYPES)%nat ->
  In v vals ->
  _gnutls_ext_get_session_data MAX_EXT_TYPES
    (store_all MAX_EXT_TYPES extfunc vals
       (new_session MAX_EXT_TYPES e overlay)) (fst v)
  = (0, Some (snd v)).
Proof.
  intros Hnd Hlen Hv. apply store_all_live; [assumption| |assumption].
  assert (Hslots : slots MAX_EXT_TYPES (new_session MAX_EXT_TYPES e overlay)
                   = replicate MAX_EXT_TYPES ext_data_zero).
  { unfold slots, new_session. cbn. apply take_ge.
    rewrite length_replicate. lia. }
  rewrite Hslots, length_replicate, used_slots_zero. lia.
Qed.

(** *** Live and resumed values side by side *)

Lemma set_live_keeps_resumed session id data id' :
  get_resumed (fst (set_live session id data)) id' = get_resumed session id'.
Proof.
  destruct (set_session_data_cases session id data)
    as [(_ & -> & _)|(i & d & _ & Hd & Hf & _ & -> & _)]; [reflexivity|].
  cbn [fst]. apply (get_resumed_update _ _ d); [assumption| |reflexivity].
  cbn. unfold slot_for in Hf. apply orb_true_iff in Hf as [Hf|Hf].
  - apply Z.eqb_eq in Hf. now rewrite Hf.
  - apply andb_true_iff in Hf as [_ H2]. apply negb_true_iff in H2.
    now rewrite H2.
Qed.

Lemma get_live_available session id p :
  get_live session id = (0, Some p) ->
  slot_available id (slots MAX_EXT_TYPES session).
Proof.
  unfold _gnutls_ext_get_session_data.
  destruct (List.find _ _) as [d|] eqn:E; [|discriminate]. intros _.
  apply find_some in E as [Hin Hd]. apply andb_true_iff in Hd as [_ Hd].
  exists d. split; [assumption|]. left. now apply Z.eqb_eq.
Qed.

Lemma get_resumed_available session id p :
  get_resumed session id = (0, Some p) ->
  slot_available id (slots MAX_EXT_TYPES session).
Proof.
  unfold _gnutls_ext_get_resumed_session_data.
  destruct (List.find _ _) as [d|] eqn:E; [|discriminate]. intros _.
  apply find_some in E as [Hin Hd]. apply andb_true_iff in Hd as [_ Hd].
  exists d. split; [assumption|]. left. now apply Z.eqb_eq.
Qed.

(** X30: the live and the resumed value of an internal id are kept side by
    side.  When a slot holds [id] or is free, after
    [_gnutls_ext_set_resumed_session_data] and
    [_gnutls_ext_set_session_data] for [id], in either order,
    [_gnutls_ext_get_session_data] returns the live value and
    [_gnutls_ext_get_resumed_session_data] the resumed value that were
    stored. *)
Theorem live_and_resumed_side_by_side session id live resumed :
  slot_available id (slots MAX_EXT_TYPES session) ->
  (let session' :=
     fst (_gnutls_ext_set_session_data MAX_EXT_TYPES extfunc
            (fst (_gnutls_ext_set_resumed_session_data MAX_EXT_TYPES extfunc
                    session id resumed)) id live) in
   _gnutls_ext_get_session_data MAX_EXT_TYPES session' id = (0, Some live)
   /\ _gnutls_ext_get_resumed_session_data MAX_EXT_TYPES session' id
      = (0, Some resumed))
  /\ (let session' :=
        fst (_gnutls_ext_set_resumed_session_data MAX_EXT_TYPES extfunc
               (fst (_gnutls_ext_set_session_data MAX_EXT_TYPES extfunc
                       session id live)) id resumed) in
      _gnutls_ext_get_session_data MAX_EXT_TYPES session' id = (0, Some live)
      /\ _gnutls_ext_get_resumed_session_data MAX_EXT_TYPES session' id
         = (0, Some resumed)).
Proof.
  intros Hav.
  pose proof (set_get_resumed session id resumed Hav) as Hr.
  pose proof (set_get_live session id live Hav) as Hl.
  split; intros session'; subst session'; split.
  - apply set_get_live. exact (get_resumed_available _ _ _ Hr).
  - now rewrite set_live_keeps_resumed.
  - now rewrite set_resumed_keeps_live.
  - apply set_get_resumed. exact (get_live_available _ _ _ Hl).
Qed.

(** *** The public entries, keyed by wire id *)

Lemma tls_id_to_gid_unknown session w :
  (forall e, In e (rexts session ++ extfunc) -> tls_id e <> w) ->
  tls_id_to_gid extfunc session w = 0.
Proof.
  intros H. unfold tls_id_to_gid.
  rewrite !find_all_none; [reflexivity| |].
  - intros e He. apply Z.eqb_neq, H, in_or_app. now right.
  - intros e He. apply Z.eqb_neq, H, in_or_app. now left.
Qed.

(** X8: for a wire id that no descriptor of the overlay or of the
    process-wide table carries, [gnutls_ext_set_data] stores nothing and
    invokes nothing, and [gnutls_ext_get_data] fails with
    [GNUTLS_E_REQUESTED_DATA_NOT_AVAILABLE]. *)
Theorem ext_set_data_unknown session w data :
  (forall e, In e (rexts session ++ extfunc) -> tls_id e <> w) ->
  gnutls_ext_set_data MAX_EXT_TYPES extfunc session w data = (session, [])
  /\ gnutls_ext_get_data MAX_EXT_TYPES extfunc session w
     = (GNUTLS_E_REQUESTED_DATA_NOT_AVAILABLE, None).
Proof.
  intros H. unfold gnutls_ext_set_data, gnutls_ext_get_data.
  now rewrite (tls_id_to_gid_unknown _ _ H).
Qed.

Lemma set_live_rexts session id data :
  rexts (fst (set_live session id data)) = rexts session.
Proof.
  destruct (set_session_data_cases session id data)
    as [(_ & -> & _)|(i & d & _ & _ & _ & _ & -> & _)]; reflexivity.
Qed.

Lemma ext_set_get_data session w data :
  tls_id_to_gid extfunc session w <> 0 ->
  slot_available (tls_id_to_gid extfunc session w)
    (slots MAX_EXT_TYPES session) ->
  gnutls_ext_get_data MAX_EXT_TYPES extfunc
    (fst (gnutls_ext_set_data MAX_EXT_TYPES extfunc session w data)) w
  = (0, Some data).
Proof.
  intros Hid Hav. unfold gnutls_ext_set_data, gnutls_ext_get_data.
  apply Z.eqb_neq in Hid. rewrite Hid.
  assert (E : tls_id_to_gid extfunc
                (fst (set_live session (tls_id_to_gid extfunc session w) data))
                w
              = tls_id_to_gid extfunc session w).
  { unfold tls_id_to_gid. now rewrite set_live_rexts. }
  rewrite E, Hid. now apply set_get_live.
Qed.

(** X9: through the public entries a value is stored and read back by wire
    id: when the wire id resolves to an internal id other than [0] and a
    slot holds that internal id or is free, [gnutls_ext_get_data] after
    [gnutls_ext_set_data] succeeds with the value that was stored. *)
Theorem ext_set_then_get_data session w data :
  tls_id_to_gid extfunc session w <> 0 ->
  slot_available (tls_id_to_gid extfunc session w)
    (slots MAX_EXT_TYPES session) ->
  gnutls_ext_get_data MAX_EXT_TYPES extfunc
    (fst (gnutls_ext_set_data MAX_EXT_TYPES extfunc session w data)) w
  = (0, Some data).
Proof. apply ext_set_get_data. Qed.

End TableAccess.

(** ** Registration *)

Section Registration.

Variable MAX_EXT_TYPES : nat.
Variable GNUTLS_EXTENSION_MAX : Z.
Variable GNUTLS_EXTENSION_MAX_VALUE : Z.

Hypothesis GNUTLS_EXTENSION_MAX_nonneg : 0 <= GNUTLS_EXTENSION_MAX.

Lemma register_scan_spec id exts g g' :
  gids_in_range exts -> 0 <= g ->
  register_scan id exts g = Some g' ->
  g <= g'
  /\ (forall e, In e exts -> gid e < g')
  /\ (forall e, In e exts -> tls_id e <> id).
Proof.
  revert g. induction exts as [|e exts IH]; intros g Hr Hg H; simpl in H.
  - injection H as <-. split; [lia|]. split; intros e [].
  - destruct (Z.eqb_spec (tls_id e) id) as [|Hne]; [discriminate|].
    assert (He : gid e < 2 ^ 32 - 1) by (apply Hr; now left).
    assert (Hr' : gids_in_range exts) by (intros x Hx; apply Hr; now right).
    destruct (Z.geb_spec (gid e) g) as [Hge|Hlt].
    + assert (E : to_uint32 (gid e + 1) = gid e + 1)
        by (unfold to_uint32; apply Z.mod_small; lia).
      rewrite E in H.
      assert (Hg' : 0 <= gid e + 1) by lia.
      destruct (IH _ Hr' Hg' H) as (H1 & H2 & H3).
      split; [lia|]. split.
      * intros x [<-|Hx]; [lia | now apply H2].
      * intros x [<-|Hx]; [assumption | now apply H3].
    + destruct (IH _ Hr' Hg H) as (H1 & H2 & H3).
      split; [lia|]. split.
      * intros x [<-|Hx]; [lia | now apply H2].
      * intros x [<-|Hx]; [assumption | now apply H3].
Qed.

Lemma register_scan_None id exts g :
  register_scan id exts g = None <-> exists e, In e exts /\ tls_id e = id.
Proof.
  revert g. induction exts as [|e exts IH]; intros g; simpl.
  - split; [discriminate | intros (e & [] & _)].
  - destruct (Z.eqb_spec (tls_id e) id) as [E|Hne].
    + split; [|reflexivity]. intros _. exists e. split; [now left | assumption].
    + rewrite IH. split.
      * intros (x & Hx & E). exists x. split; [now right | assumption].
      * intros (x & [<-|Hx] & E); [contradiction|]. now exists x.
Qed.

(** When no entry of the table carries the wire id, the first loop of the
    session registration runs to the end of the table, like the loop of the
    process-wide registration. *)
Lemma session_register_scan_no_match id flags exts g :
  (forall e, In e exts -> tls_id e <> id) ->
  session_register_scan id flags exts g = register_scan id exts g.
Proof.
  revert g. induction exts as [|e exts IH]; intros g H; simpl; [reflexivity|].
  destruct (Z.eqb_spec (tls_id e) id) as [E|_].
  - exfalso. apply (H e); [now left | assumption].
  - apply IH. intros x Hx. apply H. now right.
Qed.

(** The first loop of the session-level registration raises the candidate
    above the internal id of every entry it reads. *)
Lemma session_register_scan_spec id flags exts g g' :
  gids_in_range exts -> 0 <= g ->
  session_register_scan id flags exts g = Some g' ->
  g <= g' /\ (forall e, In e (scanned id exts) -> gid e < g').
Proof.
  revert g. induction exts as [|e exts IH]; intros g Hr Hg H; simpl in H |- *.
  - injection H as <-. split; [lia | intros e []].
  - destruct (Z.eqb_spec (tls_id e) id) as [_|Hne].
    + destruct (Z.land flags GNUTLS_EXT_FLAG_OVERRIDE_INTERNAL =? 0);
        [discriminate|].
      destruct (cannot_be_overriden e); [discriminate|].
      injection H as <-. split; [lia | intros x []].
    + assert (He : gid e < 2 ^ 32 - 1) by (apply Hr; now left).
      assert (Hr' : gids_in_range exts) by (intros x Hx; apply Hr; now right).
      destruct (Z.geb_spec (gid e) g) as [Hge|Hlt].
      * assert (E : to_uint32 (gid e + 1) = gid e + 1)
          by (unfold to_uint32; apply Z.mod_small; lia).
        rewrite E in H.
        assert (Hg' : 0 <= gid e + 1) by lia.
        destruct (IH _ Hr' Hg' H) as (H1 & H2).
        split; [lia|]. intros x [<-|Hx]; [lia | now apply H2].
      * destruct (IH _ Hr' Hg H) as (H1 & H2).
        split; [lia|]. intros x [<-|Hx]; [lia | now apply H2].
Qed.

Lemma scanned_no_match id exts :
  (forall e, In e exts -> tls_id e <> id) -> scanned id exts = exts.
Proof.
  induction exts as [|e exts IH]; intros H; simpl; [reflexivity|].
  destruct (Z.eqb_spec (tls_id e) id) as [E|_].
  - exfalso. apply (H e); [now left | assumption].
  - f_equal. apply IH. intros x Hx. apply H. now right.
Qed.

Lemma scanned_incl id exts e : In e (scanned id exts) -> In e exts.
Proof.
  induction exts as [|a exts IH]; simpl; [intros []|].
  destruct (tls_id a =? id); [intros []|].
  intros [<-|H]; [now left | right; now apply IH].
Qed.

(** The internal id of a successful process-wide registration: above
    [GNUTLS_EXTENSION_MAX] and above the internal id of every entry of the
    process-wide table.  The registration fails, and registers nothing,
    when an entry already has the last internal id
    [GNUTLS_EXTENSION_MAX_VALUE]. *)
Lemma ext_register_gid (extfunc : list hello_ext_entry_st)
    name' id pt recv' send' deinit' pack' unpack' ret extfunc' :
  gids_in_range extfunc ->
  gnutls_ext_register MAX_EXT_TYPES GNUTLS_EXTENSION_MAX
    GNUTLS_EXTENSION_MAX_VALUE extfunc name' id pt recv' send' deinit'
    pack' unpack' = (ret, extfunc') ->
  (ret = 0 ->
   exists new, extfunc' = extfunc ++ [new]
     /\ GNUTLS_EXTENSION_MAX < gid new <= GNUTLS_EXTENSION_MAX_VALUE
     /\ forall e, In e extfunc -> gid e < gid new)
  /\ ((exists e, In e extfunc /\ GNUTLS_EXTENSION_MAX_VALUE <= gid e) ->
      ret < 0 /\ extfunc' = extfunc).
Proof.
  intros Hr1 H.
  assert (Hg0 : 0 <= GNUTLS_EXTENSION_MAX + 1) by lia.
  unfold gnutls_ext_register in H.
  destruct (register_scan id extfunc (GNUTLS_EXTENSION_MAX + 1)) as [g|] eqn:Hscan.
  - destruct (register_scan_spec _ _ _ _ Hr1 Hg0 Hscan) as (H1 & H2 & _).
    destruct (Z.gtb_spec g GNUTLS_EXTENSION_MAX_VALUE) as [Hgt|Hle].
    + injection H as <- <-. split; [discriminate|].
      intros _. split; [reflexivity | reflexivity].
    + unfold ext_register in H.
      destruct (Z.of_nat (length extfunc) >=? _).
      * injection H as <- <-. split; [discriminate|].
        intros _. split; reflexivity.
      * injection H as <- <-. split.
        -- intros _. eexists. split; [reflexivity|]. simpl. split; [lia|].
           exact H2.
        -- intros (e & He & Hbig). specialize (H2 e He). lia.
  - injection H as <- <-. split; [discriminate|].
    intros _. split; reflexivity.
Qed.

(** The internal id of a successful session-level registration, with or
    without the override flag: above [GNUTLS_EXTENSION_MAX], above the
    internal id of every overlay entry and of every entry of the
    process-wide table that stands before the overridden one (of every
    entry, when the wire id is new to the table).  It is therefore above
    every internal id of both tiers unless an entry that was registered at
    run time, with an internal id above [GNUTLS_EXTENSION_MAX], stands at
    or behind the overridden entry.  The registration fails, and registers
    nothing, when an entry it read already has the last internal id
    [GNUTLS_EXTENSION_MAX_VALUE]. *)
Lemma session_ext_register_gid (extfunc : list hello_ext_entry_st)
    (session : gnutls_session_t)
    name' id pt recv' send' deinit' pack' unpack' flags ret session' :
  gids_in_range extfunc -> gids_in_range (rexts session) ->
  gnutls_session_ext_register GNUTLS_EXTENSION_MAX
    GNUTLS_EXTENSION_MAX_VALUE extfunc session name' id pt recv' send'
    deinit' pack' unpack' flags = (ret, session') ->
  (ret = 0 ->
   exists new, rexts session' = rexts session ++ [new]
     /\ GNUTLS_EXTENSION_MAX < gid new <= GNUTLS_EXTENSION_MAX_VALUE
     /\ (forall e, In e (scanned id extfunc ++ rexts session) ->
                   gid e < gid new)
     /\ ((forall e, In e extfunc ->
                    In e (scanned id extfunc)
                    \/ gid e <= GNUTLS_EXTENSION_MAX) ->
         forall e, In e (extfunc ++ rexts session) -> gid e < gid new))
  /\ ((exists e, In e (scanned id extfunc ++ rexts session)
                 /\ GNUTLS_EXTENSION_MAX_VALUE <= gid e) ->
      ret < 0 /\ session' = session).
Proof.
  intros Hr1 Hr2 H.
  assert (Hg0 : 0 <= GNUTLS_EXTENSION_MAX + 1) by lia.
  unfold gnutls_session_ext_register in H.
  destruct (session_register_scan id flags extfunc (GNUTLS_EXTENSION_MAX + 1))
    as [g1|] eqn:Hscan1.
  2:{ injection H as <- <-. split; [discriminate|].
      intros _. split; reflexivity. }
  destruct (session_register_scan_spec _ _ _ _ _ Hr1 Hg0 Hscan1) as (H1 & H2).
  destruct (register_scan id (rexts session) g1) as [g|] eqn:Hscan2.
  2:{ injection H as <- <-. split; [discriminate|].
      intros _. split; reflexivity. }
  assert (Hg1 : 0 <= g1) by lia.
  destruct (register_scan_spec _ _ _ _ Hr2 Hg1 Hscan2) as (H3 & H4 & _).
  destruct (Z.gtb_spec g GNUTLS_EXTENSION_MAX_VALUE) as [Hgt|Hle].
  { injection H as <- <-. split; [discriminate|].
    intros _. split; reflexivity. }
  injection H as <- <-. split.
  - intros _. eexists. split; [reflexivity|]. simpl. split; [lia|].
    assert (Habove : forall e, In e (scanned id extfunc ++ rexts session) ->
                               gid e < g).
    { intros e He. apply in_app_or in He as [He|He].
      - specialize (H2 e He). lia.
      - now apply H4. }
    split; [exact Habove|].
    intros Hbehind e He. apply in_app_or in He as [He|He].
    + destruct (Hbehind e He) as [Hs|Hs].
      * apply Habove. apply in_or_app. now left.
      * lia.
    + apply Habove. apply in_or_app. now right.
  - intros (e & He & Hbig). apply in_app_or in He as [He|He].
    + specialize (H2 e He). lia.
    + specialize (H4 e He). lia.
Qed.

End Registration.

(** ** What a registration leaves behind *)

Lemma find_app_none {A : Type} (f : A -> bool) (l1 l2 : list A) :
  (forall y, In y l1 -> f y = false) ->
  List.find f (l1 ++ l2) = List.find f l2.
Proof.
  induction l1 as [|a l1 IH]; intros H; [reflexivity|].
  simpl. rewrite (H a (or_introl eq_refl)). apply IH.
  intros y Hy. apply H. now right.
Qed.

Lemma find_app_some {A : Type} (f : A -> bool) (l1 l2 : list A) (x : A) :
  List.find f l1 = Some x -> List.find f (l1 ++ l2) = Some x.
Proof.
  induction l1 as [|a l1 IH]; [discriminate|].
  simpl. destruct (f a); [trivial | exact IH].
Qed.

Lemma table_until_null_registered (static added : list hello_ext_entry_st) :
  (forall e, In e static -> free_struct e = false) ->
  (forall e, In e added -> free_struct e = true) ->
  table_until_null (_gnutls_ext_deinit (static ++ added)) = static.
Proof.
  intros Hs Ha. unfold _gnutls_ext_deinit.
  induction static as [|e static IH]; simpl.
  - destruct added as [|a added]; [reflexivity|].
    simpl. now rewrite (Ha a (or_introl eq_refl)).
  - rewrite (Hs e (or_introl eq_refl)). f_equal. apply IH.
    intros x Hx. apply Hs. now right.
Qed.

Section RegistrationEffects.

Variable MAX_EXT_TYPES : nat.
Variable GNUTLS_EXTENSION_MAX : Z.
Variable GNUTLS_EXTENSION_MAX_VALUE : Z.

Hypothesis GNUTLS_EXTENSION_MAX_nonneg : 0 <= GNUTLS_EXTENSION_MAX.

Local Abbreviation register :=
  (gnutls_ext_register MAX_EXT_TYPES GNUTLS_EXTENSION_MAX
     GNUTLS_EXTENSION_MAX_VALUE).
Local Abbreviation session_register :=
  (gnutls_session_ext_register GNUTLS_EXTENSION_MAX
     GNUTLS_EXTENSION_MAX_VALUE).
Local Abbreviation default_validity :=
  (Z.lor GNUTLS_EXT_FLAG_CLIENT_HELLO
     (Z.lor GNUTLS_EXT_FLAG_TLS12_SERVER_HELLO GNUTLS_EXT_FLAG_EE)).

(** The four ways a process-wide registration ends. *)
Lemma gnutls_ext_register_cases extfunc name' id pt recv' send' deinit'
    pack' unpack' :
  let r := register extfunc name' id pt recv' send' deinit' pack' unpack' in
  (r = (GNUTLS_E_ALREADY_REGISTERED, extfunc)
   /\ exists e, In e extfunc /\ tls_id e = id)
  \/ (exists g,
        register_scan id extfunc (GNUTLS_EXTENSION_MAX + 1) = Some g
        /\ ((GNUTLS_EXTENSION_MAX_VALUE < g
             /\ r = (GNUTLS_E_MEMORY_ERROR, extfunc))
            \/ (g <= GNUTLS_EXTENSION_MAX_VALUE
                /\ to_uint32 (Z.of_nat MAX_EXT_TYPES - 1)
                   <= Z.of_nat (length extfunc)
                /\ r = (GNUTLS_E_INTERNAL_ERROR, extfunc))
            \/ (g <= GNUTLS_EXTENSION_MAX_VALUE
                /\ Z.of_nat (length extfunc)
                   < to_uint32 (Z.of_nat MAX_EXT_TYPES - 1)
                /\ r = (0, extfunc
                           ++ [mk_ext (Some name') true (to_uint16 id) g pt
                                 default_validity recv' send' deinit' pack'
                                 unpack' false])))).
Proof.
  intros r. subst r. unfold gnutls_ext_register.
  destruct (register_scan id extfunc (GNUTLS_EXTENSION_MAX + 1)) as [g|] eqn:Hscan.
  - right. exists g. split; [reflexivity|].
    destruct (Z.gtb_spec g GNUTLS_EXTENSION_MAX_VALUE) as [Hgt|Hle].
    + left. split; [lia | reflexivity].
    + right. unfold ext_register.
      destruct (Z.geb_spec (Z.of_nat (length extfunc))
                  (to_uint32 (Z.of_nat MAX_EXT_TYPES - 1))) as [Hge|Hlt].
      * left. repeat split; [lia | lia].
      * right. repeat split; [lia | lia].
  - left. split; [reflexivity|].
    exact (proj1 (register_scan_None _ _ _) Hscan).
Qed.

Lemma gnutls_ext_register_success extfunc name' id pt recv' send' deinit'
    pack' unpack' extfunc' :
  register extfunc name' id pt recv' send' deinit' pack' unpack'
  = (0, extfunc') ->
  exists g,
    register_scan id extfunc (GNUTLS_EXTENSION_MAX + 1) = Some g
    /\ g <= GNUTLS_EXTENSION_MAX_VALUE
    /\ Z.of_nat (length extfunc) < to_uint32 (Z.of_nat MAX_EXT_TYPES - 1)
    /\ extfunc' = extfunc
                  ++ [mk_ext (Some name') true (to_uint16 id) g pt
                        default_validity recv' send' deinit' pack' unpack'
                        false].
Proof.
  intros H.
  destruct (gnutls_ext_register_cases extfunc name' id pt recv' send' deinit'
              pack' unpack')
    as [[E _]|(g & Hscan & [[_ E]|[(_ & _ & E)|(Hg & Hlen & E)]])];
    rewrite H in E; try discriminate E.
  exists g. repeat split; try assumption. now injection E.
Qed.

Lemma register_scan_fresh_tls id exts g g' :
  register_scan id exts g = Some g' ->
  forall e, In e exts -> (tls_id e =? id) = false.
Proof.
  intros H e He. apply Z.eqb_neq. intros E.
  assert (Hnone : register_scan id exts g = None)
    by (apply register_scan_None; eauto).
  congruence.
Qed.

Lemma to_uint16_small (z : Z) : 0 <= z < 2 ^ 16 -> to_uint16 z = z.
Proof. intros H. unfold to_uint16. now apply Z.mod_small. Qed.

(** X10: [gnutls_ext_register] refuses a wire id that an entry of the
    process-wide table already carries, with
    [GNUTLS_E_ALREADY_REGISTERED], and leaves the table as it was; so, for
    a wire id that fits 16 bits, registering it a second time after a
    successful registration is refused, whatever the other arguments. *)
Theorem ext_register_already_registered extfunc name' id pt recv' send'
    deinit' pack' unpack' :
  ((exists e, In e extfunc /\ tls_id e = id) ->
   register extfunc name' id pt recv' send' deinit' pack' unpack'
   = (GNUTLS_E_ALREADY_REGISTERED, extfunc))
  /\ (0 <= id < 2 ^ 16 ->
      forall extfunc',
      register extfunc name' id pt recv' send' deinit' pack' unpack'
      = (0, extfunc') ->
      forall name2 pt2 recv2 send2 deinit2 pack2 unpack2,
      register extfunc' name2 id pt2 recv2 send2 deinit2 pack2 unpack2
      = (GNUTLS_E_ALREADY_REGISTERED, extfunc')).
Proof.
  assert (Hdup : forall t n p r s d pk u,
            (exists e, In e t /\ tls_id e = id) ->
            register t n id p r s d pk u = (GNUTLS_E_ALREADY_REGISTERED, t)).
  { intros t n p r s d pk u He. unfold gnutls_ext_register.
    now rewrite (proj2 (register_scan_None id t _) He). }
  split; [apply Hdup|].
  intros Hid extfunc' H name2 pt2 recv2 send2 deinit2 pack2 unpack2.
  apply gnutls_ext_register_success in H as (g & _ & _ & _ & ->).
  apply Hdup. eexists. split.
  - apply in_or_app. right. left. reflexivity.
  - simpl. now apply to_uint16_small.
Qed.

(** X11: a successful [gnutls_ext_register] makes the wire id known.  For
    a wire id that fits 16 bits: before, [gnutls_ext_get_name] returns
    [NULL] for it and it resolves to the internal id [0] in a session whose
    overlay does not carry it; after, [gnutls_ext_get_name] returns the
    name that was registered and the wire id resolves to an internal id
    above [GNUTLS_EXTENSION_MAX], at most [GNUTLS_EXTENSION_MAX_VALUE];
    the new entry is the only one with that wire id, is marked as
    allocated, and is valid for the client hello, the TLS 1.2 server hello
    and the encrypted extensions. *)
Theorem ext_register_makes_known extfunc name' id pt recv' send' deinit'
    pack' unpack' extfunc' :
  0 <= id < 2 ^ 16 ->
  gids_in_range extfunc ->
  register extfunc name' id pt recv' send' deinit' pack' unpack'
  = (0, extfunc') ->
  gnutls_ext_get_name extfunc id = None
  /\ gnutls_ext_get_name extfunc' id = Some name'
  /\ (forall session,
        (forall e, In e (rexts session) -> tls_id e <> id) ->
        tls_id_to_gid extfunc session id = 0
        /\ GNUTLS_EXTENSION_MAX < tls_id_to_gid extfunc' session id
           <= GNUTLS_EXTENSION_MAX_VALUE)
  /\ (forall e, In e extfunc' -> tls_id e = id ->
        free_struct e = true
        /\ validity e = default_validity
        /\ parse_type e = pt /\ recv_func e = recv' /\ send_func e = send'
        /\ deinit_func e = deinit' /\ pack_func e = pack'
        /\ unpack_func e = unpack').
Proof.
  intros Hid Hrange H.
  apply gnutls_ext_register_success in H as (g & Hscan & Hg & _ & ->).
  pose proof (register_scan_fresh_tls _ _ _ _ Hscan) as Hfresh.
  assert (Hg0 : 0 <= GNUTLS_EXTENSION_MAX + 1) by lia.
  destruct (register_scan_spec _ _ _ _ Hrange Hg0 Hscan) as (Hge & _ & _).
  assert (Hnew : (to_uint16 id =? id) = true)
    by (apply Z.eqb_eq; now apply to_uint16_small).
  split; [|split; [|split]].
  - unfold gnutls_ext_get_name. now rewrite (find_all_none _ _ Hfresh).
  - unfold gnutls_ext_get_name. rewrite (find_app_none _ _ _ Hfresh).
    simpl. now rewrite Hnew.
  - intros session Hover.
    assert (Hover' : forall e, In e (rexts session) -> (tls_id e =? id) = false)
      by (intros e He; apply Z.eqb_neq; now apply Hover).
    unfold tls_id_to_gid. rewrite !(find_all_none _ _ Hover').
    rewrite (find_all_none _ _ Hfresh), (find_app_none _ _ _ Hfresh).
    simpl. rewrite Hnew. simpl. lia.
  - intros e He Hw. apply in_app_or in He as [He|[<-|[]]].
    + exfalso. specialize (Hfresh e He). apply Z.eqb_neq in Hfresh. congruence.
    + simpl. repeat split.
Qed.

(** X12: the process-wide table never outgrows its array.  In a build with
    at least one and at most [2 ^ 32] slots, a successful
    [gnutls_ext_register] leaves fewer than [MAX_EXT_TYPES] entries in the
    table, and in a table that has [MAX_EXT_TYPES - 1] entries or more every
    registration fails and leaves the table as it was; the failure is
    [GNUTLS_E_INTERNAL_ERROR] when the wire id is new and an internal id is
    left. *)
Theorem ext_register_capacity extfunc name' id pt recv' send' deinit' pack'
    unpack' ret extfunc' :
  (1 <= MAX_EXT_TYPES)%nat -> Z.of_nat MAX_EXT_TYPES <= 2 ^ 32 ->
  register extfunc name' id pt recv' send' deinit' pack' unpack'
  = (ret, extfunc') ->
  (ret = 0 -> (length extfunc' < MAX_EXT_TYPES)%nat)
  /\ ((MAX_EXT_TYPES - 1 <= length extfunc)%nat ->
      ret < 0 /\ extfunc' = extfunc
      /\ (forall g,
            register_scan id extfunc (GNUTLS_EXTENSION_MAX + 1) = Some g ->
            g <= GNUTLS_EXTENSION_MAX_VALUE ->
            ret = GNUTLS_E_INTERNAL_ERROR)).
Proof.
  intros Hmin Hmax H.
  assert (Hcap : to_uint32 (Z.of_nat MAX_EXT_TYPES - 1)
                 = Z.of_nat MAX_EXT_TYPES - 1)
    by (unfold to_uint32; apply Z.mod_small; lia).
  destruct (gnutls_ext_register_cases extfunc name' id pt recv' send' deinit'
              pack' unpack')
    as [[E He]|(g & Hscan & [[Hg E]|[(Hg & Hlen & E)|(Hg & Hlen & E)]])];
    rewrite H in E; injection E as -> ->.
  - split; [discriminate|]. intros _. repeat split.
    intros g Hscan. destruct He as (e & He & Hw).
    pose proof (register_scan_fresh_tls _ _ _ _ Hscan e He) as Hne.
    apply Z.eqb_neq in Hne. congruence.
  - split; [discriminate|]. intros _. repeat split.
    intros g' Hscan' Hg'. rewrite Hscan in Hscan'. injection Hscan' as <-. lia.
  - split; [discriminate|]. intros _. repeat split.
  - split.
    + intros _. rewrite length_app. simpl. lia.
    + intros Hfull. lia.
Qed.

(** X13: [gnutls_ext_register] keeps the wire ids and the internal ids of
    the process-wide table pairwise distinct: if they are before a
    registration of a wire id that fits 16 bits, they are after it, whether
    it succeeded or not, and no internal id can wrap around afterwards. *)
Theorem ext_register_keeps_ids_distinct extfunc name' id pt recv' send'
    deinit' pack' unpack' ret extfunc' :
  0 <= id < 2 ^ 16 ->
  GNUTLS_EXTENSION_MAX_VALUE < 2 ^ 32 - 1 ->
  gids_in_range extfunc ->
  NoDup (map tls_id extfunc) -> NoDup (map gid extfunc) ->
  register extfunc name' id pt recv' send' deinit' pack' unpack'
  = (ret, extfunc') ->
  gids_in_range extfunc'
  /\ NoDup (map tls_id extfunc') /\ NoDup (map gid extfunc').
Proof.
  intros Hid Hmax Hrange Hw Hg H.
  destruct (gnutls_ext_register_cases extfunc name' id pt recv' send' deinit'
              pack' unpack')
    as [[E _]|(g & Hscan & [[_ E]|[(_ & _ & E)|(Hgle & _ & E)]])];
    rewrite H in E; injection E as -> ->; auto.
  assert (Hg0 : 0 <= GNUTLS_EXTENSION_MAX + 1) by lia.
  destruct (register_scan_spec _ _ _ _ Hrange Hg0 Hscan) as (_ & Hlt & Hne).
  split; [|split].
  - intros e He. apply in_app_or in He as [He|[<-|[]]]; [now apply Hrange|].
    simpl. lia.
  - rewrite map_app. apply NoDup_app. split; [assumption|].
    split; [|apply NoDup_singleton].
    intros w Hin Hin'. simpl in Hin'. apply list_elem_of_singleton in Hin'.
    apply list_elem_of_In, in_map_iff in Hin as (e & He & Hin).
    apply (Hne e Hin). rewrite He, Hin'. now apply to_uint16_small.
  - rewrite map_app. apply NoDup_app. split; [assumption|].
    split; [|apply NoDup_singleton].
    intros w Hin Hin'. simpl in Hin'. apply list_elem_of_singleton in Hin'.
    apply list_elem_of_In, in_map_iff in Hin as (e & He & Hin).
    specialize (Hlt e Hin). lia.
Qed.

(** *** Deinitialisation *)

Lemma register_all_appends regs :
  forall extfunc,
  exists added,
    register_all MAX_EXT_TYPES GNUTLS_EXTENSION_MAX GNUTLS_EXTENSION_MAX_VALUE
      regs extfunc = extfunc ++ added
    /\ forall e, In e added -> free_struct e = true.
Proof.
  induction regs as [|r regs IH]; intros extfunc.
  - exists []. split; [now rewrite app_nil_r | intros e []].
  - unfold register_all. cbn [fold_left].
    destruct (gnutls_ext_register_cases extfunc (reg_name r) (reg_id r)
                (reg_parse_type r) (reg_recv r) (reg_send r) (reg_deinit r)
                (reg_pack r) (reg_unpack r))
      as [[E _]|(g & Hscan & [[_ E]|[(_ & _ & E)|(_ & _ & E)]])];
      cbv zeta in E; rewrite E; cbn [snd].
    1-3: apply IH.
    destruct (IH (extfunc
                  ++ [mk_ext (Some (reg_name r)) true (to_uint16 (reg_id r)) g
                        (reg_parse_type r) default_validity (reg_recv r)
                        (reg_send r) (reg_deinit r) (reg_pack r)
                        (reg_unpack r) false]))
      as (added & Hadd & Hfree).
    eexists. split.
    + unfold register_all in Hadd. rewrite Hadd, <- app_assoc. reflexivity.
    + intros e [<-|He]; [reflexivity | now apply Hfree].
Qed.

(** X14: [_gnutls_ext_deinit] undoes every run-time registration and keeps
    every compiled-in entry.  From a table of compiled-in entries
    ([free_struct] zero), after any calls of [gnutls_ext_register], the
    table that is read after [_gnutls_ext_deinit] is the table of
    compiled-in entries again. *)
Theorem ext_deinit_restores_table extfunc regs :
  (forall e, In e extfunc -> free_struct e = false) ->
  table_until_null
    (_gnutls_ext_deinit
       (register_all MAX_EXT_TYPES GNUTLS_EXTENSION_MAX
          GNUTLS_EXTENSION_MAX_VALUE regs extfunc))
  = extfunc.
Proof.
  intros Hstatic.
  destruct (register_all_appends regs extfunc) as (added & -> & Hadded).
  now apply table_until_null_registered.
Qed.

(** *** Registration for a session *)

Lemma session_register_scan_ge id flags exts g g' :
  gids_in_range exts -> 0 <= g ->
  session_register_scan id flags exts g = Some g' -> g <= g'.
Proof.
  revert g. induction exts as [|e exts IH]; intros g Hr Hg H; simpl in H.
  - injection H as <-. lia.
  - assert (He : gid e < 2 ^ 32 - 1) by (apply Hr; now left).
    assert (Hr' : gids_in_range exts) by (intros x Hx; apply Hr; now right).
    destruct (tls_id e =? id).
    + destruct (Z.land flags GNUTLS_EXT_FLAG_OVERRIDE_INTERNAL =? 0);
        [discriminate|].
      destruct (cannot_be_overriden e); [discriminate|].
      injection H as <-. lia.
    + destruct (Z.geb_spec (gid e) g) as [Hge|Hlt].
      * assert (E : to_uint32 (gid e + 1) = gid e + 1)
          by (unfold to_uint32; apply Z.mod_small; lia).
        rewrite E in H. apply IH in H; [lia | assumption | lia].
      * now apply IH in H.
Qed.

(** The first loop refuses a wire id whose first entry in the process-wide
    table may not be overridden, or when the override was not asked for. *)
Lemma session_register_scan_refused id flags exts g e :
  List.find (fun x => tls_id x =? id) exts = Some e ->
  Z.land flags GNUTLS_EXT_FLAG_OVERRIDE_INTERNAL = 0
  \/ cannot_be_overriden e = true ->
  session_register_scan id flags exts g = None.
Proof.
  revert g. induction exts as [|a exts IH]; intros g Hfind Hwhy;
    [discriminate|].
  simpl in *. destruct (tls_id a =? id).
  - injection Hfind as ->. destruct Hwhy as [Hw | Hw]; rewrite Hw.
    + reflexivity.
    + now destruct (_ =? 0).
  - now apply IH.
Qed.

(** The ways a registration for a session ends. *)
Lemma session_ext_register_cases extfunc session name' id pt recv' send'
    deinit' pack' unpack' flags :
  let r := session_register extfunc session name' id pt recv' send' deinit'
             pack' unpack' flags in
  r = (GNUTLS_E_ALREADY_REGISTERED, session)
  \/ r = (GNUTLS_E_MEMORY_ERROR, session)
  \/ exists g1 g,
       session_register_scan id flags extfunc (GNUTLS_EXTENSION_MAX + 1)
       = Some g1
       /\ register_scan id (rexts session) g1 = Some g
       /\ g <= GNUTLS_EXTENSION_MAX_VALUE
       /\ r = (0, mk_session (state session)
                    (rexts session
                     ++ [mk_ext None true (to_uint16 id) g pt
                           (if Z.land flags VALIDITY_MASK =? 0
                            then default_validity else flags)
                           recv' send' deinit' pack' unpack' false])).
Proof.
  intros r. subst r. unfold gnutls_session_ext_register.
  destruct (session_register_scan id flags extfunc (GNUTLS_EXTENSION_MAX + 1))
    as [g1|]; [|now left].
  destruct (register_scan id (rexts session) g1) as [g|] eqn:Hscan;
    [|now left].
  destruct (Z.gtb_spec g GNUTLS_EXTENSION_MAX_VALUE) as [Hgt|Hle];
    [right; now left|].
  right. right. exists g1, g. repeat split; [assumption | lia].
Qed.

(** X15: a successful [gnutls_session_ext_register] takes effect in the
    session and nowhere else.  The role, the advertisement bitset and the
    private-data table are as before and the overlay has one more entry;
    for a wire id that fits 16 bits, the wire id then resolves to the
    internal id of the new entry, which is not [0], and that internal id
    resolves to the new entry, also when the process-wide table has an
    entry with the same wire id.  The entry has no name: the name given to
    the registration is not kept. *)
Theorem session_ext_register_resolves extfunc session name' id pt recv'
    send' deinit' pack' unpack' flags session' :
  0 <= id < 2 ^ 16 ->
  gids_in_range extfunc -> gids_in_range (rexts session) ->
  session_register extfunc session name' id pt recv' send' deinit' pack'
    unpack' flags = (0, session') ->
  state session' = state session
  /\ exists new,
       rexts session' = rexts session ++ [new]
       /\ tls_id new = id /\ name new = None
       /\ recv_func new = recv' /\ send_func new = send'
       /\ deinit_func new = deinit' /\ pack_func new = pack'
       /\ unpack_func new = unpack'
       /\ tls_id_to_gid extfunc session' id = gid new
       /\ GNUTLS_EXTENSION_MAX < gid new <= GNUTLS_EXTENSION_MAX_VALUE
       /\ _gnutls_ext_ptr extfunc session' (gid new) GNUTLS_EXT_ANY = Some new
       /\ _gnutls_ext_ptr extfunc session' (gid new) pt = Some new.
Proof.
  intros Hid Hr1 Hr2 H.
  destruct (session_ext_register_cases extfunc session name' id pt recv'
              send' deinit' pack' unpack' flags)
    as [E|[E|(g1 & g & Hscan1 & Hscan2 & Hg & E)]];
    cbv zeta in E; rewrite H in E; try discriminate E.
  injection E as ->. split; [reflexivity|].
  assert (Hg0 : 0 <= GNUTLS_EXTENSION_MAX + 1) by lia.
  pose proof (session_register_scan_ge _ _ _ _ _ Hr1 Hg0 Hscan1) as Hg1.
  assert (Hg1' : 0 <= g1) by lia.
  destruct (register_scan_spec _ _ _ _ Hr2 Hg1' Hscan2) as (Hge & Hlt & _).
  pose proof (register_scan_fresh_tls _ _ _ _ Hscan2) as Hfresh.
  eexists. split; [reflexivity|]. cbn [tls_id name recv_func send_func
    deinit_func pack_func unpack_func gid rexts].
  assert (Hw : to_uint16 id = id) by now apply to_uint16_small.
  assert (Hgid : forall e, In e (rexts session) -> (gid e =? g) = false).
  { intros e He. apply Z.eqb_neq. specialize (Hlt e He). lia. }
  repeat split; try assumption; try lia.
  - unfold tls_id_to_gid. cbn [rexts].
    rewrite (find_app_none _ _ _ Hfresh). simpl.
    rewrite Hw, Z.eqb_refl. reflexivity.
  - unfold _gnutls_ext_ptr. cbn [rexts].
    rewrite (find_app_none _ _ _ Hgid). simpl.
    rewrite Z.eqb_refl. reflexivity.
  - unfold _gnutls_ext_ptr. cbn [rexts].
    rewrite (find_app_none _ _ _ Hgid). simpl.
    rewrite Z.eqb_refl. cbn [parse_type].
    assert (E : parse_type_eqb pt pt = true) by now destruct pt.
    rewrite E, orb_true_r. reflexivity.
Qed.

(** X16: what [gnutls_session_ext_register] refuses, each time with
    [GNUTLS_E_ALREADY_REGISTERED] and the session as it was: a wire id of
    the process-wide table when the override flag is not given; a wire id
    whose first entry in the process-wide table may not be overridden, also
    with the flag; a wire id that the overlay of the session already
    carries; and so, for a wire id that fits 16 bits, a second registration
    of it in the same session. *)
Theorem session_ext_register_refuses extfunc session name' id pt recv'
    send' deinit' pack' unpack' flags :
  (forall e,
      List.find (fun x => tls_id x =? id) extfunc = Some e ->
      Z.land flags GNUTLS_EXT_FLAG_OVERRIDE_INTERNAL = 0
      \/ cannot_be_overriden e = true ->
      session_register extfunc session name' id pt recv' send' deinit' pack'
        unpack' flags = (GNUTLS_E_ALREADY_REGISTERED, session))
  /\ ((exists e, In e (rexts session) /\ tls_id e = id) ->
      session_register extfunc session name' id pt recv' send' deinit' pack'
        unpack' flags = (GNUTLS_E_ALREADY_REGISTERED, session))
  /\ (0 <= id < 2 ^ 16 ->
      forall session',
      session_register extfunc session name' id pt recv' send' deinit' pack'
        unpack' flags = (0, session') ->
      forall name2 pt2 recv2 send2 deinit2 pack2 unpack2 flags2,
      session_register extfunc session' name2 id pt2 recv2 send2 deinit2
        pack2 unpack2 flags2 = (GNUTLS_E_ALREADY_REGISTERED, session')).
Proof.
  assert (Hover : forall s n p r sd d pk u f,
            (exists e, In e (rexts s) /\ tls_id e = id) ->
            session_register extfunc s n id p r sd d pk u f
            = (GNUTLS_E_ALREADY_REGISTERED, s)).
  { intros s n p r sd d pk u f He. unfold gnutls_session_ext_register.
    destruct (session_register_scan id f extfunc (GNUTLS_EXTENSION_MAX + 1));
      [|reflexivity].
    now rewrite (proj2 (register_scan_None id (rexts s) _) He). }
  split; [|split].
  - intros e Hfind Hwhy. unfold gnutls_session_ext_register.
    now rewrite (session_register_scan_refused _ _ _ _ _ Hfind Hwhy).
  - apply Hover.
  - intros Hid session' H name2 pt2 recv2 send2 deinit2 pack2 unpack2 flags2.
    destruct (session_ext_register_cases extfunc session name' id pt recv'
                send' deinit' pack' unpack' flags)
      as [E|[E|(g1 & g & _ & _ & _ & E)]];
      cbv zeta in E; rewrite H in E; try discriminate E.
    injection E as ->. apply Hover. eexists. split.
    + cbn [rexts]. apply in_or_app. right. left. reflexivity.
    + simpl. now apply to_uint16_small.
Qed.

(** X17: an extension registered for a session can keep data in it.  After
    a successful [gnutls_session_ext_register] of a wire id that fits 16
    bits, a value stored with [gnutls_ext_set_data] under that wire id is
    what [gnutls_ext_get_data] returns, as long as a slot of the table holds
    the internal id of the new entry or is free. *)
Theorem session_ext_register_then_data extfunc session name' id pt recv'
    send' deinit' pack' unpack' flags session' data :
  0 <= id < 2 ^ 16 ->
  gids_in_range extfunc -> gids_in_range (rexts session) ->
  session_register extfunc session name' id pt recv' send' deinit' pack'
    unpack' flags = (0, session') ->
  slot_available (tls_id_to_gid extfunc session' id)
    (slots MAX_EXT_TYPES session') ->
  gnutls_ext_get_data MAX_EXT_TYPES extfunc
    (fst (gnutls_ext_set_data MAX_EXT_TYPES extfunc session' id data)) id
  = (0, Some data).
Proof.
  intros Hid Hr1 Hr2 H Hav.
  apply ext_set_get_data; [|assumption].
  destruct (session_ext_register_cases extfunc session name' id pt recv'
              send' deinit' pack' unpack' flags)
    as [E|[E|(g1 & g & Hscan1 & Hscan2 & Hg & E)]];
    cbv zeta in E; rewrite H in E; try discriminate E.
  injection E as ->.
  assert (Hg0 : 0 <= GNUTLS_EXTENSION_MAX + 1) by lia.
  pose proof (session_register_scan_ge _ _ _ _ _ Hr1 Hg0 Hscan1) as Hg1.
  assert (Hg1' : 0 <= g1) by lia.
  destruct (register_scan_spec _ _ _ _ Hr2 Hg1' Hscan2) as (Hge & _ & _).
  pose proof (register_scan_fresh_tls _ _ _ _ Hscan2) as Hfresh.
  unfold tls_id_to_gid. cbn [rexts].
  rewrite (find_app_none _ _ _ Hfresh). simpl.
  rewrite (to_uint16_small _ Hid), Z.eqb_refl. simpl. lia.
Qed.

End RegistrationEffects.

(** ** Sending *)

Section Send.

Variable UNSOLICITED_EXTENSION : Z.
Variable extfunc : list hello_ext_entry_st.
Variable ctx : hello_ext_ctx_st.

Hypothesis UNSOLICITED_EXTENSION_negative : UNSOLICITED_EXTENSION < 0.

Local Abbreviation append_ext d buf session :=
  (_gnutls_extv_append buf (tls_id d)
     (hello_ext_send UNSOLICITED_EXTENSION ctx d) session).



Lemma advertisement_check session d :
  (if is_server (state session)
   then _gnutls_extension_list_check UNSOLICITED_EXTENSION (state session) (gid d) <? 0
   else _gnutls_extension_list_check UNSOLICITED_EXTENSION (state session) (gid d) =? 0)
  = negb (advertisement_allows (entity (state session))
            (used_exts (state session)) d).
Proof.
  unfold is_server, advertisement_allows, _gnutls_extension_list_check.
  destruct (entity (state session));
    destruct (Z.testbit (used_exts (state session)) (gid d)); simpl;
    try reflexivity.
  - apply Z.ltb_lt. assumption.
  - apply Z.eqb_neq. lia.
Qed.

(** The two halves of the client-side rule: a descriptor whose internal id
    is already set in the bitset is skipped, and after a send operation that
    appended payload or returned the sentinel the bit is set. *)
Lemma hello_ext_send_skips_sent p session buf :
  entity (state session) = GNUTLS_CLIENT ->
  Z.testbit (used_exts (state session)) (gid p) = true ->
  hello_ext_send UNSOLICITED_EXTENSION ctx p session buf
  = (0, session, buf, []).
Proof.
  intros Hc Hbit. unfold hello_ext_send.
  destruct (send_func p); [|reflexivity].
  destruct (negb _ && negb _); [reflexivity|].
  destruct (Z.land _ _ =? 0); [reflexivity|].
  rewrite advertisement_check. unfold advertisement_allows.
  rewrite Hc, Hbit. reflexivity.
Qed.

Lemma testbit_advertised u g : 0 <= g -> Z.testbit (Z.lor u (Z.shiftl 1 g)) g = true.
Proof.
  intros Hg. rewrite Z.lor_spec, Z.shiftl_1_l, Z.pow2_bits_true by lia.
  apply orb_true_r.
Qed.

Lemma hello_ext_send_marks_sent p session buf send :
  entity (state session) = GNUTLS_CLIENT -> 0 <= gid p ->
  send_func p = Some send -> send_eligible ctx p = true ->
  Z.testbit (used_exts (state session)) (gid p) = false ->
  entity (snd (fst (send (state session) buf))) = GNUTLS_CLIENT ->
  produced (fst (fst (send (state session) buf))) buf
    (snd (send (state session) buf)) = true ->
  (fst (fst (send (state session) buf)) <? 0)
  && negb (fst (fst (send (state session) buf)) =? GNUTLS_E_INT_RET_0)
  = false ->
  exists session',
    hello_ext_send UNSOLICITED_EXTENSION ctx p session buf
    = (fst (fst (send (state session) buf)), session',
       snd (send (state session) buf), [call_send p])
    /\ Z.testbit (used_exts (state session')) (gid p) = true.
Proof.
  intros Hc Hg Hsend Hel Hbit Hc' Hprod Hok.
  unfold hello_ext_send. unfold send_eligible in Hel. rewrite Hsend in *.
  apply andb_true_iff in Hel as [Hel Hval].
  apply andb_true_iff in Hel as [_ Hpc].
  rewrite <- negb_orb, Hpc. cbn [negb].
  apply negb_true_iff in Hval. rewrite Hval.
  rewrite advertisement_check. unfold advertisement_allows.
  rewrite Hc, Hbit. cbn [negb].
  destruct (send (state session) buf) as [[ret st] buf'].
  simpl in Hc', Hprod, Hok. rewrite Hok.
  unfold produced in Hprod. rewrite Hprod.
  unfold is_client. rewrite Hc'. cbn [andb].
  eexists. split; [reflexivity|].
  simpl. apply testbit_advertised. assumption.
Qed.




Lemma testbit_advertise u g m :
  m <> g -> Z.testbit (Z.lor u (Z.shiftl 1 g)) m = Z.testbit u m.
Proof.
  intros Hne. rewrite Z.lor_spec.
  destruct (Z_lt_dec m 0) as [Hm|Hm].
  - now rewrite !Z.testbit_neg_r by lia.
  - destruct (Z_lt_dec g 0) as [Hg|Hg].
    + rewrite Z.shiftl_spec by lia.
      replace (Z.testbit 1 (m - g)) with false; [apply orb_false_r|].
      symmetry. change 1 with (2 ^ 0). rewrite Z.pow2_bits_eqb by lia.
      apply Z.eqb_neq. lia.
    + rewrite Z.shiftl_1_l, Z.pow2_bits_eqb by lia.
      replace (g =? m) with false; [apply orb_false_r|].
      symmetry. apply Z.eqb_neq. lia.
Qed.

End Send.

(** ** A send operation that fails *)

Section SendFailure.

Variable UNSOLICITED_EXTENSION : Z.
Variable extfunc : list hello_ext_entry_st.

Hypothesis UNSOLICITED_EXTENSION_negative : UNSOLICITED_EXTENSION < 0.

Local Abbreviation send_loop :=
  (gen_extensions_loop UNSOLICITED_EXTENSION).

Lemma gen_extensions_loop_app ctx l1 l2 session buf :
  send_loop ctx (l1 ++ l2) session buf
  = let '(ret, session1, buf1, tr1) := send_loop ctx l1 session buf in
    if ret <? 0 then (ret, session1, buf1, tr1)
    else
      let '(ret, session2, buf2, tr2) := send_loop ctx l2 session1 buf1 in
      (ret, session2, buf2, tr1 ++ tr2).
Proof.
  revert session buf. induction l1 as [|e l1 IH]; intros session buf.
  - cbn. now destruct (send_loop ctx l2 session buf) as [[[? ?] ?] ?].
  - cbn [app gen_extensions_loop].
    destruct (_gnutls_extv_append buf (tls_id e) _ session)
      as [[[r s1] b1] t1].
    destruct (r <? 0) eqn:Hr; [now rewrite Hr|].
    rewrite IH.
    destruct (send_loop ctx l1 s1 b1) as [[[r1 s2] b2] t2].
    destruct (r1 <? 0); [reflexivity|].
    destruct (send_loop ctx l2 s2 b2) as [[[r2 s3] b3] t3].
    now rewrite app_assoc.
Qed.

(** The two loops of [_gnutls_gen_extensions] are one walk over the
    overlay followed by the process-wide table. *)
Lemma gen_extensions_one_loop session buf msg pt :
  _gnutls_gen_extensions UNSOLICITED_EXTENSION extfunc session buf msg pt
  = let '(ret, session1, buf1, tr) :=
      send_loop (mk_ctx msg pt) (rexts session ++ extfunc) session
        (buf ++ uint16_bytes 0) in
    if ret <? 0 then (ret, session1, buf1, tr)
    else (0, session1, _gnutls_extv_append_final buf1 (length buf), tr).
Proof.
  unfold _gnutls_gen_extensions, _gnutls_extv_append_init.
  rewrite gen_extensions_loop_app.
  destruct (send_loop (mk_ctx msg pt) (rexts session) session _)
    as [[[r s1] b1] t1].
  destruct (r <? 0) eqn:Hr; [now rewrite Hr|].
  destruct (send_loop (mk_ctx msg pt) extfunc s1 b1) as [[[r2 s2] b2] t2].
  reflexivity.
Qed.

(** The send callback returns the failure of a send operation and leaves
    the state as the operation left it. *)
Lemma hello_ext_send_failure ctx p session buf send :
  send_func p = Some send ->
  send_eligible ctx p = true ->
  advertisement_allows (entity (state session)) (used_exts (state session)) p
  = true ->
  fst (fst (send (state session) buf)) < 0 ->
  fst (fst (send (state session) buf)) <> GNUTLS_E_INT_RET_0 ->
  hello_ext_send UNSOLICITED_EXTENSION ctx p session buf
  = (fst (fst (send (state session) buf)),
     set_state session (snd (fst (send (state session) buf))),
     snd (send (state session) buf), [call_send p]).
Proof.
  intros Hsend Hel Had Hneg Hsent. unfold hello_ext_send.
  unfold send_eligible in Hel. rewrite Hsend in *.
  apply andb_true_iff in Hel as [Hel Hval].
  apply andb_true_iff in Hel as [_ Hclass].
  apply orb_true_iff in Hclass.
  assert (Hskip : negb (parse_type_eqb (ctx_parse_type ctx) GNUTLS_EXT_ANY)
                  && negb (parse_type_eqb (parse_type p) (ctx_parse_type ctx))
                  = false).
  { destruct Hclass as [->| ->]; [reflexivity | apply andb_false_r]. }
  rewrite Hskip. apply negb_true_iff in Hval. rewrite Hval.
  rewrite (advertisement_check _ UNSOLICITED_EXTENSION_negative), Had.
  cbn [negb].
  destruct (send (state session) buf) as [[ret st] buf'].
  cbn [fst snd] in *.
  assert (E1 : (ret <? 0) = true) by (apply Z.ltb_lt; lia).
  assert (E2 : (ret =? GNUTLS_E_INT_RET_0) = false) by (now apply Z.eqb_neq).
  now rewrite E1, E2.
Qed.

(** X25: the first send operation that fails ends the emission.  When
    the walk over the overlay and the process-wide table reaches, without
    error, a descriptor that passes the filters of the send callback and
    whose send operation returns a negative result other than the
    sentinel [GNUTLS_E_INT_RET_0], [_gnutls_gen_extensions] returns that
    result; the internal id is not added to the advertisement bitset by the
    engine, and no send operation of a later descriptor is invoked. *)
Theorem gen_extensions_first_failure session buf msg pt pre d post send
    ret1 session1 buf1 tr1 :
  rexts session ++ extfunc = pre ++ d :: post ->
  send_loop (mk_ctx msg pt) pre session (buf ++ uint16_bytes 0)
  = (ret1, session1, buf1, tr1) ->
  0 <= ret1 ->
  send_func d = Some send ->
  send_eligible (mk_ctx msg pt) d = true ->
  advertisement_allows (entity (state session1)) (used_exts (state session1)) d
  = true ->
  let r := send (state session1)
             ((buf1 ++ uint16_bytes (tls_id d)) ++ uint16_bytes 0) in
  fst (fst r) < 0 -> fst (fst r) <> GNUTLS_E_INT_RET_0 ->
  _gnutls_gen_extensions UNSOLICITED_EXTENSION extfunc session buf msg pt
  = (fst (fst r), set_state session1 (snd (fst r)), snd r,
     tr1 ++ [call_send d]).
Proof.
  intros Hsplit Hpre Hret1 Hsend Hel Had r Hneg Hsent. subst r.
  rewrite gen_extensions_one_loop, Hsplit, gen_extensions_loop_app, Hpre.
  destruct (Z.ltb_spec ret1 0) as [|_]; [lia|].
  cbn [gen_extensions_loop]. unfold _gnutls_extv_append.
  rewrite (hello_ext_send_failure _ _ _ _ _ Hsend Hel Had Hneg Hsent).
  assert (E1 : (fst (fst (send (state session1)
                            ((buf1 ++ uint16_bytes (tls_id d))
                             ++ uint16_bytes 0))) <? 0) = true)
    by (apply Z.ltb_lt; lia).
  assert (E2 : (fst (fst (send (state session1)
                            ((buf1 ++ uint16_bytes (tls_id d))
                             ++ uint16_bytes 0))) =? GNUTLS_E_INT_RET_0)
               = false) by (now apply Z.eqb_neq).
  rewrite E1, E2. cbn [negb andb]. cbv iota. rewrite E1. cbv iota.
  rewrite E1. reflexivity.
Qed.

End SendFailure.

(** ** The order of emission *)

Section Emission.

Variable UNSOLICITED_EXTENSION : Z.
Variable extfunc : list hello_ext_entry_st.
Variable ctx : hello_ext_ctx_st.

Hypothesis UNSOLICITED_EXTENSION_negative : UNSOLICITED_EXTENSION < 0.

Local Abbreviation append_ext d buf session :=
  (_gnutls_extv_append buf (tls_id d)
     (hello_ext_send UNSOLICITED_EXTENSION ctx d) session).

(** The state of a client after it marked the internal id of [d]. *)
Local Abbreviation marked st d :=
  (set_used_exts st (Z.lor (used_exts st) (Z.shiftl 1 (gid d)))).









End Emission.

(** ** A block that is accepted *)

Section ParseOrder.

Variable UNSOLICITED_EXTENSION : Z.
Variable MALFORMED_EXTENSION_BLOCK : Z.
Variable extfunc : list hello_ext_entry_st.

Hypothesis UNSOLICITED_EXTENSION_negative : UNSOLICITED_EXTENSION < 0.

Local Abbreviation parse := (hello_ext_parse UNSOLICITED_EXTENSION extfunc).
Local Abbreviation to_gid := (tls_id_to_gid extfunc).
Local Abbreviation ext_ptr := (_gnutls_ext_ptr extfunc).

(** What makes a record acceptable in a pass: its wire id is known, its
    descriptor is found for the parse class, has a receive operation that
    accepts, and is valid for the message. *)
Local Abbreviation acceptable ctx session r :=
  (to_gid session (fst r) <> 0
   /\ exists d recv,
        dispatched extfunc session (ctx_parse_type ctx) r = Some d
        /\ recv_func d = Some recv
        /\ Z.land (validity d) (ctx_msg ctx) <> 0
        /\ recv_accepts d).

Lemma hello_ext_parse_accepts ctx r session :
  acceptable ctx session r ->
  match entity (state session) with
  | GNUTLS_SERVER =>
      Z.testbit (used_exts (state session)) (to_gid session (fst r)) = false
  | GNUTLS_CLIENT =>
      Z.testbit (used_exts (state session)) (to_gid session (fst r)) = true
  end ->
  exists st',
    parse ctx (fst r) (snd r) session
    = (0, set_state session st',
       recv_events extfunc session (ctx_parse_type ctx) [r])
    /\ entity st' = entity (state session)
    /\ used_exts st'
       = match entity (state session) with
         | GNUTLS_SERVER =>
             Z.lor (used_exts (state session))
               (Z.shiftl 1 (to_gid session (fst r)))
         | GNUTLS_CLIENT => used_exts (state session)
         end.
Proof.
  intros (Hid & d & recv & Hptr & Hrecv & Hval & Hacc) Hbit.
  unfold recv_events. cbn [flat_map]. rewrite Hptr, app_nil_r.
  unfold dispatched in Hptr.
  pose proof (ext_ptr_found_gid _ _ _ _ _ Hptr) as Hgid.
  unfold hello_ext_parse.
  destruct (Z.eqb_spec (to_gid session (fst r)) 0) as [|_]; [contradiction|].
  unfold is_client, is_server.
  destruct (entity (state session)) eqn:Hrole.
  - change (0 <? 0) with false. cbv iota. rewrite Hptr, Hrecv.
    destruct (Z.eqb_spec (Z.land (validity d) (ctx_msg ctx)) 0) as [|_];
      [contradiction|].
    unfold _gnutls_extension_list_add, _gnutls_extension_list_check.
    rewrite Hgid, Hbit.
    destruct (Z.eqb_spec UNSOLICITED_EXTENSION 0) as [|_]; [lia|].
    cbn [andb]. change (1 =? 0) with false. cbv iota.
    destruct (Hacc recv
                (set_used_exts (state session)
                   (Z.lor (used_exts (state session))
                      (Z.shiftl 1 (to_gid session (fst r)))))
                (snd r) Hrecv) as (Hret & Hent & Hused).
    destruct (recv _ (snd r)) as [ret st']. cbn [fst snd] in *.
    exists st'. destruct (Z.ltb_spec ret 0); [lia|].
    repeat split; [rewrite Hent; exact Hrole | rewrite Hused; reflexivity].
  - unfold _gnutls_extension_list_check. rewrite Hbit.
    change (0 <? 0) with false. cbv iota. rewrite Hptr, Hrecv.
    destruct (Z.eqb_spec (Z.land (validity d) (ctx_msg ctx)) 0) as [|_];
      [contradiction|].
    change (1 =? 0) with false. cbv iota.
    destruct (Hacc recv (state session) (snd r) Hrecv) as (Hret & Hent & Hused).
    destruct (recv _ (snd r)) as [ret st']. cbn [fst snd] in *.
    exists st'. destruct (Z.ltb_spec ret 0); [lia|].
    repeat split; [rewrite Hent; exact Hrole | exact Hused].
Qed.

Lemma received_unset u gids g :
  ~ In g gids -> Z.testbit (received u gids) g = Z.testbit u g.
Proof.
  revert u. induction gids as [|a gids IH]; intros u Hn; [reflexivity|].
  cbn [received fold_left]. fold (received (Z.lor u (Z.shiftl 1 a)) gids).
  rewrite IH by (intros H; apply Hn; now right).
  apply testbit_advertise. intros ->. apply Hn. now left.
Qed.

Lemma extv_parse_server_in_order ctx recs :
  Forall record_fits recs ->
  forall session fuel,
  entity (state session) = GNUTLS_SERVER ->
  (forall r, In r recs -> acceptable ctx session r) ->
  NoDup (map (fun r => to_gid session (fst r)) recs) ->
  (forall r, In r recs ->
     Z.testbit (used_exts (state session)) (to_gid session (fst r)) = false) ->
  (length recs <= fuel)%nat ->
  exists session',
    extv_parse_records MALFORMED_EXTENSION_BLOCK fuel (parse ctx)
      (encode_block recs) session
    = (0, session', recv_events extfunc session (ctx_parse_type ctx) recs)
    /\ rexts session' = rexts session
    /\ entity (state session') = GNUTLS_SERVER
    /\ used_exts (state session')
       = received (used_exts (state session))
           (map (fun r => to_gid session (fst r)) recs).
Proof.
  intros Hfit. induction Hfit as [|r recs Hr Hfit IH];
    intros session fuel Hrole Hacc Hnd Hbits Hfuel.
  - exists session. rewrite extv_parse_records_nil. repeat split. exact Hrole.
  - destruct fuel as [|fuel]; [simpl in Hfuel; lia|].
    change (encode_block (r :: recs)) with (encode_record r ++ encode_block recs).
    rewrite (extv_parse_records_step _ _ _ _ _ _ Hr).
    destruct (hello_ext_parse_accepts ctx r session
                (Hacc r (or_introl eq_refl)))
      as (st' & Hparse & Hent & Hused).
    { rewrite Hrole. apply Hbits. now left. }
    rewrite Hrole in Hent, Hused. rewrite Hparse.
    change (0 <? 0) with false. cbv iota.
    cbn [map] in Hnd. apply NoDup_cons in Hnd as [Hnew Hnd].
    destruct (IH (set_state session st') fuel) as (s' & Hrest & Hrexts & Hrole' & Hused').
    + exact Hent.
    + intros x Hx. apply (Hacc x). now right.
    + exact Hnd.
    + intros x Hx. cbn [state set_state]. rewrite Hused.
      change (to_gid (set_state session st') (fst x))
        with (to_gid session (fst x)).
      rewrite testbit_advertise; [apply Hbits; now right|].
      intros E. apply Hnew. rewrite <- E.
      apply list_elem_of_In, in_map_iff. exists x. split; [reflexivity | exact Hx].
    + simpl in Hfuel. lia.
    + exists s'. split; [|split; [|split]].
      * rewrite Hrest. unfold recv_events. cbn [flat_map].
        rewrite app_nil_r. reflexivity.
      * exact Hrexts.
      * exact Hrole'.
      * rewrite Hused'. unfold received.
        cbn [map fold_left state set_state]. rewrite Hused. reflexivity.
Qed.

Lemma extv_parse_client_in_order ctx recs :
  Forall record_fits recs ->
  forall session fuel,
  entity (state session) = GNUTLS_CLIENT ->
  (forall r, In r recs -> acceptable ctx session r) ->
  (forall r, In r recs ->
     Z.testbit (used_exts (state session)) (to_gid session (fst r)) = true) ->
  (length recs <= fuel)%nat ->
  exists session',
    extv_parse_records MALFORMED_EXTENSION_BLOCK fuel (parse ctx)
      (encode_block recs) session
    = (0, session', recv_events extfunc session (ctx_parse_type ctx) recs)
    /\ rexts session' = rexts session
    /\ entity (state session') = GNUTLS_CLIENT
    /\ used_exts (state session') = used_exts (state session).
Proof.
  intros Hfit. induction Hfit as [|r recs Hr Hfit IH];
    intros session fuel Hrole Hacc Hbits Hfuel.
  - exists session. rewrite extv_parse_records_nil. repeat split. exact Hrole.
  - destruct fuel as [|fuel]; [simpl in Hfuel; lia|].
    change (encode_block (r :: recs)) with (encode_record r ++ encode_block recs).
    rewrite (extv_parse_records_step _ _ _ _ _ _ Hr).
    destruct (hello_ext_parse_accepts ctx r session
                (Hacc r (or_introl eq_refl)))
      as (st' & Hparse & Hent & Hused).
    { rewrite Hrole. apply Hbits. now left. }
    rewrite Hrole in Hent, Hused. rewrite Hparse.
    change (0 <? 0) with false. cbv iota.
    destruct (IH (set_state session st') fuel) as (s' & Hrest & Hrexts & Hrole' & Hused').
    + exact Hent.
    + intros x Hx. apply (Hacc x). now right.
    + intros x Hx. cbn [state set_state]. rewrite Hused.
      apply Hbits. now right.
    + simpl in Hfuel. lia.
    + exists s'. split; [|split; [|split]].
      * rewrite Hrest. unfold recv_events. cbn [flat_map].
        rewrite app_nil_r. reflexivity.
      * exact Hrexts.
      * exact Hrole'.
      * rewrite Hused'. cbn [state set_state]. exact Hused.
Qed.

(** X26: a server dispatches a client's extensions in order and records
    them.  On a server-side session, for a block of well-formed records
    with known wire ids that resolve to pairwise distinct internal ids not
    yet set in the advertisement bitset, each with a descriptor found for
    the parse class, valid for the message, with a receive operation that
    accepts and leaves the role and the bitset alone:
    [_gnutls_parse_extensions] returns [0], the receive operations were
    invoked once per record, in the order of the block, each on the body of
    its record, the overlay is as before, and the bitset is the one before
    with the bits of these internal ids set. *)
Theorem parse_extensions_server_in_order session msg pt recs :
  entity (state session) = GNUTLS_SERVER ->
  Forall record_fits recs ->
  (forall r, In r recs ->
     tls_id_to_gid extfunc session (fst r) <> 0
     /\ exists d recv,
          dispatched extfunc session pt r = Some d
          /\ recv_func d = Some recv
          /\ Z.land (validity d) msg <> 0
          /\ recv_accepts d) ->
  NoDup (map (fun r => tls_id_to_gid extfunc session (fst r)) recs) ->
  (forall r, In r recs ->
     Z.testbit (used_exts (state session))
       (tls_id_to_gid extfunc session (fst r)) = false) ->
  exists session',
    _gnutls_parse_extensions UNSOLICITED_EXTENSION MALFORMED_EXTENSION_BLOCK
      extfunc session msg pt (encode_block recs)
    = (0, session', recv_events extfunc session pt recs)
    /\ rexts session' = rexts session
    /\ entity (state session') = GNUTLS_SERVER
    /\ used_exts (state session')
       = received (used_exts (state session))
           (map (fun r => tls_id_to_gid extfunc session (fst r)) recs).
Proof.
  intros Hrole Hfit Hacc Hnd Hbits.
  destruct (extv_parse_server_in_order (mk_ctx msg pt) recs Hfit session
              (length (encode_block recs)) Hrole Hacc Hnd Hbits
              (length_encode_block recs))
    as (s' & Hrun & Hrest).
  exists s'. split; [|exact Hrest].
  unfold _gnutls_parse_extensions, _gnutls_extv_parse.
  cbn [ctx_parse_type] in Hrun. now rewrite Hrun.
Qed.

(** X27: a client accepts what it advertised.  On a client-side session,
    for a block of well-formed records with known wire ids whose internal
    ids are all set in the advertisement bitset, each with a descriptor
    found for the parse class, valid for the message, with a receive
    operation that accepts and leaves the role and the bitset alone:
    [_gnutls_parse_extensions] returns [0], the receive operations were
    invoked once per record, in the order of the block, and the bitset is
    as before; a wire id that occurs twice in the block is received
    twice. *)
Theorem parse_extensions_client_in_order session msg pt recs :
  entity (state session) = GNUTLS_CLIENT ->
  Forall record_fits recs ->
  (forall r, In r recs ->
     tls_id_to_gid extfunc session (fst r) <> 0
     /\ exists d recv,
          dispatched extfunc session pt r = Some d
          /\ recv_func d = Some recv
          /\ Z.land (validity d) msg <> 0
          /\ recv_accepts d) ->
  (forall r, In r recs ->
     Z.testbit (used_exts (state session))
       (tls_id_to_gid extfunc session (fst r)) = true) ->
  exists session',
    _gnutls_parse_extensions UNSOLICITED_EXTENSION MALFORMED_EXTENSION_BLOCK
      extfunc session msg pt (encode_block recs)
    = (0, session', recv_events extfunc session pt recs)
    /\ rexts session' = rexts session
    /\ entity (state session') = GNUTLS_CLIENT
    /\ used_exts (state session') = used_exts (state session).
Proof.
  intros Hrole Hfit Hacc Hbits.
  destruct (extv_parse_client_in_order (mk_ctx msg pt) recs Hfit session
              (length (encode_block recs)) Hrole Hacc Hbits
              (length_encode_block recs))
    as (s' & Hrun & Hrest).
  exists s'. split; [|exact Hrest].
  unfold _gnutls_parse_extensions, _gnutls_extv_parse.
  cbn [ctx_parse_type] in Hrun. now rewrite Hrun.
Qed.

End ParseOrder.

(** ** Packing for resumption *)

Section Pack.

Variable MAX_EXT_TYPES : nat.
Variable GNUTLS_EXTENSION_MAX_VALUE : Z.
Variable extfunc : list hello_ext_entry_st.

Local Abbreviation ext_ptr := (_gnutls_ext_ptr extfunc).
Local Abbreviation get_live := (_gnutls_ext_get_session_data MAX_EXT_TYPES).
Local Abbreviation packs' := (packs MAX_EXT_TYPES extfunc).
Local Abbreviation record := (packed_record MAX_EXT_TYPES extfunc).

Lemma get_session_data_cases session id :
  (exists p, get_live session id = (0, Some p))
  \/ get_live session id = (GNUTLS_E_REQUESTED_DATA_NOT_AVAILABLE, None).
Proof.
  unfold _gnutls_ext_get_session_data.
  destruct (List.find _ _); [left; eauto | now right].
Qed.

(** The record [pack_extension] writes for a descriptor with a well-behaved
    pack operation. *)
Lemma pack_extension_record session e b pack p :
  pack_appends e ->
  pack_func e = Some pack ->
  live_data MAX_EXT_TYPES session (gid e) = Some p ->
  pack_extension MAX_EXT_TYPES session e b
  = (1, b ++ uint32_bytes (gid e)
          ++ uint32_bytes (Z.of_nat (length (pack_output e p)))
          ++ pack_output e p).
Proof.
  intros Happ Hpack Hlive. unfold pack_extension, live_data in *.
  destruct (get_session_data_cases session (gid e)) as [[q Hq]|Hq];
    rewrite Hq in *; simpl in Hlive; [|discriminate].
  injection Hlive as ->. rewrite Hpack.
  change (0 <=? 0) with true. cbv iota.
  unfold BUFFER_APPEND_NUM.
  destruct (Happ pack p ((b ++ uint32_bytes (gid e)) ++ uint32_bytes 0) Hpack)
    as [Hret Hout].
  destruct (pack p ((b ++ uint32_bytes (gid e)) ++ uint32_bytes 0))
    as [ret packed] eqn:E.
  simpl in Hret, Hout. subst packed.
  destruct (Z.ltb_spec ret 0) as [|_]; [lia|].
  f_equal.
  rewrite length_app.
  replace (Z.of_nat (length ((b ++ uint32_bytes (gid e)) ++ uint32_bytes 0)
                     + length (pack_output e p))
           - Z.of_nat (length ((b ++ uint32_bytes (gid e)) ++ uint32_bytes 0)))
    with (Z.of_nat (length (pack_output e p))) by lia.
  rewrite <- (app_assoc (b ++ uint32_bytes (gid e))).
  rewrite write_uint32_app. now rewrite <- app_assoc.
Qed.

Lemma pack_extension_nothing session e b :
  pack_func e = None \/ live_data MAX_EXT_TYPES session (gid e) = None ->
  pack_extension MAX_EXT_TYPES session e b = (0, b).
Proof.
  unfold pack_extension, live_data.
  destruct (get_session_data_cases session (gid e)) as [[q Hq]|Hq];
    rewrite Hq; simpl.
  - intros [->|H]; [reflexivity | discriminate].
  - intros _. reflexivity.
Qed.

(** The loop of the pack walk, with well-behaved pack operations. *)
Lemma ext_pack_loop_records session ids :
  (forall i e, pack_candidate extfunc session i = Some e -> pack_appends e) ->
  forall n b,
  ext_pack_loop MAX_EXT_TYPES extfunc session ids n b
  = (0, n + Z.of_nat (length (List.filter (packs' session) ids)),
     b ++ concat (map (record session) (List.filter (packs' session) ids))).
Proof.
  intros Hwb. induction ids as [|i ids IH]; intros n b.
  - simpl. now rewrite Z.add_0_r, app_nil_r.
  - cbn [ext_pack_loop List.filter].
    destruct (Z.testbit (used_exts (state session)) i) eqn:Hbit.
    2:{ replace (packs' session i) with false
          by (unfold packs, pack_candidate; now rewrite Hbit).
        apply IH. }
    destruct (ext_ptr session i GNUTLS_EXT_ANY) as [e|] eqn:Hptr.
    2:{ replace (packs' session i) with false
          by (unfold packs, pack_candidate; now rewrite Hbit, Hptr).
        apply IH. }
    destruct (pack_func e) as [pack|] eqn:Hpack.
    2:{ replace (packs' session i) with false
          by (unfold packs, pack_candidate; now rewrite Hbit, Hptr, Hpack).
        rewrite pack_extension_nothing by now left.
        change (0 <? 0) with false. cbv iota. apply IH. }
    destruct (live_data MAX_EXT_TYPES session (gid e)) as [p|] eqn:Hlive.
    2:{ replace (packs' session i) with false
          by (unfold packs, pack_candidate;
              now rewrite Hbit, Hptr, Hpack, Hlive).
        rewrite pack_extension_nothing by now right.
        change (0 <? 0) with false. cbv iota. apply IH. }
    replace (packs' session i) with true
      by (unfold packs, pack_candidate; now rewrite Hbit, Hptr, Hpack, Hlive).
    assert (Hcand : pack_candidate extfunc session i = Some e)
      by (unfold pack_candidate; now rewrite Hbit, Hptr, Hpack).
    rewrite (pack_extension_record _ _ _ _ _ (Hwb _ _ Hcand) Hpack Hlive).
    change (1 <? 0) with false. change (0 <? 1) with true. cbv iota.
    rewrite IH. cbn [map concat length].
    replace (record session i)
      with (uint32_bytes (gid e)
            ++ uint32_bytes (Z.of_nat (length (pack_output e p)))
            ++ pack_output e p)
      by (unfold packed_record, pack_candidate;
          now rewrite Hbit, Hptr, Hpack, Hlive).
    f_equal; [f_equal; lia|]. now rewrite <- !app_assoc.
Qed.

(** The blob of the pack walk. *)
Lemma ext_pack_blob session buf :
  (forall i e, pack_candidate extfunc session i = Some e -> pack_appends e) ->
  _gnutls_ext_pack MAX_EXT_TYPES GNUTLS_EXTENSION_MAX_VALUE extfunc session buf
  = (0, buf
        ++ uint32_bytes
             (Z.of_nat (length (List.filter (packs' session)
                                  (internal_ids GNUTLS_EXTENSION_MAX_VALUE))))
        ++ concat (map (record session)
                     (List.filter (packs' session)
                        (internal_ids GNUTLS_EXTENSION_MAX_VALUE)))).
Proof.
  intros Hwb. unfold _gnutls_ext_pack, BUFFER_APPEND_NUM.
  rewrite ext_pack_loop_records by assumption.
  change (0 <? 0) with false. cbv iota.
  rewrite <- app_assoc, write_uint32_app. reflexivity.
Qed.

(** C8, as the code has it: with pack operations that succeed and append
    their output, the pack walk goes through the internal ids
    [0 .. GNUTLS_EXTENSION_MAX_VALUE] and writes, for every id that is set in
    the advertisement bitset, whose descriptor is found and has a pack
    operation, and for which live private data is set, the record
    (internal id: u32, length: u32, pack output); the records are preceded
    by the 32-bit count of the records written.  A record with an empty pack
    output is counted and written like the others. *)
Theorem ext_pack_format session buf :
  (forall i e, pack_candidate extfunc session i = Some e -> pack_appends e) ->
  let ids := List.filter (packs' session)
               (internal_ids GNUTLS_EXTENSION_MAX_VALUE) in
  _gnutls_ext_pack MAX_EXT_TYPES GNUTLS_EXTENSION_MAX_VALUE extfunc session buf
  = (0, buf ++ uint32_bytes (Z.of_nat (length ids))
            ++ concat (map (record session) ids)).
Proof. intros Hwb ids. now apply ext_pack_blob. Qed.

(** ** Unpacking into a new session *)

Lemma first_index_app_skip {A : Type} (f : A -> bool) (l1 l2 : list A) (x : A) :
  (forall y, In y l1 -> f y = false) -> f x = true ->
  first_index f (l1 ++ x :: l2) = Some (length l1).
Proof.
  intros Hl1 Hx. induction l1 as [|a l1 IH]; simpl.
  - now rewrite Hx.
  - rewrite (Hl1 a (or_introl eq_refl)), IH; [reflexivity|].
    intros y Hy. apply Hl1. now right.
Qed.

Lemma ext_ptr_same_catalog s1 s2 i pt :
  rexts s1 = rexts s2 -> ext_ptr s1 i pt = ext_ptr s2 i pt.
Proof. intros H. unfold _gnutls_ext_ptr. now rewrite H. Qed.

Lemma ext_ptr_gid session i pt e :
  ext_ptr session i pt = Some e -> gid e = i.
Proof.
  unfold _gnutls_ext_ptr. intros H.
  destruct (List.find _ (rexts session)) as [a|] eqn:E1.
  - apply find_some in E1 as [_ E1]. apply Z.eqb_eq in E1.
    destruct (_ || _); [|discriminate]. now injection H as <-.
  - destruct (List.find _ extfunc) as [a|] eqn:E2; [|discriminate].
    apply find_some in E2 as [_ E2]. apply Z.eqb_eq in E2.
    destruct (_ || _); [|discriminate]. now injection H as <-.
Qed.

Lemma pack_candidate_ptr session i e :
  pack_candidate extfunc session i = Some e ->
  ext_ptr session i GNUTLS_EXT_ANY = Some e /\ gid e = i
  /\ is_Some (pack_func e).
Proof.
  unfold pack_candidate. intros H.
  destruct (Z.testbit _ i); [|discriminate].
  destruct (ext_ptr session i GNUTLS_EXT_ANY) as [a|] eqn:E; [|discriminate].
  destruct (pack_func a) eqn:Hp; [|discriminate].
  injection H as <-. split; [reflexivity|]. split; [|eauto].
  eapply ext_ptr_gid; eassumption.
Qed.

Local Abbreviation set_resumed :=
  (_gnutls_ext_set_resumed_session_data MAX_EXT_TYPES extfunc).
Local Abbreviation slot := (resumed_slot MAX_EXT_TYPES extfunc).
Local Abbreviation good := (round_trips MAX_EXT_TYPES extfunc).

(** Storing resumed data for an id no slot holds yet, behind slots that are
    all in use: the first zeroed slot takes it. *)
Lemma set_resumed_next s i v done zeros :
  ext_data (state s) = done ++ ext_data_zero :: zeros ->
  length (ext_data (state s)) = MAX_EXT_TYPES ->
  (forall d, In d done -> ed_resumed_set d = true /\ ed_id d <> i) ->
  set_resumed s i v
  = (mk_session
       (set_ext_data (state s)
          (done ++ mk_ext_data i false 0 true v :: zeros)) (rexts s), []).
Proof.
  intros Hdata Hlen Hdone.
  assert (Hfirst : first_index (slot_for i) (slots MAX_EXT_TYPES s)
                   = Some (length done)).
  { rewrite slots_full by assumption. rewrite Hdata.
    apply first_index_app_skip.
    - intros d Hd. destruct (Hdone d Hd) as [Hr Hne].
      unfold slot_for. rewrite Hr, andb_false_r, orb_false_r.
      now apply Z.eqb_neq.
    - unfold slot_for. simpl. apply orb_true_r. }
  assert (Hd : ext_data (state s) !! length done = Some ext_data_zero).
  { rewrite Hdata. apply list_lookup_middle. reflexivity. }
  rewrite (set_resumed_session_data_first _ _ _ _ _ _ _ Hfirst Hd).
  unfold deinit_events, update_slot, set_state. simpl.
  rewrite Hdata.
  rewrite insert_app_r_alt by lia. rewrite Nat.sub_diag. reflexivity.
Qed.

(** One record of the blob, read back into a session with the same
    catalog. *)
Lemma ext_unpack_loop_step session s i n rest done zeros :
  good session i ->
  rexts s = rexts session ->
  ext_data (state s) = done ++ ext_data_zero :: zeros ->
  length (ext_data (state s)) = MAX_EXT_TYPES ->
  (forall d, In d done -> ed_resumed_set d = true /\ ed_id d <> i) ->
  ext_unpack_loop MAX_EXT_TYPES extfunc (S n) s (record session i ++ rest)
  = ext_unpack_loop MAX_EXT_TYPES extfunc n
      (mk_session
         (set_ext_data (state s) (done ++ slot session i :: zeros)) (rexts s))
      rest.
Proof.
  intros (Hi & e & unpack & p & Hcand & Hunpack & Hlive & Hcons & Hlen)
    Hrexts Hdata Hsize Hdone.
  destruct (pack_candidate_ptr _ _ _ Hcand) as (Hptr & Hgid & _).
  unfold packed_record, resumed_slot, resumed_value.
  rewrite Hcand, Hlive, Hgid.
  cbn [ext_unpack_loop].
  rewrite <- !app_assoc.
  rewrite BUFFER_POP_NUM_append, BUFFER_POP_NUM_append.
  rewrite (Z.mod_small i) by lia.
  rewrite (ext_ptr_same_catalog s session) by assumption.
  rewrite Hptr, Hunpack.
  destruct (Hcons unpack p rest Hunpack) as (Hret & Hval & Hrest).
  destruct (unpack (pack_output e p ++ rest)) as [[r v] rest'] eqn:E.
  simpl in Hret, Hval, Hrest. subst v rest'.
  destruct (Z.ltb_spec r 0) as [|_]; [lia|].
  rewrite length_app.
  set (len := Z.of_nat (length (pack_output e p))) in *.
  replace (Z.of_nat (length (pack_output e p) + length rest)
           - Z.of_nat (length rest)) with len by lia.
  assert (Hlen0 : 0 <= len) by lia.
  rewrite (Z.mod_small len) by lia.
  rewrite to_int32_small by lia.
  rewrite Z.eqb_refl. cbn [negb].
  rewrite (set_resumed_next _ _ _ _ _ Hdata Hsize Hdone).
  destruct (ext_unpack_loop MAX_EXT_TYPES extfunc n _ rest)
    as [[[r2 s2] b2] t2].
  reflexivity.
Qed.

(** The unpack walk over the records of the ids [ids], into a session
    whose table is [done] followed by zeroed slots: the records are read
    and stored one after the other, and the walk goes on with what
    follows. *)
Lemma ext_unpack_loop_records session ids :
  NoDup ids ->
  (forall i, In i ids -> good session i) ->
  forall s rest done m,
  rexts s = rexts session ->
  ext_data (state s) = done ++ replicate m ext_data_zero ->
  length (ext_data (state s)) = MAX_EXT_TYPES ->
  (length ids <= m)%nat ->
  (forall d, In d done -> ed_resumed_set d = true /\ ~ In (ed_id d) ids) ->
  exists s',
    (forall k,
        ext_unpack_loop MAX_EXT_TYPES extfunc (length ids + k) s
          (concat (map (record session) ids) ++ rest)
        = ext_unpack_loop MAX_EXT_TYPES extfunc k s' rest)
    /\ rexts s' = rexts session
    /\ entity (state s') = entity (state s)
    /\ used_exts (state s') = used_exts (state s)
    /\ ext_data (state s')
       = done ++ map (slot session) ids
         ++ replicate (m - length ids) ext_data_zero.
Proof.
  intros Hnd. induction Hnd as [|i ids Hi Hnd IH];
    intros Hgood s rest done m Hrexts Hdata Hsize Hm Hdone.
  - exists s. simpl. rewrite Nat.sub_0_r. auto.
  - destruct m as [|m]; [simpl in Hm; lia|].
    cbn [replicate] in Hdata.
    set (s1 := mk_session
                 (set_ext_data (state s)
                    (done ++ slot session i :: replicate m ext_data_zero))
                 (rexts s)).
    destruct (IH (fun x Hx => Hgood x (or_intror Hx)) s1 rest
                (done ++ [slot session i]) m) as (s' & Hrun & Hr' & He' & Hu' & Hd').
    + exact Hrexts.
    + subst s1. simpl. now rewrite <- app_assoc.
    + subst s1. simpl. rewrite Hdata in Hsize.
      rewrite !length_app in *. simpl in *. lia.
    + simpl in Hm. lia.
    + intros d Hd. apply in_app_or in Hd as [Hd|[<-|[]]].
      * destruct (Hdone d Hd) as [Hr Hn]. split; [assumption|].
        intros E. apply Hn. now right.
      * split; [reflexivity|]. simpl. intros E. apply Hi.
        now apply list_elem_of_In.
    + exists s'. split; [|split; [exact Hr'|]].
      * intros k. cbn [map concat length Nat.add]. rewrite <- app_assoc.
        rewrite (ext_unpack_loop_step session s i (length ids + k) _ done
                   (replicate m ext_data_zero));
          [|apply Hgood; now left|assumption..|].
        2:{ intros d Hd. destruct (Hdone d Hd) as [Hr Hn].
            split; [assumption|]. intros E. apply Hn. now left. }
        apply Hrun.
      * split; [exact He'|]. split; [exact Hu'|].
        rewrite Hd'. rewrite <- app_assoc. reflexivity.
Qed.

(** The record of an id whose descriptor packs but has no unpack
    operation ends the unpack walk with a parsing error. *)
Lemma ext_unpack_loop_no_unpack session s i d p n rest :
  0 <= i < 2 ^ 32 ->
  rexts s = rexts session ->
  pack_candidate extfunc session i = Some d ->
  live_data MAX_EXT_TYPES session (gid d) = Some p ->
  unpack_func d = None ->
  ext_unpack_loop MAX_EXT_TYPES extfunc (S n) s (record session i ++ rest)
  = (GNUTLS_E_PARSING_ERROR, s, pack_output d p ++ rest, []).
Proof.
  intros Hi Hrexts Hcand Hlive Hunpack.
  destruct (pack_candidate_ptr _ _ _ Hcand) as (Hptr & Hgid & _).
  unfold packed_record. rewrite Hcand, Hlive, Hgid.
  cbn [ext_unpack_loop].
  rewrite <- !app_assoc.
  rewrite BUFFER_POP_NUM_append, BUFFER_POP_NUM_append.
  rewrite (Z.mod_small i) by lia.
  rewrite (ext_ptr_same_catalog s session) by assumption.
  rewrite Hptr, Hunpack. reflexivity.
Qed.

(** The first element of a list that fails a test. *)
Lemma first_failing {A : Type} (f : A -> bool) (l : list A) (x : A) :
  In x l -> f x = false ->
  exists pre j post,
    l = pre ++ j :: post /\ f j = false
    /\ forall y, In y pre -> f y = true.
Proof.
  induction l as [|a l IH]; intros Hin Hx; [destruct Hin|].
  destruct (f a) eqn:Ea.
  - destruct Hin as [->|Hin]; [congruence|].
    destruct (IH Hin Hx) as (pre & j & post & -> & Hj & Hpre).
    exists (a :: pre), j, post. split; [reflexivity|]. split; [assumption|].
    intros y [<-|Hy]; [assumption | now apply Hpre].
  - exists [], a, l. split; [reflexivity|]. split; [assumption|].
    intros y [].
Qed.

Lemma internal_ids_range i :
  In i (internal_ids GNUTLS_EXTENSION_MAX_VALUE) ->
  0 <= i <= GNUTLS_EXTENSION_MAX_VALUE.
Proof.
  unfold internal_ids. intros H. apply list_elem_of_In in H.
  apply elem_of_seqZ in H. lia.
Qed.

Lemma internal_ids_NoDup : NoDup (internal_ids GNUTLS_EXTENSION_MAX_VALUE).
Proof. apply NoDup_seqZ. Qed.

Lemma length_internal_ids :
  length (internal_ids GNUTLS_EXTENSION_MAX_VALUE)
  = Z.to_nat (GNUTLS_EXTENSION_MAX_VALUE + 1).
Proof. apply length_seqZ. Qed.

Lemma filter_length_le {A : Type} (f : A -> bool) (l : list A) :
  (length (List.filter f l) <= length l)%nat.
Proof.
  induction l as [|a l IH]; simpl; [lia|].
  destruct (f a); simpl; lia.
Qed.

Lemma NoDup_List_filter {A : Type} (f : A -> bool) (l : list A) :
  NoDup l -> NoDup (List.filter f l).
Proof.
  induction 1 as [|a l Ha Hnd IH]; simpl; [constructor|].
  destruct (f a); [|assumption].
  constructor; [|assumption].
  intros Hin. apply Ha. apply list_elem_of_In in Hin.
  apply filter_In in Hin as [Hin _]. now apply list_elem_of_In.
Qed.

Lemma find_all_false {A : Type} (f : A -> bool) (l : list A) :
  (forall x, In x l -> f x = false) -> List.find f l = None.
Proof.
  induction l as [|a l IH]; intros H; simpl; [reflexivity|].
  rewrite (H a (or_introl eq_refl)). apply IH.
  intros x Hx. apply H. now right.
Qed.

(** Reading resumed data from a table that starts with the slots of
    [ids]. *)
Lemma find_resumed_slot session ids zeros i :
  (forall d, In d zeros -> ed_resumed_set d = false) ->
  List.find (fun d => ed_resumed_set d && (ed_id d =? i))
    (map (slot session) ids ++ zeros)
  = if existsb (Z.eqb i) ids then Some (slot session i) else None.
Proof.
  intros Hz. induction ids as [|a ids IH]; simpl.
  - apply find_all_false. intros d Hd. now rewrite (Hz d Hd).
  - rewrite (Z.eqb_sym a i). destruct (Z.eqb_spec i a) as [->|Hne]; simpl.
    + reflexivity.
    + exact IH.
Qed.

Lemma resumed_ids_slots session ids k :
  map ed_id
    (List.filter ed_resumed_set
       (map (slot session) ids ++ replicate k ext_data_zero)) = ids.
Proof.
  induction ids as [|a ids IH]; simpl.
  - induction k as [|k IHk]; [reflexivity | exact IHk].
  - now rewrite IH.
Qed.

Lemma existsb_eqb_In (i : Z) (ids : list Z) :
  existsb (Z.eqb i) ids = true <-> In i ids.
Proof.
  rewrite existsb_exists. split.
  - intros (x & Hx & E). apply Z.eqb_eq in E. now subst.
  - intros H. exists i. split; [assumption | apply Z.eqb_refl].
Qed.

(** C1, as the code has it: take a session in which every advertised
    internal id whose descriptor is found and has a pack operation has live
    private data set, and has pack and unpack operations that succeed, with
    pack appending its output (of less than [2 ^ 31] bytes) and unpack,
    where the descriptor has one, consuming exactly that output.  Then the
    pack walk succeeds.  When every such descriptor for an id in
    [0 .. GNUTLS_EXTENSION_MAX_VALUE] also has an unpack operation,
    unpacking the blob into a new session with the same catalog
    succeeds, consumes exactly the blob and invokes no deinitialisation; the
    slots of the new session that hold resumed data are those of the
    advertised ids [0 .. GNUTLS_EXTENSION_MAX_VALUE] whose descriptor has
    both operations, in increasing order, and the resumed private data of
    each such id is the unpack operation applied to the pack output of its
    live private data.  When instead one of these ids has a descriptor with
    a pack operation and no unpack operation, unpacking the blob fails with
    [GNUTLS_E_PARSING_ERROR], and invokes no deinitialisation. *)
Theorem resumption_round_trip session e rest :
  GNUTLS_EXTENSION_MAX_VALUE + 1 <= Z.of_nat MAX_EXT_TYPES ->
  GNUTLS_EXTENSION_MAX_VALUE < 2 ^ 31 - 1 ->
  (forall i d, pack_candidate extfunc session i = Some d ->
      pack_appends d /\ unpack_consumes d
      /\ exists p, live_data MAX_EXT_TYPES session (gid d) = Some p
                   /\ Z.of_nat (length (pack_output d p)) < 2 ^ 31) ->
  let ids := List.filter (resumable extfunc session)
               (internal_ids GNUTLS_EXTENSION_MAX_VALUE) in
  let fresh := new_session MAX_EXT_TYPES e (rexts session) in
  exists blob,
    _gnutls_ext_pack MAX_EXT_TYPES GNUTLS_EXTENSION_MAX_VALUE extfunc
      session [] = (0, blob)
    /\ ((forall i d, 0 <= i <= GNUTLS_EXTENSION_MAX_VALUE ->
                     pack_candidate extfunc session i = Some d ->
                     is_Some (unpack_func d)) ->
        exists fresh',
          _gnutls_ext_unpack MAX_EXT_TYPES extfunc fresh (blob ++ rest)
          = (0, fresh', rest, [])
          /\ resumed_ids fresh' = ids
          /\ (forall i, In i ids ->
                _gnutls_ext_get_resumed_session_data MAX_EXT_TYPES fresh' i
                = (0, Some (resumed_value MAX_EXT_TYPES extfunc session i)))
          /\ (forall i, ~ In i ids ->
                _gnutls_ext_get_resumed_session_data MAX_EXT_TYPES fresh' i
                = (GNUTLS_E_INVALID_REQUEST, None)))
    /\ (forall i d,
          0 <= i <= GNUTLS_EXTENSION_MAX_VALUE ->
          pack_candidate extfunc session i = Some d ->
          unpack_func d = None ->
          fst (fst (fst (_gnutls_ext_unpack MAX_EXT_TYPES extfunc fresh
                           (blob ++ rest)))) = GNUTLS_E_PARSING_ERROR
          /\ snd (_gnutls_ext_unpack MAX_EXT_TYPES extfunc fresh
                    (blob ++ rest)) = []).
Proof.
  intros Hslots Hmax Hcodec ids fresh.
  set (pids := List.filter (packs' session)
                 (internal_ids GNUTLS_EXTENSION_MAX_VALUE)).
  assert (Hplen : (length pids <= Z.to_nat (GNUTLS_EXTENSION_MAX_VALUE + 1))%nat).
  { unfold pids. rewrite <- length_internal_ids. apply filter_length_le. }
  assert (Hpnd : NoDup pids)
    by apply (NoDup_List_filter _ _ internal_ids_NoDup).
  assert (Hpacked : forall i, In i pids ->
            0 <= i <= GNUTLS_EXTENSION_MAX_VALUE
            /\ exists d p, pack_candidate extfunc session i = Some d
                 /\ live_data MAX_EXT_TYPES session (gid d) = Some p
                 /\ unpack_consumes d
                 /\ Z.of_nat (length (pack_output d p)) < 2 ^ 31).
  { intros i Hi. apply filter_In in Hi as [Hi Hp].
    apply internal_ids_range in Hi. split; [lia|].
    unfold packs in Hp.
    destruct (pack_candidate extfunc session i) as [d|] eqn:Hc; [|discriminate].
    destruct (Hcodec i d Hc) as (_ & Hcons & p & Hlive & Hl).
    exists d, p. auto. }
  assert (Hgood : forall i, In i pids ->
            resumable extfunc session i = true -> good session i).
  { intros i Hi Hres.
    destruct (Hpacked i Hi) as (Hr & d & p & Hc & Hlive & Hcons & Hl).
    split; [lia|]. unfold resumable in Hres. rewrite Hc in Hres.
    destruct (unpack_func d) as [u|] eqn:Hu; [|discriminate].
    exists d, u, p. auto. }
  assert (Hblob :
    _gnutls_ext_pack MAX_EXT_TYPES GNUTLS_EXTENSION_MAX_VALUE extfunc
      session []
    = (0, uint32_bytes (Z.of_nat (length pids))
          ++ concat (map (record session) pids))).
  { rewrite ext_pack_blob by (intros i d Hc; now apply (Hcodec i d Hc)).
    reflexivity. }
  assert (Hcount : forall tail,
    _gnutls_ext_unpack MAX_EXT_TYPES extfunc fresh
      ((uint32_bytes (Z.of_nat (length pids))
        ++ concat (map (record session) pids)) ++ tail)
    = ext_unpack_loop MAX_EXT_TYPES extfunc (length pids) fresh
        (concat (map (record session) pids) ++ tail)).
  { intros tail. unfold _gnutls_ext_unpack. rewrite <- !app_assoc.
    rewrite BUFFER_POP_NUM_append.
    rewrite Z.mod_small by lia. rewrite to_int32_small by lia.
    now rewrite Nat2Z.id. }
  eexists. split; [exact Hblob|].
  split.
  - intros Hunpack.
    assert (Hsame : pids = ids).
    { apply filter_ext_in. intros i Hi. apply internal_ids_range in Hi.
      unfold packs, resumable.
      destruct (pack_candidate extfunc session i) as [d|] eqn:Hc;
        [|reflexivity].
      destruct (Hcodec i d Hc) as (_ & _ & p & Hp & _).
      destruct (Hunpack i d Hi Hc) as [u Hu].
      now rewrite Hp, Hu. }
    destruct (ext_unpack_loop_records session pids Hpnd
                (fun i Hi => Hgood i Hi
                   (proj2 (proj1 (filter_In _ _ _)
                             (eq_ind _ (In i) Hi _ Hsame))))
                fresh rest [] MAX_EXT_TYPES)
      as (fresh' & Hrun & Hrexts & _ & _ & Hdata).
    { reflexivity. }
    { reflexivity. }
    { subst fresh. simpl. apply length_replicate. }
    { lia. }
    { intros d []. }
    exists fresh'.
    split.
    { rewrite Hcount. rewrite <- (Nat.add_0_r (length pids)). apply Hrun. }
    simpl in Hdata. rewrite Hsame in Hdata.
    split.
    { unfold resumed_ids. rewrite Hdata. apply resumed_ids_slots. }
    assert (Hfull : slots MAX_EXT_TYPES fresh' = ext_data (state fresh')).
    { apply slots_full.
      rewrite Hdata, length_app, length_map, length_replicate.
      rewrite <- Hsame. lia. }
    assert (Hzeros : forall d,
               In d (replicate (MAX_EXT_TYPES - length ids) ext_data_zero) ->
               ed_resumed_set d = false).
    { intros d Hd. apply list_elem_of_In, elem_of_replicate in Hd as [-> _].
      reflexivity. }
    split.
    + intros i Hi. unfold _gnutls_ext_get_resumed_session_data.
      rewrite Hfull, Hdata, find_resumed_slot by assumption.
      apply existsb_eqb_In in Hi. rewrite Hi. reflexivity.
    + intros i Hi. unfold _gnutls_ext_get_resumed_session_data.
      rewrite Hfull, Hdata, find_resumed_slot by assumption.
      destruct (existsb (Z.eqb i) ids) eqn:E; [|reflexivity].
      apply existsb_eqb_In in E. contradiction.
  - intros i d Hi Hc Hnone.
    assert (Hin : In i pids).
    { apply filter_In. split.
      - apply list_elem_of_In. unfold internal_ids. apply elem_of_seqZ. lia.
      - unfold packs. rewrite Hc.
        destruct (Hcodec i d Hc) as (_ & _ & p & -> & _). reflexivity. }
    assert (Hres : resumable extfunc session i = false)
      by (unfold resumable; now rewrite Hc, Hnone).
    destruct (first_failing _ _ _ Hin Hres)
      as (pre & j & post & Hsplit & Hj & Hpre).
    assert (Hjin : In j pids)
      by (rewrite Hsplit; apply in_or_app; right; now left).
    destruct (Hpacked j Hjin) as (Hjr & dj & pj & Hcj & Hlj & _ & _).
    assert (Hnj : unpack_func dj = None).
    { unfold resumable in Hj. rewrite Hcj in Hj.
      destruct (unpack_func dj); [discriminate | reflexivity]. }
    assert (Hndpre : NoDup pre).
    { rewrite Hsplit in Hpnd. now apply NoDup_app in Hpnd as [Hpnd _]. }
    assert (Hlenpre : (length pre <= MAX_EXT_TYPES)%nat).
    { rewrite Hsplit, length_app in Hplen. lia. }
    destruct (ext_unpack_loop_records session pre Hndpre
                (fun y Hy => Hgood y
                   (eq_ind_r (In y) (in_or_app _ _ _ (or_introl Hy)) Hsplit)
                   (Hpre y Hy))
                fresh (record session j
                       ++ concat (map (record session) post) ++ rest)
                [] MAX_EXT_TYPES)
      as (s' & Hrun & Hrexts & _ & _ & _).
    { reflexivity. }
    { reflexivity. }
    { subst fresh. simpl. apply length_replicate. }
    { exact Hlenpre. }
    { intros x []. }
    rewrite Hcount, Hsplit.
    rewrite map_app, concat_app, length_app. cbn [map concat length].
    rewrite <- !app_assoc.
    rewrite Hrun.
    rewrite (ext_unpack_loop_no_unpack session s' j dj pj) by
      (assumption || lia).
    split; reflexivity.
Qed.

Lemma pack_candidate_In session i e :
  pack_candidate extfunc session i = Some e ->
  In e (rexts session ++ extfunc).
Proof.
  intros H. apply pack_candidate_ptr in H as (H & _ & _).
  unfold _gnutls_ext_ptr in H. apply in_or_app.
  destruct (List.find _ (rexts session)) as [a|] eqn:E1.
  - apply find_some in E1 as [E1 _].
    destruct (_ || _); [|discriminate]. injection H as <-. now left.
  - destruct (List.find _ extfunc) as [a|] eqn:E2; [|discriminate].
    apply find_some in E2 as [E2 _].
    destruct (_ || _); [|discriminate]. injection H as <-. now right.
Qed.

End Pack.

(** The sample pack and unpack operations meet the conditions of the round
    trip. *)
Lemma pack_number_appends d :
  pack_func d = Some pack_number \/ pack_func d = None -> pack_appends d.
Proof.
  intros [H|H] pack p buf Hp; rewrite H in Hp; [|discriminate].
  injection Hp as <-. unfold pack_output. rewrite H. split; reflexivity.
Qed.

Lemma unpack_number_consumes d :
  pack_func d = Some pack_number ->
  unpack_func d = Some unpack_number \/ unpack_func d = None ->
  unpack_consumes d.
Proof.
  intros Hpack [H|H] unpack p rest Hu; rewrite H in Hu; [|discriminate].
  injection Hu as <-. unfold pack_output, unpack_value. rewrite Hpack, H.
  cbn [pack_number snd app]. unfold unpack_number.
  rewrite BUFFER_POP_NUM_append.
  rewrite <- (app_nil_r (uint32_bytes p)).
  rewrite BUFFER_POP_NUM_append. simpl.
  split; [lia|]. split; reflexivity.
Qed.

(** ** Blobs that are refused *)

Section UnpackErrors.

Variable MAX_EXT_TYPES : nat.
Variable extfunc : list hello_ext_entry_st.

Local Abbreviation ext_ptr := (_gnutls_ext_ptr extfunc).
Local Abbreviation unpack_blob := (_gnutls_ext_unpack MAX_EXT_TYPES extfunc).

(** The walk at the first record of a blob that announces records. *)
Lemma ext_unpack_first_record session n id size rest :
  0 < n < 2 ^ 31 -> 0 <= id < 2 ^ 32 -> 0 <= size < 2 ^ 32 ->
  unpack_blob session
    (uint32_bytes n ++ uint32_bytes id ++ uint32_bytes size ++ rest)
  = match ext_ptr session id GNUTLS_EXT_ANY with
    | None => (GNUTLS_E_PARSING_ERROR, session, rest, [])
    | Some ext =>
        match unpack_func ext with
        | None => (GNUTLS_E_PARSING_ERROR, session, rest, [])
        | Some unpack =>
            let '(ret, data, rest') := unpack rest in
            if ret <? 0 then (ret, session, rest', [])
            else if negb (Z.of_nat (length rest) - Z.of_nat (length rest')
                          =? to_int32 size)
            then (GNUTLS_E_PARSING_ERROR, session, rest', [])
            else
              let '(session1, tr1) :=
                _gnutls_ext_set_resumed_session_data MAX_EXT_TYPES extfunc
                  session id data in
              let '(ret, session2, rest'', tr2) :=
                ext_unpack_loop MAX_EXT_TYPES extfunc (Z.to_nat (n - 1))
                  session1 rest' in
              (ret, session2, rest'', tr1 ++ tr2)
        end
    end.
Proof.
  intros Hn Hid Hsize. unfold _gnutls_ext_unpack.
  rewrite BUFFER_POP_NUM_append, (Z.mod_small n) by lia.
  rewrite to_int32_small by lia.
  replace (Z.to_nat n) with (S (Z.to_nat (n - 1))) by lia.
  cbn [ext_unpack_loop].
  rewrite BUFFER_POP_NUM_append, (Z.mod_small id) by lia.
  rewrite BUFFER_POP_NUM_append, (Z.mod_small size) by lia.
  reflexivity.
Qed.

(** X20: [_gnutls_ext_unpack] refuses a blob whose first record names an
    internal id for which no descriptor is found, or for which the
    descriptor has no unpack operation: the result is
    [GNUTLS_E_PARSING_ERROR], nothing is stored in the session and no
    operation of a descriptor is invoked. *)
Theorem ext_unpack_unknown_id session n id size rest :
  0 < n < 2 ^ 31 -> 0 <= id < 2 ^ 32 -> 0 <= size < 2 ^ 32 ->
  ext_ptr session id GNUTLS_EXT_ANY = None
  \/ (exists e, ext_ptr session id GNUTLS_EXT_ANY = Some e
                /\ unpack_func e = None) ->
  unpack_blob session
    (uint32_bytes n ++ uint32_bytes id ++ uint32_bytes size ++ rest)
  = (GNUTLS_E_PARSING_ERROR, session, rest, []).
Proof.
  intros Hn Hid Hsize Hwhy.
  rewrite ext_unpack_first_record by assumption.
  destruct Hwhy as [->|(e & -> & ->)]; reflexivity.
Qed.

(** X21: [_gnutls_ext_unpack] checks what the unpack operation of a
    descriptor did with a record before it stores anything: a negative
    result of the operation is the result of the whole unpacking, and when
    the operation succeeded but read a number of bytes other than the
    length the record announces, the result is [GNUTLS_E_PARSING_ERROR]; in
    both cases the session is left as it was. *)
Theorem ext_unpack_checks_record session n id size rest e unpack :
  0 < n < 2 ^ 31 -> 0 <= id < 2 ^ 32 -> 0 <= size < 2 ^ 32 ->
  ext_ptr session id GNUTLS_EXT_ANY = Some e ->
  unpack_func e = Some unpack ->
  let ret := fst (fst (unpack rest)) in
  let rest' := snd (unpack rest) in
  (ret < 0 ->
   unpack_blob session
     (uint32_bytes n ++ uint32_bytes id ++ uint32_bytes size ++ rest)
   = (ret, session, rest', []))
  /\ (0 <= ret ->
      Z.of_nat (length rest) - Z.of_nat (length rest') <> to_int32 size ->
      unpack_blob session
        (uint32_bytes n ++ uint32_bytes id ++ uint32_bytes size ++ rest)
      = (GNUTLS_E_PARSING_ERROR, session, rest', [])).
Proof.
  intros Hn Hid Hsize Hptr Hunpack ret rest'. subst ret rest'.
  rewrite ext_unpack_first_record by assumption.
  rewrite Hptr, Hunpack.
  destruct (unpack rest) as [[ret data] rest']. cbn [fst snd]. split.
  - intros Hret. destruct (Z.ltb_spec ret 0); [reflexivity | lia].
  - intros Hret Hlen. destruct (Z.ltb_spec ret 0); [lia|].
    destruct (Z.eqb_spec (Z.of_nat (length rest) - Z.of_nat (length rest'))
                (to_int32 size)); [contradiction | reflexivity].
Qed.

(** X22: the number of records of a blob is read as an [int]: a blob that
    announces no record, or a number of records with the top bit set,
    which reads as a negative number, is accepted as it is: the result is
    [0], the session is left as it was and the bytes after the number are
    left unread. *)
Theorem ext_unpack_no_records session n rest :
  n = 0 \/ 2 ^ 31 <= n < 2 ^ 32 ->
  unpack_blob session (uint32_bytes n ++ rest) = (0, session, rest, []).
Proof.
  intros Hn. unfold _gnutls_ext_unpack.
  rewrite BUFFER_POP_NUM_append, (Z.mod_small n) by lia.
  assert (E : Z.to_nat (to_int32 n) = O).
  { destruct Hn as [->|Hn]; [reflexivity|].
    unfold to_int32.
    replace (n + 2 ^ 31) with ((n - 2 ^ 31) + 1 * 2 ^ 32) by lia.
    rewrite Z.mod_add, Z.mod_small by lia. lia. }
  rewrite E. reflexivity.
Qed.

(** X28: what [_gnutls_ext_unpack] read is what the resumed getter
    returns.  For a blob of one record whose descriptor is found and has an
    unpack operation that succeeds and reads exactly the number of bytes
    the record announces, in a session where a slot holds the internal id or
    is free: the result is [0], the buffer is left as the unpack operation
    left it, [_gnutls_ext_get_resumed_session_data] for the internal id
    returns the unpacked value, and the live value of every internal id
    reads as before. *)
Theorem ext_unpack_record_stored session id size rest e unpack :
  0 <= id < 2 ^ 32 -> 0 <= size < 2 ^ 32 ->
  ext_ptr session id GNUTLS_EXT_ANY = Some e ->
  unpack_func e = Some unpack ->
  0 <= fst (fst (unpack rest)) ->
  Z.of_nat (length rest) - Z.of_nat (length (snd (unpack rest)))
  = to_int32 size ->
  slot_available id (slots MAX_EXT_TYPES session) ->
  exists session' tr,
    unpack_blob session
      (uint32_bytes 1 ++ uint32_bytes id ++ uint32_bytes size ++ rest)
    = (0, session', snd (unpack rest), tr)
    /\ _gnutls_ext_get_resumed_session_data MAX_EXT_TYPES session' id
       = (0, Some (snd (fst (unpack rest))))
    /\ forall id',
         _gnutls_ext_get_session_data MAX_EXT_TYPES session' id'
         = _gnutls_ext_get_session_data MAX_EXT_TYPES session id'.
Proof.
  intros Hid Hsize Hptr Hunpack Hret Hlen Hav.
  rewrite (ext_unpack_first_record session 1 id size rest) by lia.
  rewrite Hptr, Hunpack.
  pose proof (set_get_resumed MAX_EXT_TYPES extfunc session id
                (snd (fst (unpack rest))) Hav) as Hget.
  pose proof (set_resumed_keeps_live MAX_EXT_TYPES extfunc session id
                (snd (fst (unpack rest)))) as Hlive.
  destruct (unpack rest) as [[ret data] rest']. cbn [fst snd] in *.
  destruct (Z.ltb_spec ret 0); [lia|].
  destruct (Z.eqb_spec (Z.of_nat (length rest) - Z.of_nat (length rest'))
              (to_int32 size)) as [_|]; [|contradiction].
  cbn [negb].
  destruct (_gnutls_ext_set_resumed_session_data MAX_EXT_TYPES extfunc
              session id data) as [session1 tr1].
  cbn [fst] in Hget, Hlive.
  exists session1, (tr1 ++ []). repeat split; assumption.
Qed.

End UnpackErrors.

(** ** Packing without data, and packing that fails *)

Section PackEdges.

Variable MAX_EXT_TYPES : nat.
Variable GNUTLS_EXTENSION_MAX_VALUE : Z.
Variable extfunc : list hello_ext_entry_st.

Local Abbreviation pack_blob :=
  (_gnutls_ext_pack MAX_EXT_TYPES GNUTLS_EXTENSION_MAX_VALUE extfunc).
Local Abbreviation pack_loop := (ext_pack_loop MAX_EXT_TYPES extfunc).

Lemma ext_pack_loop_no_live session ids n b :
  (forall id, live_data MAX_EXT_TYPES session id = None) ->
  pack_loop session ids n b = (0, n, b).
Proof.
  intros Hno. induction ids as [|i ids IH]; [reflexivity|].
  cbn [ext_pack_loop].
  destruct (Z.testbit (used_exts (state session)) i); [|exact IH].
  destruct (_gnutls_ext_ptr extfunc session i GNUTLS_EXT_ANY) as [e|];
    [|exact IH].
  rewrite pack_extension_nothing by (right; apply Hno).
  change (0 <? 0) with false. cbv iota. exact IH.
Qed.

Lemma ext_pack_no_live session buf :
  (forall id, live_data MAX_EXT_TYPES session id = None) ->
  pack_blob session buf = (0, buf ++ uint32_bytes 0).
Proof.
  intros Hno. unfold _gnutls_ext_pack, BUFFER_APPEND_NUM.
  rewrite ext_pack_loop_no_live by assumption.
  change (0 <? 0) with false. cbv iota.
  rewrite <- (app_nil_r (uint32_bytes 0)) at 1.
  rewrite write_uint32_app. now rewrite app_nil_r.
Qed.

(** X23: only what has live private data is packed.  After
    [_gnutls_ext_free_session_data], whatever the session advertised,
    [_gnutls_ext_pack] invokes no pack operation and appends the empty
    blob, the 32-bit count [0] alone; and [_gnutls_ext_unpack] accepts that
    blob in any session, which it leaves as it was. *)
Theorem ext_pack_after_free session buf session2 :
  pack_blob (fst (_gnutls_ext_free_session_data MAX_EXT_TYPES extfunc session))
    buf
  = (0, buf ++ uint32_bytes 0)
  /\ _gnutls_ext_unpack MAX_EXT_TYPES extfunc session2 (uint32_bytes 0)
     = (0, session2, [], []).
Proof.
  split; [|reflexivity].
  apply ext_pack_no_live. intros id. unfold live_data.
  unfold _gnutls_ext_get_session_data. rewrite slots_free_all.
  rewrite find_all_none; [reflexivity|].
  intros y Hy. apply in_map_iff in Hy as (d & <- & _). reflexivity.
Qed.

Lemma ext_pack_loop_app session ids1 ids2 n b :
  pack_loop session (ids1 ++ ids2) n b
  = let '(ret, n1, b1) := pack_loop session ids1 n b in
    if ret <? 0 then (ret, n1, b1) else pack_loop session ids2 n1 b1.
Proof.
  revert n b. induction ids1 as [|i ids1 IH]; intros n b; [reflexivity|].
  cbn [app ext_pack_loop].
  destruct (Z.testbit (used_exts (state session)) i); [|apply IH].
  destruct (_gnutls_ext_ptr extfunc session i GNUTLS_EXT_ANY) as [e|];
    [|apply IH].
  destruct (pack_extension MAX_EXT_TYPES session e b) as [ret b1].
  destruct (ret <? 0) eqn:Hret; [now rewrite Hret | apply IH].
Qed.

(** The walk over internal ids whose pack operations do not fail does not
    fail. *)
Lemma ext_pack_loop_succeeds session ids :
  (forall j e pack p b,
      In j ids -> pack_candidate extfunc session j = Some e ->
      pack_func e = Some pack -> 0 <= fst (pack p b)) ->
  forall n b, fst (fst (pack_loop session ids n b)) = 0.
Proof.
  induction ids as [|i ids IH]; intros Hok n b; [reflexivity|].
  assert (Hok' : forall j e pack p b,
             In j ids -> pack_candidate extfunc session j = Some e ->
             pack_func e = Some pack -> 0 <= fst (pack p b))
    by (intros j e pack p b' Hj; apply (Hok j); now right).
  cbn [ext_pack_loop].
  destruct (Z.testbit (used_exts (state session)) i) eqn:Hbit;
    [|now apply IH].
  destruct (_gnutls_ext_ptr extfunc session i GNUTLS_EXT_ANY) as [e|] eqn:Hptr;
    [|now apply IH].
  unfold pack_extension.
  destruct (_gnutls_ext_get_session_data MAX_EXT_TYPES session (gid e))
    as [ret [p|]]; destruct (pack_func e) as [pack|] eqn:Hpack;
    try (change (0 <? 0) with false; cbv iota; now apply IH).
  destruct (0 <=? ret);
    [|change (0 <? 0) with false; cbv iota; now apply IH].
  assert (Hcand : pack_candidate extfunc session i = Some e)
    by (unfold pack_candidate; now rewrite Hbit, Hptr, Hpack).
  pose proof (Hok i e pack p
                (BUFFER_APPEND_NUM (BUFFER_APPEND_NUM b (gid e)) 0)
                (or_introl eq_refl) Hcand Hpack) as Hret.
  destruct (pack p _) as [r b1]. cbn [fst] in Hret.
  destruct (Z.ltb_spec r 0); [lia|].
  change (1 <? 0) with false. cbv iota. now apply IH.
Qed.

(** X24: a pack operation that fails makes the packing fail.  When the
    pack operation of the descriptor of an advertised internal id with live
    private data returns a negative result, and the pack operations for the
    internal ids below it do not fail, [_gnutls_ext_pack] returns that
    negative result. *)
Theorem ext_pack_first_failure session buf i e pack p err :
  0 <= i <= GNUTLS_EXTENSION_MAX_VALUE ->
  pack_candidate extfunc session i = Some e ->
  pack_func e = Some pack ->
  live_data MAX_EXT_TYPES session (gid e) = Some p ->
  (forall b, fst (pack p b) = err) -> err < 0 ->
  (forall j e' pack' p' b,
      0 <= j < i -> pack_candidate extfunc session j = Some e' ->
      pack_func e' = Some pack' -> 0 <= fst (pack' p' b)) ->
  fst (pack_blob session buf) = err.
Proof.
  intros Hi Hcand Hpack Hlive Herr Hneg Hbelow.
  unfold _gnutls_ext_pack, internal_ids.
  replace (GNUTLS_EXTENSION_MAX_VALUE + 1)
    with (i + (1 + (GNUTLS_EXTENSION_MAX_VALUE - i))) by lia.
  rewrite seqZ_app by lia. rewrite seqZ_app by lia.
  rewrite ext_pack_loop_app.
  assert (Hpre : fst (fst (pack_loop session (seqZ 0 i) 0
                             (BUFFER_APPEND_NUM buf 0))) = 0).
  { apply ext_pack_loop_succeeds. intros j e' pack' p' b Hj.
    apply list_elem_of_In, elem_of_seqZ in Hj. apply Hbelow. lia. }
  destruct (pack_loop session (seqZ 0 i) 0 (BUFFER_APPEND_NUM buf 0))
    as [[r n1] b1]. cbn [fst] in Hpre. subst r.
  change (0 <? 0) with false. cbv iota.
  rewrite ext_pack_loop_app.
  replace (0 + i) with i by lia.
  change (seqZ i 1) with [i]. cbn [ext_pack_loop].
  unfold pack_candidate in Hcand.
  destruct (Z.testbit (used_exts (state session)) i); [|discriminate].
  destruct (_gnutls_ext_ptr extfunc session i GNUTLS_EXT_ANY) as [e0|];
    [|discriminate].
  assert (e0 = e) as -> by (destruct (pack_func e0); congruence).
  unfold pack_extension. unfold live_data in Hlive.
  destruct (_gnutls_ext_get_session_data MAX_EXT_TYPES session (gid e))
    as [ret q] eqn:Hget.
  cbn [snd] in Hlive. subst q. rewrite Hpack.
  assert (Hret : ret = 0).
  { unfold _gnutls_ext_get_session_data in Hget.
    destruct (List.find _ _); congruence. }
  subst ret. change (0 <=? 0) with true. cbv iota.
  specialize (Herr (BUFFER_APPEND_NUM (BUFFER_APPEND_NUM b1 (gid e)) 0)).
  destruct (pack p _) as [r b2]. cbn [fst] in Herr. subst r.
  assert (E : (err <? 0) = true) by (apply Z.ltb_lt; lia).
  repeat (rewrite E; cbv beta iota).
  reflexivity.
Qed.

End PackEdges.

(** * The statements on the sample build *)

Lemma sample_UNSOLICITED_negative : sample_UNSOLICITED < 0.
Proof. reflexivity. Qed.

(** A client that advertised nothing receives a server hello block with the
    wire id 43: the record, and the block, fail as unsolicited. *)
Lemma hello_ext_parse_unsolicited_witness :
  hello_ext_parse sample_UNSOLICITED sample_extfunc
    (mk_ctx GNUTLS_EXT_FLAG_TLS13_SERVER_HELLO GNUTLS_EXT_ANY)
    43 [x03; x04] sample_client
  = (sample_UNSOLICITED, sample_client, [])
  /\ _gnutls_parse_extensions sample_UNSOLICITED sample_MALFORMED
       sample_extfunc sample_client GNUTLS_EXT_FLAG_TLS13_SERVER_HELLO
       GNUTLS_EXT_ANY (encode_block [(43, [x03; x04])])
     = (sample_UNSOLICITED, sample_client, []).
Proof.
  destruct (hello_ext_parse_unsolicited sample_UNSOLICITED sample_MALFORMED
              sample_extfunc sample_UNSOLICITED_negative
              (mk_ctx GNUTLS_EXT_FLAG_TLS13_SERVER_HELLO GNUTLS_EXT_ANY)
              GNUTLS_EXT_FLAG_TLS13_SERVER_HELLO GNUTLS_EXT_ANY
              43 [x03; x04] [(43, [x03; x04])] sample_client eq_refl)
    as [Hrecord Hblock].
  split.
  - apply Hrecord; [vm_compute; lia | reflexivity].
  - apply Hblock.
    + reflexivity.
    + constructor; [|constructor]. unfold record_fits. simpl. lia.
    + constructor. vm_compute. lia.
Defined.

(** A client that sent the wire id 1, which is valid in the client hello
    only, receives it in a TLS 1.3 server hello. *)
Lemma hello_ext_parse_illegal_for_message_witness :
  exists ret,
    hello_ext_parse sample_UNSOLICITED sample_extfunc
      (mk_ctx GNUTLS_EXT_FLAG_TLS13_SERVER_HELLO GNUTLS_EXT_ANY)
      1 [x02] sample_client_sent
    = (ret, sample_client_sent, [])
    /\ ret < 0
    /\ (entity (state sample_client_sent) = GNUTLS_SERVER
        \/ Z.testbit (used_exts (state sample_client_sent))
             (tls_id_to_gid sample_extfunc sample_client_sent 1) = true ->
        ret = GNUTLS_E_RECEIVED_ILLEGAL_EXTENSION).
Proof.
  apply (hello_ext_parse_illegal_for_message sample_UNSOLICITED
           sample_extfunc sample_UNSOLICITED_negative
           (mk_ctx GNUTLS_EXT_FLAG_TLS13_SERVER_HELLO GNUTLS_EXT_ANY)
           1 [x02] sample_client_sent sample_max_record recv_accept).
  - vm_compute. lia.
  - reflexivity.
  - reflexivity.
  - reflexivity.
Defined.

(** The wire id 100 is registered for the session only: it has no name,
    while the session parses it and sends it with the overlay
    descriptor. *)
Lemma ext_get_name_ignores_overlay_witness :
  gnutls_ext_get_name sample_extfunc 100 = None
  /\ (exists o,
        rexts sample_client_custom = [o]
        /\ tls_id_to_gid sample_extfunc sample_client_custom 100 = gid o
        /\ recv_calls
             (snd (hello_ext_parse sample_UNSOLICITED sample_extfunc
                     (mk_ctx GNUTLS_EXT_FLAG_TLS12_SERVER_HELLO GNUTLS_EXT_ANY)
                     100 [x2a] sample_client_custom_sent)) = [o]
        /\ send_calls
             (snd (hello_ext_send sample_UNSOLICITED
                     (mk_ctx GNUTLS_EXT_FLAG_CLIENT_HELLO GNUTLS_EXT_ANY)
                     o sample_client_custom [])) = [o]).
Proof.
  set (o := sample_custom).
  assert (Hbuiltin : forall b, In b sample_extfunc -> tls_id b <> 100).
  { intros b [<-|[<-|[<-|[<-|[]]]]]; vm_compute; lia. }
  destruct (ext_get_name_ignores_overlay sample_UNSOLICITED sample_extfunc
              sample_UNSOLICITED_negative
              (mk_ctx GNUTLS_EXT_FLAG_TLS12_SERVER_HELLO GNUTLS_EXT_ANY)
              100 [x2a] [] sample_client_custom_sent o Hbuiltin eq_refl)
    as (Hname & _ & Hparse & _).
  destruct (ext_get_name_ignores_overlay sample_UNSOLICITED sample_extfunc
              sample_UNSOLICITED_negative
              (mk_ctx GNUTLS_EXT_FLAG_CLIENT_HELLO GNUTLS_EXT_ANY)
              100 [x2a] [] sample_client_custom o Hbuiltin eq_refl)
    as (_ & Hgid & _ & Hsend).
  split; [exact Hname|]. exists o.
  split; [reflexivity|]. split; [exact Hgid|]. split.
  - apply Hparse.
    + vm_compute. lia.
    + reflexivity.
    + eexists. reflexivity.
    + vm_compute. lia.
    + reflexivity.
  - apply Hsend.
    + eexists. reflexivity.
    + reflexivity.
    + vm_compute. lia.
    + reflexivity.
Defined.

(** C6: in the code the invariant fails.  On a new session, store live
    data for the internal ids 7 and 5, clear the live data of 7, and store
    live data for 5 again: the second store goes to the slot 7 left free,
    which comes first, and two slots then hold the internal id 5 with the
    live flag set. *)
Theorem set_session_data_duplicates_id :
  holders 5 (ext_data (state sample_session_duplicate))
  = [mk_ext_data 5 true 300 false 0; mk_ext_data 5 true 200 false 0]
  /\ ext_data (state sample_session_duplicate) !! 0%nat
     = Some (mk_ext_data 5 true 300 false 0)
  /\ ext_data (state sample_session_duplicate) !! 1%nat
     = Some (mk_ext_data 5 true 200 false 0).
Proof. repeat split. Qed.

(** The claim about the setters fails on the code in two ways.  With every
    slot in use and none for the internal id 29, the setter returns
    normally, changes nothing and invokes nothing, and the data is not
    there afterwards: no error is reported.  And with the slot for the
    internal id 5 behind a free slot, the setter stores into the free slot
    and leaves the slot that holds 5 as it was. *)
Lemma set_session_data_slot_counterexample :
  (forall d, In d (ext_data (state sample_session_full)) ->
             ed_id d <> 29 /\ slot_free d = false)
  /\ _gnutls_ext_set_session_data sample_MAX_EXT_TYPES sample_extfunc
       sample_session_full 29 5 = (sample_session_full, [])
  /\ _gnutls_ext_get_session_data sample_MAX_EXT_TYPES
       (fst (_gnutls_ext_set_session_data sample_MAX_EXT_TYPES sample_extfunc
               sample_session_full 29 5)) 29
     = (GNUTLS_E_REQUESTED_DATA_NOT_AVAILABLE, None)
  /\ (let before :=
        run_ops sample_MAX_EXT_TYPES sample_extfunc sample_client
          [op_set_live 7 100; op_set_live 5 200; op_unset_live 7] in
      let after :=
        fst (_gnutls_ext_set_session_data sample_MAX_EXT_TYPES sample_extfunc
               before 5 300) in
      ext_data (state before) !! 1%nat = Some (mk_ext_data 5 true 200 false 0)
      /\ ext_data (state after) !! 1%nat
         = Some (mk_ext_data 5 true 200 false 0)
      /\ ext_data (state after) !! 0%nat
         = Some (mk_ext_data 5 true 300 false 0)).
Proof.
  split; [|repeat split].
  apply List.Forall_forall. vm_compute.
  repeat (constructor; [split; [discriminate | reflexivity]|]).
  constructor.
Qed.

(** The three cases of the setters: the slot for the internal id 5 is found
    behind a slot in use and its live value is deinitialised; in a new
    session the first slot takes the data; in the full table nothing
    happens. *)
Lemma set_session_data_slot_witness :
  (let s := run_ops sample_MAX_EXT_TYPES sample_extfunc sample_client
              [op_set_live 7 100; op_set_live 5 200] in
   _gnutls_ext_set_session_data sample_MAX_EXT_TYPES sample_extfunc s 5 300
   = (update_slot s 1 (mk_ext_data 5 true 300 false 0),
      [call_deinit sample_max_record 200]))
  /\ _gnutls_ext_set_session_data sample_MAX_EXT_TYPES sample_extfunc
       sample_client 5 300
     = (update_slot sample_client 0 (mk_ext_data 5 true 300 false 0), [])
  /\ _gnutls_ext_set_resumed_session_data sample_MAX_EXT_TYPES sample_extfunc
       sample_session_full 29 5 = (sample_session_full, []).
Proof.
  split; [|split].
  - intros s.
    destruct (set_session_data_slot sample_MAX_EXT_TYPES sample_extfunc
                s 5 300 eq_refl) as (Hheld & _ & _).
    destruct (Hheld 1%nat (mk_ext_data 5 true 200 false 0)) as [Hlive _].
    + reflexivity.
    + reflexivity.
    + intros j y Hj Hy. assert (j = 0%nat) as -> by lia.
      vm_compute in Hy. injection Hy as <-. split; [discriminate | reflexivity].
    + exact Hlive.
  - destruct (set_session_data_slot sample_MAX_EXT_TYPES sample_extfunc
                sample_client 5 300 eq_refl) as (_ & Hfree & _).
    destruct (Hfree 0%nat ext_data_zero) as [Hlive _].
    + apply List.Forall_forall. vm_compute.
      repeat (constructor; [discriminate|]). constructor.
    + reflexivity.
    + reflexivity.
    + intros j y Hj. lia.
    + exact Hlive.
  - destruct (set_session_data_slot sample_MAX_EXT_TYPES sample_extfunc
                sample_session_full 29 5 eq_refl) as (_ & _ & Hfull).
    destruct Hfull as [_ Hresumed]; [|exact Hresumed].
    apply List.Forall_forall. vm_compute.
    repeat (constructor; [split; [discriminate | reflexivity]|]).
    constructor.
Defined.

Lemma sample_extfunc_in_range : gids_in_range sample_extfunc.
Proof. intros e [<-|[<-|[<-|[<-|[]]]]]; reflexivity. Qed.

Lemma sample_client_custom_in_range :
  gids_in_range (rexts sample_client_custom).
Proof. intros e [<-|[]]. reflexivity. Qed.

(** Two session-level registrations on the sample build as it is compiled
    in: one of the wire id 200, the session having an overlay descriptor
    with the internal id 19 already, and one that overrides the compiled-in
    descriptor of the wire id 16.  Both receive an internal id above every
    internal id of both tiers. *)
Lemma session_ext_register_gid_sample :
  (exists new,
      rexts (snd (gnutls_session_ext_register sample_EXTENSION_MAX
                    sample_EXTENSION_MAX_VALUE sample_extfunc
                    sample_client_custom "global"%string 200 GNUTLS_EXT_ANY
                    (Some recv_accept) None false None None 0))
      = rexts sample_client_custom ++ [new]
      /\ sample_EXTENSION_MAX < gid new <= sample_EXTENSION_MAX_VALUE
      /\ forall e, In e (sample_extfunc ++ rexts sample_client_custom) ->
                   gid e < gid new)
  /\ (exists new,
        rexts sample_client_override = rexts sample_client ++ [new]
        /\ sample_EXTENSION_MAX < gid new <= sample_EXTENSION_MAX_VALUE
        /\ forall e, In e (sample_extfunc ++ rexts sample_client) ->
                     gid e < gid new).
Proof.
  assert (Hcompiled : forall id e, In e sample_extfunc ->
            In e (scanned id sample_extfunc) \/ gid e <= sample_EXTENSION_MAX).
  { intros id e [<-|[<-|[<-|[<-|[]]]]]; right; vm_compute; discriminate. }
  split.
  - destruct (session_ext_register_gid sample_EXTENSION_MAX
                sample_EXTENSION_MAX_VALUE ltac:(vm_compute; discriminate)
                sample_extfunc sample_client_custom "global"%string 200
                GNUTLS_EXT_ANY (Some recv_accept) None false None None 0
                _ _ sample_extfunc_in_range sample_client_custom_in_range
                eq_refl) as [Hok _].
    destruct (Hok eq_refl) as (new & Hnew & Hgid & _ & Hall).
    exists new. split; [exact Hnew|]. split; [exact Hgid|].
    apply Hall. apply Hcompiled.
  - destruct (session_ext_register_gid sample_EXTENSION_MAX
                sample_EXTENSION_MAX_VALUE ltac:(vm_compute; discriminate)
                sample_extfunc sample_client "alpn override"%string 16
                GNUTLS_EXT_APPLICATION (Some recv_accept)
                (Some (send_payload [x00; x03; x02; x68; x33])) false None
                None
                (Z.lor GNUTLS_EXT_FLAG_OVERRIDE_INTERNAL
                   GNUTLS_EXT_FLAG_CLIENT_HELLO)
                _ _ sample_extfunc_in_range ltac:(intros e [])
                eq_refl) as [Hok _].
    destruct (Hok eq_refl) as (new & Hnew & Hgid & _ & Hall).
    exists new. split; [exact Hnew|]. split; [exact Hgid|].
    apply Hall. apply Hcompiled.
Qed.

(** C9: in the code a session-level registration can receive an internal
    id that is taken.  The process-wide table of the sample build receives
    a descriptor for the wire id 200 by [gnutls_ext_register], which gives
    it the internal id 19, the first above [GNUTLS_EXTENSION_MAX].  A
    session-level registration that overrides the compiled-in descriptor of
    the wire id 16 then leaves its loop over the process-wide table at that
    descriptor, does not read the entry behind it, and succeeds with the
    internal id 19 again.  In that session the wire ids 16 and 200 resolve
    to one internal id, so they share a slot of the private-data table and
    a bit of the advertisement bitset, and the lookup of the internal id 19
    finds the overlay descriptor only. *)
Theorem session_override_reuses_internal_id :
  let r := gnutls_session_ext_register sample_EXTENSION_MAX
             sample_EXTENSION_MAX_VALUE sample_extfunc_registered
             sample_client "alpn override"%string 16 GNUTLS_EXT_APPLICATION
             (Some recv_accept) None false None None
             (Z.lor GNUTLS_EXT_FLAG_OVERRIDE_INTERNAL
                GNUTLS_EXT_FLAG_CLIENT_HELLO) in
  gnutls_ext_register sample_MAX_EXT_TYPES sample_EXTENSION_MAX
    sample_EXTENSION_MAX_VALUE sample_extfunc "global"%string 200
    GNUTLS_EXT_ANY (Some recv_accept) None false None None
  = (0, sample_extfunc_registered)
  /\ map tls_id sample_extfunc_registered = [1; 43; 35; 16; 200]
  /\ map gid sample_extfunc_registered = [5; 3; 11; 17; 19]
  /\ fst r = 0
  /\ map tls_id (rexts (snd r)) = [16]
  /\ map gid (rexts (snd r)) = [19]
  /\ tls_id_to_gid sample_extfunc_registered (snd r) 16 = 19
  /\ tls_id_to_gid sample_extfunc_registered (snd r) 200 = 19
  /\ option_map tls_id
       (_gnutls_ext_ptr sample_extfunc_registered (snd r) 19 GNUTLS_EXT_ANY)
     = Some 16.
Proof. repeat split. Qed.

(** C4: in the code the built-in is not suppressed.  The session-level
    registration gives the overlay descriptor for the wire id 16 a new
    internal id (19), not the internal id 17 of the compiled-in descriptor
    it overrides; the client marks bit 19 when it has sent the overlay, the
    check for the compiled-in descriptor reads bit 17, and the client hello
    carries two records with the wire id 16, the first with the payload of
    the overlay and the last with the payload of the compiled-in
    descriptor. *)
Theorem override_sent_twice :
  let r := _gnutls_gen_extensions sample_UNSOLICITED sample_extfunc
             sample_client_override [] GNUTLS_EXT_FLAG_CLIENT_HELLO
             GNUTLS_EXT_ANY in
  fst (fst (fst r)) = 0
  /\ map tls_id (rexts sample_client_override) = [16]
  /\ map gid (rexts sample_client_override) = [19]
  /\ map tls_id (sent_exts (snd r)) = [16; 1; 43; 16]
  /\ map gid (sent_exts (snd r)) = [19; 5; 3; 17]
  /\ snd (fst r)
     = uint16_bytes 29
       ++ encode_block [(16, [x00; x03; x02; x68; x33]); (1, [x02]);
                        (43, [x03; x04]); (16, [x00; x03; x02; x68; x32])].
Proof. repeat split. Qed.




(** The claim about the pack walk fails on the code: the server that
    parsed the wire id 1 has its internal id 5 advertised and a descriptor
    with a pack operation for it, but no live private data; the pack walk
    writes no record, and the count is zero. *)
Lemma ext_pack_format_counterexample :
  Z.testbit (used_exts (state sample_server_parsed)) 5 = true
  /\ pack_candidate sample_extfunc sample_server_parsed 5
     = Some sample_max_record
  /\ live_data sample_MAX_EXT_TYPES sample_server_parsed 5 = None
  /\ _gnutls_ext_pack sample_MAX_EXT_TYPES sample_EXTENSION_MAX_VALUE
       sample_extfunc sample_server_parsed [] = (0, uint32_bytes 0).
Proof. repeat split. Qed.

Lemma sample_packs_append (session : gnutls_session_t) i e :
  rexts session = [] ->
  pack_candidate sample_extfunc session i = Some e -> pack_appends e.
Proof.
  intros Hr H. apply pack_candidate_In in H. rewrite Hr in H.
  destruct H as [<-|[<-|[<-|[<-|[]]]]]; apply pack_number_appends;
    (now left) || (now right).
Qed.

(** The blob of the client that stored live private data for the internal
    ids 5 and 17: two records, in the order of the internal ids. *)
Lemma ext_pack_format_witness :
  _gnutls_ext_pack sample_MAX_EXT_TYPES sample_EXTENSION_MAX_VALUE
    sample_extfunc sample_client_live []
  = (0, uint32_bytes 2
        ++ (uint32_bytes 5 ++ uint32_bytes 4 ++ uint32_bytes 4096)
        ++ (uint32_bytes 17 ++ uint32_bytes 4 ++ uint32_bytes 7)).
Proof.
  rewrite (ext_pack_format sample_MAX_EXT_TYPES sample_EXTENSION_MAX_VALUE
             sample_extfunc sample_client_live []
             (fun i e => sample_packs_append sample_client_live i e eq_refl)).
  reflexivity.
Defined.

(** The claim about the round trip fails on the code: the server has the
    internal id 14 advertised, with live private data and a descriptor that
    packs but has no unpack operation; the pack walk writes its record, and
    the unpack walk on that blob fails with a parsing error instead of
    leaving the id out. *)
Lemma resumption_round_trip_counterexample :
  Z.testbit (used_exts (state sample_server_pack_only)) 14 = true
  /\ live_data sample_MAX_EXT_TYPES sample_server_pack_only 14 = Some 77
  /\ pack_candidate sample_extfunc_pack_only sample_server_pack_only 14
     = Some sample_pack_only
  /\ resumable sample_extfunc_pack_only sample_server_pack_only 14 = false
  /\ _gnutls_ext_pack sample_MAX_EXT_TYPES sample_EXTENSION_MAX_VALUE
       sample_extfunc_pack_only sample_server_pack_only []
     = (0, uint32_bytes 1
           ++ uint32_bytes 14 ++ uint32_bytes 4 ++ uint32_bytes 77)
  /\ fst (fst (fst
       (_gnutls_ext_unpack sample_MAX_EXT_TYPES sample_extfunc_pack_only
          (new_session sample_MAX_EXT_TYPES GNUTLS_SERVER
             (rexts sample_server_pack_only))
          (uint32_bytes 1
           ++ uint32_bytes 14 ++ uint32_bytes 4 ++ uint32_bytes 77))))
     = GNUTLS_E_PARSING_ERROR.
Proof. repeat split. Qed.

Lemma sample_client_live_round_trips i d :
  pack_candidate sample_extfunc sample_client_live i = Some d ->
  pack_appends d /\ unpack_consumes d
  /\ exists p, live_data sample_MAX_EXT_TYPES sample_client_live (gid d)
               = Some p
               /\ Z.of_nat (length (pack_output d p)) < 2 ^ 31.
Proof.
  intros H.
  pose proof (pack_candidate_In _ _ _ _ H) as Hin.
  destruct (pack_candidate_ptr _ _ _ _ H) as (_ & Hgid & [pk Hpk]).
  change (rexts sample_client_live ++ sample_extfunc)
    with sample_extfunc in Hin.
  destruct Hin as [<-|[<-|[<-|[<-|[]]]]]; try discriminate Hpk.
  - split; [apply pack_number_appends; now left|].
    split; [apply unpack_number_consumes; [reflexivity | now left]|].
    exists 4096. split; reflexivity.
  - split; [apply pack_number_appends; now left|].
    split; [apply unpack_number_consumes; [reflexivity | now left]|].
    exists 7. split; reflexivity.
Qed.

Lemma sample_client_live_unpacks i d :
  pack_candidate sample_extfunc sample_client_live i = Some d ->
  is_Some (unpack_func d).
Proof.
  intros H.
  pose proof (pack_candidate_In _ _ _ _ H) as Hin.
  destruct (pack_candidate_ptr _ _ _ _ H) as (_ & _ & [pk Hpk]).
  change (rexts sample_client_live ++ sample_extfunc)
    with sample_extfunc in Hin.
  destruct Hin as [<-|[<-|[<-|[<-|[]]]]]; try discriminate Hpk;
    eexists; reflexivity.
Qed.

Lemma sample_server_mixed_packs i d :
  pack_candidate sample_extfunc_pack_only sample_server_mixed i = Some d ->
  pack_appends d /\ unpack_consumes d
  /\ exists p, live_data sample_MAX_EXT_TYPES sample_server_mixed (gid d)
               = Some p
               /\ Z.of_nat (length (pack_output d p)) < 2 ^ 31.
Proof.
  intros H.
  pose proof (pack_candidate_In _ _ _ _ H) as Hin.
  change (rexts sample_server_mixed ++ sample_extfunc_pack_only)
    with sample_extfunc_pack_only in Hin.
  destruct Hin as [<-|[<-|[]]].
  - split; [apply pack_number_appends; now left|].
    split; [apply unpack_number_consumes; [reflexivity | now left]|].
    exists 4096. split; reflexivity.
  - split; [apply pack_number_appends; now left|].
    split; [apply unpack_number_consumes; [reflexivity | now right]|].
    exists 77. split; reflexivity.
Qed.

(** The round trip of the client that stored live private data for the
    internal ids 5 and 17: both come back, with the numbers stored.  And
    the blob of the server that stored live private data for the internal
    ids 5 and 14: its second record is that of a descriptor without an
    unpack operation, and unpacking the blob is a parsing error. *)
Lemma resumption_round_trip_witness :
  (exists blob fresh',
    _gnutls_ext_pack sample_MAX_EXT_TYPES sample_EXTENSION_MAX_VALUE
      sample_extfunc sample_client_live [] = (0, blob)
    /\ _gnutls_ext_unpack sample_MAX_EXT_TYPES sample_extfunc
         (new_session sample_MAX_EXT_TYPES GNUTLS_CLIENT
            (rexts sample_client_live)) (blob ++ [])
       = (0, fresh', [], [])
    /\ resumed_ids fresh' = [5; 17]
    /\ _gnutls_ext_get_resumed_session_data sample_MAX_EXT_TYPES fresh' 5
       = (0, Some 4096)
    /\ _gnutls_ext_get_resumed_session_data sample_MAX_EXT_TYPES fresh' 17
       = (0, Some 7)
    /\ _gnutls_ext_get_resumed_session_data sample_MAX_EXT_TYPES fresh' 3
       = (GNUTLS_E_INVALID_REQUEST, None))
  /\ (exists blob,
        _gnutls_ext_pack sample_MAX_EXT_TYPES sample_EXTENSION_MAX_VALUE
          sample_extfunc_pack_only sample_server_mixed [] = (0, blob)
        /\ blob = uint32_bytes 2
                  ++ (uint32_bytes 5 ++ uint32_bytes 4 ++ uint32_bytes 4096)
                  ++ (uint32_bytes 14 ++ uint32_bytes 4 ++ uint32_bytes 77)
        /\ fst (fst (fst
             (_gnutls_ext_unpack sample_MAX_EXT_TYPES
                sample_extfunc_pack_only
                (new_session sample_MAX_EXT_TYPES GNUTLS_SERVER
                   (rexts sample_server_mixed)) (blob ++ []))))
           = GNUTLS_E_PARSING_ERROR).
Proof.
  split.
  - destruct (resumption_round_trip sample_MAX_EXT_TYPES
                sample_EXTENSION_MAX_VALUE sample_extfunc sample_client_live
                GNUTLS_CLIENT []
                ltac:(vm_compute; discriminate) ltac:(reflexivity)
                sample_client_live_round_trips)
      as (blob & Hpack & Hround & _).
    destruct (Hround (fun i d _ => sample_client_live_unpacks i d))
      as (fresh' & Hunpack & Hids & Hin & Hout).
    exists blob, fresh'.
    split; [exact Hpack|]. split; [exact Hunpack|].
    split; [exact Hids|].
    split; [apply (Hin 5); vm_compute; auto|].
    split; [apply (Hin 17); vm_compute; auto|].
    apply (Hout 3). vm_compute. intros [H|[H|[]]]; discriminate.
  - destruct (resumption_round_trip sample_MAX_EXT_TYPES
                sample_EXTENSION_MAX_VALUE sample_extfunc_pack_only
                sample_server_mixed GNUTLS_SERVER []
                ltac:(vm_compute; discriminate) ltac:(reflexivity)
                sample_server_mixed_packs)
      as (blob & Hpack & _ & Hfail).
    exists blob.
    split; [exact Hpack|].
    split; [vm_compute in Hpack; now injection Hpack as <-|].
    apply (Hfail 14 sample_pack_only);
      [vm_compute; split; discriminate | reflexivity | reflexivity].
Defined.

(** * The further statements on the sample build *)

Lemma sample_EXTENSION_MAX_nonneg : 0 <= sample_EXTENSION_MAX.
Proof. discriminate. Qed.

Lemma sample_client_slot_available id :
  slot_available id (slots sample_MAX_EXT_TYPES sample_client).
Proof. exists ext_data_zero. split; [now left | now right]. Qed.

Lemma sample_session_full_unavailable :
  ~ slot_available 29 (slots sample_MAX_EXT_TYPES sample_session_full).
Proof.
  intros H. apply slot_available_existsb in H. vm_compute in H. discriminate H.
Qed.

(** In a new session the live value stored for the internal id 5 is read
    back; in the full table, which has no slot for the internal id 29, the
    value is dropped. *)
Lemma set_then_get_session_data_witness :
  _gnutls_ext_get_session_data sample_MAX_EXT_TYPES
    (fst (_gnutls_ext_set_session_data sample_MAX_EXT_TYPES sample_extfunc
            sample_client 5 300)) 5
  = (0, Some 300)
  /\ _gnutls_ext_get_session_data sample_MAX_EXT_TYPES
       (fst (_gnutls_ext_set_session_data sample_MAX_EXT_TYPES sample_extfunc
               sample_session_full 29 5)) 29
     = (GNUTLS_E_REQUESTED_DATA_NOT_AVAILABLE, None).
Proof.
  split.
  - apply (proj1 (set_then_get_session_data sample_MAX_EXT_TYPES
                    sample_extfunc sample_client 5 300)).
    apply sample_client_slot_available.
  - apply (proj2 (set_then_get_session_data sample_MAX_EXT_TYPES
                    sample_extfunc sample_session_full 29 5)).
    apply sample_session_full_unavailable.
Defined.

Lemma set_then_get_resumed_session_data_witness :
  _gnutls_ext_get_resumed_session_data sample_MAX_EXT_TYPES
    (fst (_gnutls_ext_set_resumed_session_data sample_MAX_EXT_TYPES
            sample_extfunc sample_client 5 300)) 5
  = (0, Some 300)
  /\ _gnutls_ext_get_resumed_session_data sample_MAX_EXT_TYPES
       (fst (_gnutls_ext_set_resumed_session_data sample_MAX_EXT_TYPES
               sample_extfunc sample_session_full 29 5)) 29
     = (GNUTLS_E_INVALID_REQUEST, None).
Proof.
  split.
  - apply (proj1 (set_then_get_resumed_session_data sample_MAX_EXT_TYPES
                    sample_extfunc sample_client 5 300)).
    apply sample_client_slot_available.
  - apply (proj2 (set_then_get_resumed_session_data sample_MAX_EXT_TYPES
                    sample_extfunc sample_session_full 29 5)).
    apply sample_session_full_unavailable.
Defined.

(** The client holds live values for the internal ids 5 and 17: storing
    for 17, live or resumed, leaves what is read for 5. *)
Lemma set_session_data_frame_witness :
  _gnutls_ext_get_session_data sample_MAX_EXT_TYPES
    (fst (_gnutls_ext_set_session_data sample_MAX_EXT_TYPES sample_extfunc
            sample_client_live 17 9)) 5
  = _gnutls_ext_get_session_data sample_MAX_EXT_TYPES sample_client_live 5
  /\ _gnutls_ext_get_resumed_session_data sample_MAX_EXT_TYPES
       (fst (_gnutls_ext_set_resumed_session_data sample_MAX_EXT_TYPES
               sample_extfunc sample_client_live 17 9)) 5
     = _gnutls_ext_get_resumed_session_data sample_MAX_EXT_TYPES
         sample_client_live 5.
Proof.
  destruct (set_session_data_frame sample_MAX_EXT_TYPES sample_extfunc
              sample_client_live 17 9 5) as (Hlive & _ & Hresumed & _).
  split; [apply Hlive | apply Hresumed]; discriminate.
Defined.

Lemma unset_session_data_frame_witness :
  _gnutls_ext_get_session_data sample_MAX_EXT_TYPES
    (fst (_gnutls_ext_unset_session_data sample_MAX_EXT_TYPES sample_extfunc
            sample_client_live 17)) 5
  = _gnutls_ext_get_session_data sample_MAX_EXT_TYPES sample_client_live 5
  /\ _gnutls_ext_unset_session_data sample_MAX_EXT_TYPES sample_extfunc
       sample_client 17
     = (sample_client, []).
Proof.
  split.
  - apply (proj1 (unset_session_data_frame sample_MAX_EXT_TYPES
                    sample_extfunc sample_client_live 17 5)).
    discriminate.
  - apply (proj2 (proj2 (unset_session_data_frame sample_MAX_EXT_TYPES
                           sample_extfunc sample_client 17 5))).
    intros y Hy.
    change (slots sample_MAX_EXT_TYPES sample_client)
      with (replicate 32 ext_data_zero) in Hy.
    apply list_elem_of_In, elem_of_replicate in Hy as [-> _].
    discriminate.
Defined.

(** The value 300 stored for the internal id 5 in a new session and then
    unset is gone, and was handed to the deinitialisation function of the
    descriptor with that internal id. *)
Lemma set_then_unset_session_data_witness :
  let session1 :=
    fst (_gnutls_ext_set_session_data sample_MAX_EXT_TYPES sample_extfunc
           sample_client 5 300) in
  _gnutls_ext_get_session_data sample_MAX_EXT_TYPES
    (fst (_gnutls_ext_unset_session_data sample_MAX_EXT_TYPES sample_extfunc
            session1 5)) 5
  = (GNUTLS_E_REQUESTED_DATA_NOT_AVAILABLE, None)
  /\ snd (_gnutls_ext_unset_session_data sample_MAX_EXT_TYPES sample_extfunc
            session1 5)
     = [call_deinit sample_max_record 300].
Proof.
  pose proof (set_then_unset_session_data sample_MAX_EXT_TYPES sample_extfunc
                sample_client 5 300 eq_refl) as H.
  cbv zeta in H |- *. destruct H as [Hget Htrace].
  split; [exact Hget|].
  rewrite Htrace by apply sample_client_slot_available. reflexivity.
Defined.

(** No descriptor of the sample build carries the wire id 99. *)
Lemma ext_set_data_unknown_witness :
  gnutls_ext_set_data sample_MAX_EXT_TYPES sample_extfunc sample_client 99 7
  = (sample_client, [])
  /\ gnutls_ext_get_data sample_MAX_EXT_TYPES sample_extfunc sample_client 99
     = (GNUTLS_E_REQUESTED_DATA_NOT_AVAILABLE, None).
Proof.
  apply ext_set_data_unknown.
  intros e [<-|[<-|[<-|[<-|[]]]]]; discriminate.
Defined.

(** The wire id 1 resolves to the internal id 5. *)
Lemma ext_set_then_get_data_witness :
  gnutls_ext_get_data sample_MAX_EXT_TYPES sample_extfunc
    (fst (gnutls_ext_set_data sample_MAX_EXT_TYPES sample_extfunc
            sample_client 1 4096)) 1
  = (0, Some 4096).
Proof.
  apply ext_set_then_get_data.
  - discriminate.
  - apply sample_client_slot_available.
Defined.

(** The wire id 16 is compiled in, and the wire id 200 was registered. *)
Lemma ext_register_already_registered_witness :
  gnutls_ext_register sample_MAX_EXT_TYPES sample_EXTENSION_MAX
    sample_EXTENSION_MAX_VALUE sample_extfunc "alpn"%string 16
    GNUTLS_EXT_ANY None None false None None
  = (GNUTLS_E_ALREADY_REGISTERED, sample_extfunc)
  /\ gnutls_ext_register sample_MAX_EXT_TYPES sample_EXTENSION_MAX
       sample_EXTENSION_MAX_VALUE sample_extfunc_registered "again"%string 200
       GNUTLS_EXT_TLS_EARLY None None false None None
     = (GNUTLS_E_ALREADY_REGISTERED, sample_extfunc_registered).
Proof.
  split.
  - apply (proj1 (ext_register_already_registered sample_MAX_EXT_TYPES
                    sample_EXTENSION_MAX sample_EXTENSION_MAX_VALUE
                    sample_extfunc "alpn"%string 16 GNUTLS_EXT_ANY None None
                    false None None)).
    exists sample_alpn. split; [|reflexivity].
    right. right. right. now left.
  - apply (proj2 (ext_register_already_registered sample_MAX_EXT_TYPES
                    sample_EXTENSION_MAX sample_EXTENSION_MAX_VALUE
                    sample_extfunc "global"%string 200 GNUTLS_EXT_ANY
                    (Some recv_accept) None false None None)).
    + lia.
    + reflexivity.
Defined.

Lemma ext_register_makes_known_witness :
  gnutls_ext_get_name sample_extfunc 200 = None
  /\ gnutls_ext_get_name sample_extfunc_registered 200
     = Some "global"%string
  /\ tls_id_to_gid sample_extfunc sample_client 200 = 0
  /\ sample_EXTENSION_MAX
     < tls_id_to_gid sample_extfunc_registered sample_client 200
     <= sample_EXTENSION_MAX_VALUE.
Proof.
  destruct (ext_register_makes_known sample_MAX_EXT_TYPES sample_EXTENSION_MAX
              sample_EXTENSION_MAX_VALUE sample_EXTENSION_MAX_nonneg
              sample_extfunc "global"%string 200 GNUTLS_EXT_ANY
              (Some recv_accept) None false None None
              sample_extfunc_registered ltac:(lia) sample_extfunc_in_range
              eq_refl) as (Hbefore & Hafter & Hgid & _).
  destruct (Hgid sample_client ltac:(intros e [])) as [Hgid0 Hgid1].
  repeat split; assumption || apply Hgid1.
Defined.

(** The sample build has 32 slots; a build with 5 slots has no room for a
    fifth entry of the table. *)
Lemma ext_register_capacity_witness :
  (length sample_extfunc_registered < sample_MAX_EXT_TYPES)%nat
  /\ gnutls_ext_register 5 sample_EXTENSION_MAX sample_EXTENSION_MAX_VALUE
       sample_extfunc "global"%string 200 GNUTLS_EXT_ANY (Some recv_accept)
       None false None None
     = (GNUTLS_E_INTERNAL_ERROR, sample_extfunc).
Proof.
  split.
  - apply (proj1 (ext_register_capacity sample_MAX_EXT_TYPES
                    sample_EXTENSION_MAX sample_EXTENSION_MAX_VALUE
                    sample_extfunc "global"%string 200 GNUTLS_EXT_ANY
                    (Some recv_accept) None false None None
                    0 sample_extfunc_registered ltac:(vm_compute; lia)
                    ltac:(vm_compute; discriminate) eq_refl)).
    reflexivity.
  - destruct (proj2 (ext_register_capacity 5 sample_EXTENSION_MAX
                       sample_EXTENSION_MAX_VALUE sample_extfunc
                       "global"%string 200 GNUTLS_EXT_ANY (Some recv_accept)
                       None false None None _ _ ltac:(lia)
                       ltac:(vm_compute; discriminate)
                       (surjective_pairing _)))
      as (_ & Htable & Hret).
    + simpl. lia.
    + rewrite (surjective_pairing (gnutls_ext_register _ _ _ _ _ _ _ _ _ _ _ _)).
      rewrite Htable, (Hret 19 eq_refl ltac:(vm_compute; discriminate)).
      reflexivity.
Defined.

Lemma sample_extfunc_ids_distinct :
  NoDup (map tls_id sample_extfunc) /\ NoDup (map gid sample_extfunc).
Proof.
  split; cbn; repeat constructor; rewrite ?elem_of_cons, ?elem_of_nil; lia.
Qed.

Lemma ext_register_keeps_ids_distinct_witness :
  gids_in_range sample_extfunc_registered
  /\ NoDup (map tls_id sample_extfunc_registered)
  /\ NoDup (map gid sample_extfunc_registered).
Proof.
  apply (ext_register_keeps_ids_distinct sample_MAX_EXT_TYPES
           sample_EXTENSION_MAX sample_EXTENSION_MAX_VALUE
           sample_EXTENSION_MAX_nonneg sample_extfunc "global"%string 200
           GNUTLS_EXT_ANY (Some recv_accept) None false None None 0).
  - lia.
  - reflexivity.
  - apply sample_extfunc_in_range.
  - apply sample_extfunc_ids_distinct.
  - apply sample_extfunc_ids_distinct.
  - reflexivity.
Defined.

(** Two registrations, of which the second repeats the wire id of the
    first and fails, and the deinitialisation. *)
Lemma ext_deinit_restores_table_witness :
  table_until_null
    (_gnutls_ext_deinit
       (register_all sample_MAX_EXT_TYPES sample_EXTENSION_MAX
          sample_EXTENSION_MAX_VALUE
          [mk_registration "global"%string 200 GNUTLS_EXT_ANY
             (Some recv_accept) None false None None;
           mk_registration "again"%string 200 GNUTLS_EXT_ANY None None false
             None None]
          sample_extfunc))
  = sample_extfunc.
Proof.
  apply ext_deinit_restores_table.
  intros e [<-|[<-|[<-|[<-|[]]]]]; reflexivity.
Defined.

(** The override of the wire id 16 in the sample client. *)
Lemma session_ext_register_resolves_witness :
  state sample_client_override = state sample_client
  /\ exists new,
       rexts sample_client_override = [new]
       /\ name new = None
       /\ tls_id_to_gid sample_extfunc sample_client_override 16 = gid new
       /\ sample_EXTENSION_MAX < gid new
       /\ _gnutls_ext_ptr sample_extfunc sample_client_override (gid new)
            GNUTLS_EXT_ANY = Some new.
Proof.
  destruct (session_ext_register_resolves sample_EXTENSION_MAX
              sample_EXTENSION_MAX_VALUE sample_EXTENSION_MAX_nonneg
              sample_extfunc sample_client "alpn override"%string 16
              GNUTLS_EXT_APPLICATION (Some recv_accept)
              (Some (send_payload [x00; x03; x02; x68; x33])) false None None
              (Z.lor GNUTLS_EXT_FLAG_OVERRIDE_INTERNAL
                 GNUTLS_EXT_FLAG_CLIENT_HELLO)
              sample_client_override ltac:(lia) sample_extfunc_in_range
              ltac:(intros e []) eq_refl)
    as (Hstate & new & Hrexts & _ & Hname & _ & _ & _ & _ & _ & Hgid & Hrange
        & Hptr & _).
  split; [exact Hstate|]. exists new. repeat split; try assumption.
  apply Hrange.
Defined.

Lemma session_ext_register_refuses_witness :
  gnutls_session_ext_register sample_EXTENSION_MAX sample_EXTENSION_MAX_VALUE
    sample_extfunc sample_client "alpn"%string 16 GNUTLS_EXT_APPLICATION
    None None false None None 0
  = (GNUTLS_E_ALREADY_REGISTERED, sample_client)
  /\ gnutls_session_ext_register sample_EXTENSION_MAX
       sample_EXTENSION_MAX_VALUE sample_extfunc sample_client
       "versions"%string 43 GNUTLS_EXT_TLS_EARLY None None false None None
       GNUTLS_EXT_FLAG_OVERRIDE_INTERNAL
     = (GNUTLS_E_ALREADY_REGISTERED, sample_client)
  /\ gnutls_session_ext_register sample_EXTENSION_MAX
       sample_EXTENSION_MAX_VALUE sample_extfunc sample_client_custom
       "again"%string 100 GNUTLS_EXT_ANY None None false None None 0
     = (GNUTLS_E_ALREADY_REGISTERED, sample_client_custom).
Proof.
  split; [|split].
  - apply (proj1 (session_ext_register_refuses sample_EXTENSION_MAX
                    sample_EXTENSION_MAX_VALUE sample_extfunc sample_client
                    "alpn"%string 16 GNUTLS_EXT_APPLICATION None None false
                    None None 0) sample_alpn eq_refl).
    now left.
  - apply (proj1 (session_ext_register_refuses sample_EXTENSION_MAX
                    sample_EXTENSION_MAX_VALUE sample_extfunc sample_client
                    "versions"%string 43 GNUTLS_EXT_TLS_EARLY None None false
                    None None GNUTLS_EXT_FLAG_OVERRIDE_INTERNAL)
             sample_supported_versions eq_refl).
    now right.
  - apply (proj2 (proj2 (session_ext_register_refuses sample_EXTENSION_MAX
                           sample_EXTENSION_MAX_VALUE sample_extfunc
                           sample_client "custom"%string 100 GNUTLS_EXT_ANY
                           (Some recv_accept) (Some (send_payload [x2a]))
                           false None None 0))).
    + lia.
    + reflexivity.
Defined.

Lemma session_ext_register_then_data_witness :
  gnutls_ext_get_data sample_MAX_EXT_TYPES sample_extfunc
    (fst (gnutls_ext_set_data sample_MAX_EXT_TYPES sample_extfunc
            sample_client_custom 100 42)) 100
  = (0, Some 42).
Proof.
  apply (session_ext_register_then_data sample_MAX_EXT_TYPES
           sample_EXTENSION_MAX sample_EXTENSION_MAX_VALUE
           sample_EXTENSION_MAX_nonneg sample_extfunc sample_client
           "custom"%string 100 GNUTLS_EXT_ANY (Some recv_accept)
           (Some (send_payload [x2a])) false None None 0).
  - lia.
  - apply sample_extfunc_in_range.
  - intros e [].
  - reflexivity.
  - exists ext_data_zero. split; [now left | now right].
Defined.

(** A server receives a block with the wire ids 99 and 77, which no
    descriptor carries. *)
Lemma parse_extensions_skips_unknown_witness :
  _gnutls_parse_extensions sample_UNSOLICITED sample_MALFORMED sample_extfunc
    sample_server GNUTLS_EXT_FLAG_CLIENT_HELLO GNUTLS_EXT_ANY
    (encode_block [(99, [x01]); (77, [])])
  = (0, sample_server, []).
Proof.
  apply parse_extensions_skips_unknown.
  - repeat constructor; simpl; lia.
  - intros r [<-|[<-|[]]]; reflexivity.
Defined.

(** The server that parsed the wire id 1 receives it again; a new server
    receives it for the first time. *)
Lemma hello_ext_parse_server_once_witness :
  hello_ext_parse sample_UNSOLICITED sample_extfunc
    (mk_ctx GNUTLS_EXT_FLAG_CLIENT_HELLO GNUTLS_EXT_ANY) 1 [x02]
    sample_server_parsed
  = (GNUTLS_E_RECEIVED_ILLEGAL_EXTENSION, sample_server_parsed, [])
  /\ hello_ext_parse sample_UNSOLICITED sample_extfunc
       (mk_ctx GNUTLS_EXT_FLAG_CLIENT_HELLO GNUTLS_EXT_ANY) 1 [x02]
       sample_server
     = (0, sample_server_parsed, [call_recv sample_max_record [x02]]).
Proof.
  split.
  - apply (proj1 (hello_ext_parse_server_once sample_UNSOLICITED
                    sample_extfunc sample_UNSOLICITED_negative
                    (mk_ctx GNUTLS_EXT_FLAG_CLIENT_HELLO GNUTLS_EXT_ANY)
                    1 [x02] sample_server_parsed sample_max_record
                    recv_accept eq_refl ltac:(discriminate) eq_refl eq_refl
                    ltac:(discriminate))).
    reflexivity.
  - rewrite (proj2 (hello_ext_parse_server_once sample_UNSOLICITED
                      sample_extfunc sample_UNSOLICITED_negative
                      (mk_ctx GNUTLS_EXT_FLAG_CLIENT_HELLO GNUTLS_EXT_ANY)
                      1 [x02] sample_server sample_max_record
                      recv_accept eq_refl ltac:(discriminate) eq_refl eq_refl
                      ltac:(discriminate)) eq_refl).
    reflexivity.
Defined.

(** A blob with one record for the internal id 9, which has no descriptor,
    and one for the internal id 11, whose descriptor does not unpack. *)
Lemma ext_unpack_unknown_id_witness :
  _gnutls_ext_unpack sample_MAX_EXT_TYPES sample_extfunc sample_client
    (uint32_bytes 1 ++ uint32_bytes 9 ++ uint32_bytes 0 ++ [])
  = (GNUTLS_E_PARSING_ERROR, sample_client, [], [])
  /\ _gnutls_ext_unpack sample_MAX_EXT_TYPES sample_extfunc sample_client
       (uint32_bytes 1 ++ uint32_bytes 11 ++ uint32_bytes 0 ++ [])
     = (GNUTLS_E_PARSING_ERROR, sample_client, [], []).
Proof.
  split.
  - apply ext_unpack_unknown_id; [lia | lia | lia|]. now left.
  - apply ext_unpack_unknown_id; [lia | lia | lia|]. right.
    exists sample_session_ticket. split; reflexivity.
Defined.

(** A record for the internal id 5 that announces three bytes, while the
    unpack operation of the descriptor reads a 32-bit number. *)
Lemma ext_unpack_checks_record_witness :
  _gnutls_ext_unpack sample_MAX_EXT_TYPES sample_extfunc sample_client
    (uint32_bytes 1 ++ uint32_bytes 5 ++ uint32_bytes 3 ++ uint32_bytes 7)
  = (GNUTLS_E_PARSING_ERROR, sample_client, [], []).
Proof.
  pose proof (ext_unpack_checks_record sample_MAX_EXT_TYPES sample_extfunc
                sample_client 1 5 3 (uint32_bytes 7) sample_max_record
                unpack_number ltac:(lia) ltac:(lia) ltac:(lia) eq_refl
                eq_refl) as H.
  cbv zeta in H. destruct H as [_ H].
  apply H; [discriminate|]. vm_compute. discriminate.
Defined.

Lemma ext_unpack_no_records_witness :
  _gnutls_ext_unpack sample_MAX_EXT_TYPES sample_extfunc sample_client
    (uint32_bytes (2 ^ 32 - 1) ++ [x00; x01])
  = (0, sample_client, [x00; x01], []).
Proof. apply ext_unpack_no_records. right. lia. Defined.

(** The client holds live private data for the internal ids 5 and 7; the
    pack operation for 7 fails. *)
Lemma ext_pack_first_failure_witness :
  fst (_gnutls_ext_pack sample_MAX_EXT_TYPES sample_EXTENSION_MAX_VALUE
         sample_extfunc_failing sample_client_failing [])
  = GNUTLS_E_MEMORY_ERROR.
Proof.
  assert (Hu : used_exts (state sample_client_failing) = 160) by reflexivity.
  apply (ext_pack_first_failure sample_MAX_EXT_TYPES
           sample_EXTENSION_MAX_VALUE sample_extfunc_failing
           sample_client_failing [] 7 sample_failing pack_fails 9).
  - vm_compute. split; discriminate.
  - reflexivity.
  - reflexivity.
  - reflexivity.
  - reflexivity.
  - reflexivity.
  - intros j e' pack' p' b Hj Hcand Hpack.
    unfold pack_candidate in Hcand. rewrite Hu in Hcand.
    assert (Hcases : j = 0 \/ j = 1 \/ j = 2 \/ j = 3 \/ j = 4 \/ j = 5
                     \/ j = 6) by lia.
    destruct Hcases as [->|[->|[->|[->|[->|[->| ->]]]]]];
      try discriminate Hcand.
    change (_gnutls_ext_ptr sample_extfunc_failing sample_client_failing 5
              GNUTLS_EXT_ANY)
      with (Some sample_max_record) in Hcand.
    cbn in Hcand. injection Hcand as <-.
    cbn in Hpack. injection Hpack as <-. cbn. lia.
Defined.

(** The client hello of a client whose second descriptor fails to send:
    the first descriptor was sent, the third is not reached. *)
Lemma gen_extensions_first_failure_witness :
  exists session' buf',
    _gnutls_gen_extensions sample_UNSOLICITED sample_extfunc_send_fails
      sample_client [] GNUTLS_EXT_FLAG_CLIENT_HELLO GNUTLS_EXT_ANY
    = (GNUTLS_E_MEMORY_ERROR, session', buf',
       [call_send sample_max_record; log_sending sample_max_record 1;
        call_send sample_send_fails]).
Proof.
  eexists. eexists.
  refine (gen_extensions_first_failure sample_UNSOLICITED
            sample_extfunc_send_fails sample_UNSOLICITED_negative
            sample_client [] GNUTLS_EXT_FLAG_CLIENT_HELLO GNUTLS_EXT_ANY
            [sample_max_record] sample_send_fails [sample_alpn] send_fails
            _ _ _ _ eq_refl eq_refl _ eq_refl eq_refl eq_refl _ _).
  - discriminate.
  - reflexivity.
  - discriminate.
Defined.

Lemma recv_accept_accepts d :
  recv_func d = Some recv_accept -> recv_accepts d.
Proof.
  intros Hd recv st data H. rewrite Hd in H. injection H as <-.
  cbn. repeat split. lia.
Qed.

(** A new server receives a client hello with the wire ids 1, 43 and 16. *)
Lemma parse_extensions_server_in_order_witness :
  exists session',
    _gnutls_parse_extensions sample_UNSOLICITED sample_MALFORMED
      sample_extfunc sample_server GNUTLS_EXT_FLAG_CLIENT_HELLO GNUTLS_EXT_ANY
      (encode_block [(1, [x02]); (43, [x03; x04]); (16, [x00])])
    = (0, session',
       [call_recv sample_max_record [x02];
        call_recv sample_supported_versions [x03; x04];
        call_recv sample_alpn [x00]])
    /\ used_exts (state session') = 131112.
Proof.
  destruct (parse_extensions_server_in_order sample_UNSOLICITED
              sample_MALFORMED sample_extfunc sample_UNSOLICITED_negative
              sample_server GNUTLS_EXT_FLAG_CLIENT_HELLO GNUTLS_EXT_ANY
              [(1, [x02]); (43, [x03; x04]); (16, [x00])] eq_refl)
    as (session' & Hrun & _ & _ & Hused).
  - repeat constructor; cbn; lia.
  - intros r [<-|[<-|[<-|[]]]]; (split; [discriminate|]).
    + exists sample_max_record, recv_accept.
      split; [|split; [|split]];
        [reflexivity | reflexivity | discriminate
        | now apply recv_accept_accepts].
    + exists sample_supported_versions, recv_accept.
      split; [|split; [|split]];
        [reflexivity | reflexivity | discriminate
        | now apply recv_accept_accepts].
    + exists sample_alpn, recv_accept.
      split; [|split; [|split]];
        [reflexivity | reflexivity | discriminate
        | now apply recv_accept_accepts].
  - cbn. repeat constructor; rewrite ?elem_of_cons, ?elem_of_nil; lia.
  - intros r [<-|[<-|[<-|[]]]]; reflexivity.
  - exists session'. split; [exact Hrun | exact Hused].
Defined.

(** The client that sent its client hello receives a TLS 1.2 server hello
    with the wire ids 43 and 16, the first of them twice. *)
Lemma parse_extensions_client_in_order_witness :
  exists session',
    _gnutls_parse_extensions sample_UNSOLICITED sample_MALFORMED
      sample_extfunc sample_client_sent GNUTLS_EXT_FLAG_TLS12_SERVER_HELLO
      GNUTLS_EXT_ANY
      (encode_block [(43, [x03; x04]); (16, [x00]); (43, [x03; x03])])
    = (0, session',
       [call_recv sample_supported_versions [x03; x04];
        call_recv sample_alpn [x00];
        call_recv sample_supported_versions [x03; x03]])
    /\ used_exts (state session') = used_exts (state sample_client_sent).
Proof.
  destruct (parse_extensions_client_in_order sample_UNSOLICITED
              sample_MALFORMED sample_extfunc sample_UNSOLICITED_negative
              sample_client_sent GNUTLS_EXT_FLAG_TLS12_SERVER_HELLO
              GNUTLS_EXT_ANY
              [(43, [x03; x04]); (16, [x00]); (43, [x03; x03])] eq_refl)
    as (session' & Hrun & _ & _ & Hused).
  - repeat constructor; cbn; lia.
  - intros r [<-|[<-|[<-|[]]]]; (split; [discriminate|]).
    + exists sample_supported_versions, recv_accept.
      split; [|split; [|split]];
        [reflexivity | reflexivity | discriminate
        | now apply recv_accept_accepts].
    + exists sample_alpn, recv_accept.
      split; [|split; [|split]];
        [reflexivity | reflexivity | discriminate
        | now apply recv_accept_accepts].
    + exists sample_supported_versions, recv_accept.
      split; [|split; [|split]];
        [reflexivity | reflexivity | discriminate
        | now apply recv_accept_accepts].
  - intros r [<-|[<-|[<-|[]]]]; reflexivity.
  - exists session'. split; [exact Hrun | exact Hused].
Defined.

(** A blob with the value 7 for the internal id 5, unpacked into the
    client that holds live values. *)
Lemma ext_unpack_record_stored_witness :
  exists session' tr,
    _gnutls_ext_unpack sample_MAX_EXT_TYPES sample_extfunc sample_client_live
      (uint32_bytes 1 ++ uint32_bytes 5 ++ uint32_bytes 4 ++ uint32_bytes 7)
    = (0, session', [], tr)
    /\ _gnutls_ext_get_resumed_session_data sample_MAX_EXT_TYPES session' 5
       = (0, Some 7)
    /\ _gnutls_ext_get_session_data sample_MAX_EXT_TYPES session' 5
       = (0, Some 4096).
Proof.
  destruct (ext_unpack_record_stored sample_MAX_EXT_TYPES sample_extfunc
              sample_client_live 5 4 (uint32_bytes 7) sample_max_record
              unpack_number ltac:(lia) ltac:(lia) eq_refl eq_refl
              ltac:(discriminate) eq_refl)
    as (session' & tr & Hrun & Hresumed & Hlive).
  - apply slot_available_existsb. reflexivity.
  - exists session', tr. split; [exact Hrun|]. split; [exact Hresumed|].
    rewrite Hlive. reflexivity.
Defined.

(** Three values stored in a new client. *)
Lemma table_holds_distinct_ids_witness :
  _gnutls_ext_get_session_data sample_MAX_EXT_TYPES
    (store_all sample_MAX_EXT_TYPES sample_extfunc
       [(5, 4096); (17, 7); (3, 772)] sample_client) 17
  = (0, Some 7).
Proof.
  apply (table_holds_distinct_ids sample_MAX_EXT_TYPES sample_extfunc
           GNUTLS_CLIENT [] [(5, 4096); (17, 7); (3, 772)] (17, 7)).
  - cbn. repeat constructor; rewrite ?elem_of_cons, ?elem_of_nil; lia.
  - cbn. unfold sample_MAX_EXT_TYPES. lia.
  - right. now left.
Defined.

(** A resumed and a live value for the internal id 5 in a new client. *)
Lemma live_and_resumed_side_by_side_witness :
  let session' :=
    fst (_gnutls_ext_set_session_data sample_MAX_EXT_TYPES sample_extfunc
           (fst (_gnutls_ext_set_resumed_session_data sample_MAX_EXT_TYPES
                   sample_extfunc sample_client 5 7)) 5 4096) in
  _gnutls_ext_get_session_data sample_MAX_EXT_TYPES session' 5
  = (0, Some 4096)
  /\ _gnutls_ext_get_resumed_session_data sample_MAX_EXT_TYPES session' 5
     = (0, Some 7).
Proof.
  exact (proj1 (live_and_resumed_side_by_side sample_MAX_EXT_TYPES
                  sample_extfunc sample_client 5 4096 7
                  (sample_client_slot_available 5))).
Defined.
